(** * WhatsAppWizzard: the dispatch and reconciliation core of [services/WhatsApp.ts]

    A shallow embedding of the [WhatsApp] class (and of
    [UserRepository.createOrUpdateUser] from [services/Database/Users.ts]).

    - JavaScript values: strings are [string], numbers that hold integers
      (timestamps, unread counts, Telegram message ids) are [Z], arrays are
      [list], the [Map] built by [getUnreadChats] is a [gmap] (no claim here
      depends on its insertion order).
    - Calls into collaborators (the messaging client, Prisma repositories, the
      queue, Telegram, analytics, the file service) are of two kinds, as in the
      source.  A call that is awaited, or that is synchronous, returns a value
      or throws ([outcome]); a rejected promise throws at the [await].  A call
      that is not awaited throws only if the call expression itself throws;
      otherwise the caller goes on, and if the dropped promise rejects nobody
      handles the rejection ([unawaited]).  What each call does is given by
      the object it is called on ([Message], [Contact], [Chat]) or by the
      collaborator record [Env].
    - Handlers run in the monad [M]: the state is the [World] (the fields of the
      [WhatsApp] instance, the user table, the console and the trace of calls
      issued so far); an exception leaves the state as it was when it was
      thrown. *)

From Stdlib Require Import ZArith List Ascii String Lia.
From stdpp Require Import base option list gmap strings pretty.

#[local] Set Warnings "-clear-no-such-hyp".

Open Scope string_scope.
Open Scope Z_scope.
Open Scope list_scope.

(** ** Results of calls *)

Inductive outcome (A : Type) : Type :=
| Returns (a : A)
| Throws (e : string).
Arguments Returns {A} a.
Arguments Throws {A} e.

Definition returns {A} (o : outcome A) : bool :=
  match o with Returns _ => true | Throws _ => false end.

(** What a call that is not awaited does: the call expression throws, or it
    hands back a promise that is dropped and later fulfils or rejects. *)
Inductive unawaited (A : Type) : Type :=
| Threw (e : string)
| Dropped (settles : outcome A).
Arguments Threw {A} e.
Arguments Dropped {A} settles.

(** The call went through and its promise fulfils. *)
Definition fulfilled : unawaited unit := Dropped (Returns tt).

Definition fulfils {A} (s : unawaited A) : bool :=
  match s with Dropped (Returns _) => true | _ => false end.

Definition rejects {A} (s : unawaited A) : bool :=
  match s with Dropped (Throws _) => true | _ => false end.

(** ** Strings *)

Definition space : ascii := " "%char.

(** [s.split(" ")]: the pieces between the spaces, never an empty array. *)
Fixpoint split_space (s : string) : list string :=
  match s with
  | EmptyString => [EmptyString]
  | String c rest =>
      if Ascii.eqb c space then EmptyString :: split_space rest
      else match split_space rest with
           | piece :: pieces => String c piece :: pieces
           | [] => [String c EmptyString]
           end
  end.

Fixpoint has_space (s : string) : bool :=
  match s with
  | EmptyString => false
  | String c rest => Ascii.eqb c space || has_space rest
  end.

(** [a || b] on a possibly missing string: the empty string is falsy. *)
Definition or_else (a : option string) (b : string) : string :=
  match a with
  | Some s => if String.eqb s "" then b else s
  | None => b
  end.

(** [if (x)] on a possibly null number: [null] and [0] are falsy. *)
Definition truthy (x : option Z) : bool :=
  match x with
  | Some n => negb (n =? 0)
  | None => false
  end.

(** [arr.slice(0, e)] for an integer [e]: a negative [e] counts from the end,
    an [e] past the end is clamped. *)
Definition slice0 {A} (l : list A) (e : Z) : list A :=
  let len := Z.of_nat (length l) in
  let k := if e <? 0 then Z.max (len + e) 0 else Z.min e len in
  firstn (Z.to_nat k) l.

(** ** Data *)

Inductive DownloadStatus := UNKNOWN | PENDING | SENT | FAILED.

Record Link := { link : string; isSuspicious : bool }.

Record MessageMedia := { mimetype : string; data : string }.

Inductive ReplyContent :=
| Text (s : string)
| Media (m : MessageMedia)
| Sticker (m : MessageMedia) (stickerAuthor stickerName : string).

Record ChatInfo := { isGroup : bool; isReadOnly : bool }.

Record Contact := {
  pushname : option string;
  getFormattedNumber : outcome string
}.

Record Message := {
  id_serialized : string;
  from : string;
  body : string;
  timestamp : Z;
  hasMedia : bool;
  links : list Link;
  deviceType : string;
  getChat : outcome ChatInfo;
  getContact : outcome Contact;
  downloadMedia : outcome MessageMedia;
  reply : ReplyContent -> unawaited unit
}.

Record Chat := {
  chat_id : string;
  unreadCount : Z;
  fetchMessages : outcome (list Message)
}.

Record ICreateUser := {
  name : string;
  phone : string;
  platform : string;
  country : string
}.

Record User := {
  user_id : string;
  user_name : string;
  user_phone : string;
  user_platform : string;
  user_country : string
}.

Record JobData := {
  job_url : string;
  job_downloadId : string;
  job_message : Message
}.

Record Artifact := { path : string }.

Record ReturnValue := {
  download : list Artifact;
  downloadId : string
}.

Record DownloadJob := {
  job_data : JobData;
  returnvalue : ReturnValue
}.

(** ** Calls issued to collaborators, in the order they are issued

    [EvSetUnreadChats] records an assignment to [this.unreadChats];
    [EvUnhandledRejection] records that a promise nobody awaits rejects. *)

Inductive Event :=
| EvGetChat (mid : string)
| EvGetContact (mid : string)
| EvGetFormattedNumber (mid : string)
| EvUpsertUser (p : ICreateUser)
| EvIdentifyUser (uid : string) (p : ICreateUser)
| EvTrackEvent (event subject event_type : string)
| EvDownloadMedia (mid : string)
| EvStickerCreate (uid : string) (ts : Z) (text : string)
| EvReply (target : Message) (c : ReplyContent)
| EvIsRatedLimited (key : string)
| EvDownloadCreate (url : string) (st : DownloadStatus) (owner : string) (ts : Z)
| EvAddJob (key : string) (d : JobData)
| EvFromFilePath (p : string)
| EvGetMessageById (mid : string)
| EvRemoveFile (p : string)
| EvUpdateStatus (did : string) (st : DownloadStatus)
| EvCreateError (msg : string) (did : string)
| EvTelegramSend (text : string)
| EvTelegramDelete (ref : Z)
| EvGetChats
| EvFetchMessages (cid : string)
| EvSetUnreadChats (n : Z)
| EvUnhandledRejection (e : string).

(** ** Event emitters *)

Inductive EventName :=
| authenticated | auth_failure | disconnected | ready | qr | message | call
| DownloadCompleted | DownloadFailed | broadcast_requested.

Record Listener := { l_event : EventName; l_once : bool }.

Inductive Task := UnreadPass | UnreadPassIfAuthenticated.

(** ** The state *)

Record World := {
  trace : list Event;
  console : list string;
  users : gmap string User;
  isAuthenticated : bool;
  unreadChats : Z;
  QrCodeMessageId : option Z;
  listeners : list Listener;
  started : list Task;
  intervals : list (Z * Task)
}.

Definition set_trace (f : list Event -> list Event) (w : World) : World :=
  {| trace := f (trace w); console := console w; users := users w;
     isAuthenticated := isAuthenticated w; unreadChats := unreadChats w;
     QrCodeMessageId := QrCodeMessageId w; listeners := listeners w;
     started := started w; intervals := intervals w |}.

Definition set_console (f : list string -> list string) (w : World) : World :=
  {| trace := trace w; console := f (console w); users := users w;
     isAuthenticated := isAuthenticated w; unreadChats := unreadChats w;
     QrCodeMessageId := QrCodeMessageId w; listeners := listeners w;
     started := started w; intervals := intervals w |}.

Definition set_users (f : gmap string User -> gmap string User) (w : World) : World :=
  {| trace := trace w; console := console w; users := f (users w);
     isAuthenticated := isAuthenticated w; unreadChats := unreadChats w;
     QrCodeMessageId := QrCodeMessageId w; listeners := listeners w;
     started := started w; intervals := intervals w |}.

Definition set_isAuthenticated (b : bool) (w : World) : World :=
  {| trace := trace w; console := console w; users := users w;
     isAuthenticated := b; unreadChats := unreadChats w;
     QrCodeMessageId := QrCodeMessageId w; listeners := listeners w;
     started := started w; intervals := intervals w |}.

Definition set_unreadChats (n : Z) (w : World) : World :=
  {| trace := trace w; console := console w; users := users w;
     isAuthenticated := isAuthenticated w; unreadChats := n;
     QrCodeMessageId := QrCodeMessageId w; listeners := listeners w;
     started := started w; intervals := intervals w |}.

Definition set_QrCodeMessageId (q : option Z) (w : World) : World :=
  {| trace := trace w; console := console w; users := users w;
     isAuthenticated := isAuthenticated w; unreadChats := unreadChats w;
     QrCodeMessageId := q; listeners := listeners w;
     started := started w; intervals := intervals w |}.

Definition set_listeners (f : list Listener -> list Listener) (w : World) : World :=
  {| trace := trace w; console := console w; users := users w;
     isAuthenticated := isAuthenticated w; unreadChats := unreadChats w;
     QrCodeMessageId := QrCodeMessageId w; listeners := f (listeners w);
     started := started w; intervals := intervals w |}.

Definition set_started (f : list Task -> list Task) (w : World) : World :=
  {| trace := trace w; console := console w; users := users w;
     isAuthenticated := isAuthenticated w; unreadChats := unreadChats w;
     QrCodeMessageId := QrCodeMessageId w; listeners := listeners w;
     started := f (started w); intervals := intervals w |}.

Definition set_intervals (f : list (Z * Task) -> list (Z * Task)) (w : World) : World :=
  {| trace := trace w; console := console w; users := users w;
     isAuthenticated := isAuthenticated w; unreadChats := unreadChats w;
     QrCodeMessageId := QrCodeMessageId w; listeners := listeners w;
     started := started w; intervals := f (intervals w) |}.

(** ** The handler monad *)

Definition M (A : Type) : Type := World -> outcome A * World.

Definition ret {A} (a : A) : M A := fun w => (Returns a, w).

Definition throw {A} (e : string) : M A := fun w => (Throws e, w).

Definition bind {A B} (m : M A) (k : A -> M B) : M B :=
  fun w =>
    match m w with
    | (Returns a, w') => k a w'
    | (Throws e, w') => (Throws e, w')
    end.

(** [try { m } catch (e) { h e }] *)
Definition try_catch {A} (m : M A) (h : string -> M A) : M A :=
  fun w =>
    match m w with
    | (Returns a, w') => (Returns a, w')
    | (Throws e, w') => h e w'
    end.

Declare Scope js_scope.
Delimit Scope js_scope with js.
Notation "x <- m ;; k" := (bind m (fun x => k))
  (at level 100, m at next level, right associativity) : js_scope.
Notation "m ;;; k" := (bind m (fun _ => k))
  (at level 100, right associativity) : js_scope.
Open Scope js_scope.

(** Issue a call and wait for it ([await f(...)], or a synchronous call): it
    is recorded, then it returns or throws. *)
Definition invoke {A} (ev : Event) (o : outcome A) : M A :=
  fun w => (o, set_trace (fun t => t ++ [ev]) w).

(** The events of a call that is not awaited: the call, and the rejection of
    its promise if it rejects. *)
Definition fire_events {A} (ev : Event) (s : unawaited A) : list Event :=
  match s with
  | Dropped (Throws e) => [ev; EvUnhandledRejection e]
  | _ => [ev]
  end.

(** Issue a call without waiting for it ([f(...)] where [f] is asynchronous). *)
Definition fire {A} (ev : Event) (s : unawaited A) : M unit :=
  fun w =>
    (match s with Threw e => Throws e | Dropped _ => Returns tt end,
     set_trace (fun t => t ++ fire_events ev s) w).

Definition console_log (line : string) : M unit :=
  fun w => (Returns tt, set_console (fun c => c ++ [line]) w).

Definition modify (f : World -> World) : M unit :=
  fun w => (Returns tt, f w).

Definition gets {A} (f : World -> A) : M A :=
  fun w => (Returns (f w), w).

Definition when (b : bool) (m : M unit) : M unit :=
  if b then m else ret tt.

(** Evaluate an expression that may throw (no call is recorded). *)
Definition eval {A} (o : outcome A) : M A :=
  fun w => (o, w).

(** Call an [async] function of this class without awaiting it: the caller
    goes on, and an exception that leaves the function is the rejection of a
    promise nobody handles. *)
Definition not_awaited {A} (m : M A) : M unit :=
  fun w =>
    match m w with
    | (Returns _, w') => (Returns tt, w')
    | (Throws e, w') => (Returns tt, set_trace (fun t => t ++ [EvUnhandledRejection e]) w')
    end.

(** ** Collaborators

    What the services this class holds do when they are called.  Their code is
    outside [services/WhatsApp.ts]; every theorem below is for all of them.
    A method that the class calls with [await] has an [outcome], one that it
    calls without has an [unawaited] result. *)

Record Env := {
  (* Prisma, reached through the repositories *)
  prisma_user_upsert : ICreateUser -> outcome string;
  stickers_create : unawaited unit;
  downloads_create : outcome string;
  downloads_updateStatusById : outcome unit;
  errors_createError : unawaited unit;
  (* AnalyticsService *)
  identifyUser : unawaited unit;
  trackEvent : string -> unawaited unit;
  JSON_stringify : Message -> outcome string;
  (* RateLimiterService *)
  isRatedLimited : string -> outcome bool;
  (* QueueService *)
  addJobToDownloaderQueue : unawaited unit;
  (* whatsapp-web.js client *)
  getMessageById : string -> outcome Message;
  getChats : outcome (list Chat);
  (* MessageMedia and FileService *)
  fromFilePath : string -> outcome MessageMedia;
  removeFile : string -> outcome unit;
  (* TelegramService *)
  telegram_sendMessage : string -> unawaited unit;
  telegram_deleteMessage : Z -> unawaited unit;
  (* ConfigService *)
  qrCodePath : string
}.

(** The [error] a [failed] event carries. *)
Record QueueError := { toString : outcome string }.

Definition nl : string := String "010"%char EmptyString.

Definition rate_limit_notice : string :=
  "To save our resources, Please wait a moment before sending another request. R409".

Definition apology : string :=
  "Believe me, I tried my best to download this file, but I couldn't. 🫠😔 "
  +:+ nl +:+ nl +:+ "Please try again later".

Definition is_sticker_mimetype (mt : string) : bool :=
  String.eqb mt "image/jpeg" || String.eqb mt "image/png".

Definition event_eqb (a b : EventName) : bool :=
  match a, b with
  | authenticated, authenticated | auth_failure, auth_failure
  | disconnected, disconnected | ready, ready | qr, qr | message, message
  | call, call | DownloadCompleted, DownloadCompleted
  | DownloadFailed, DownloadFailed
  | broadcast_requested, broadcast_requested => true
  | _, _ => false
  end.

Definition listener_eqb (a b : Listener) : bool :=
  event_eqb (l_event a) (l_event b) && Bool.eqb (l_once a) (l_once b).

Fixpoint remove_first (l : Listener) (ls : list Listener) : list Listener :=
  match ls with
  | [] => []
  | x :: rest => if listener_eqb x l then rest else x :: remove_first l rest
  end.

Section WhatsApp.

Variable env : Env.

(** *** [services/Database/Users.ts] *)

(** Lines 22-28.
    [prisma.user.upsert({ where: { phone }, update: userData, create: userData })]:
    the row with that phone takes the fields of [userData] and keeps its id; if
    there is none, a row is created from [userData] with a generated id. *)
Definition createOrUpdateUser (userData : ICreateUser) : M User :=
  generated <- invoke (EvUpsertUser userData) (prisma_user_upsert env userData) ;;
  existing <- gets (fun w => users w !! phone userData) ;;
  let row := {| user_id := match existing with
                           | Some u => user_id u
                           | None => generated
                           end;
                user_name := name userData;
                user_phone := phone userData;
                user_platform := platform userData;
                user_country := country userData |} in
  modify (set_users (fun t => <[phone userData := row]> t)) ;;;
  ret row.

(** *** [setupMessageHandler]: the listener for [message] (lines 153-247) *)

(** The body of [if (hasMedia)], lines 187-202.  [stickers.create] and
    [message.reply] are not awaited. *)
Definition makeSticker (message : Message) (user : User) : M unit :=
  media <- invoke (EvDownloadMedia (id_serialized message)) (downloadMedia message) ;;
  when (is_sticker_mimetype (mimetype media))
    (fire (EvStickerCreate (user_id user) (timestamp message) (body message))
          (stickers_create env) ;;;
     let sticker := Sticker {| mimetype := mimetype media; data := data media |}
                            "wwz.gitnasr.com" "WhatsApp Wizard v3.0" in
     fire (EvReply message sticker) (reply message sticker) ;;;
     fire (EvTrackEvent "sticker_created" (user_id user) "")
          (trackEvent env "sticker_created")).

(** The body of [if (links.length > 0)], lines 204-242.  [message.reply] and
    [addJobToDownloaderQueue] are not awaited.  The key of the job is a
    template string; [timestamp] is an integer (seconds), which JavaScript
    prints in decimal, as [pretty] does. *)
Definition requestDownload (message : Message) (user : User) (userNumber : string)
  : M unit :=
  isRateLimited <- invoke (EvIsRatedLimited userNumber) (isRatedLimited env userNumber) ;;
  if (isRateLimited : bool) then
    fire (EvTrackEvent "rate_limited" (user_id user) "") (trackEvent env "rate_limited") ;;;
    fire (EvReply message (Text rate_limit_notice))
         (reply message (Text rate_limit_notice))
  else
    let urls := map link (links message) in
    (* [if (urls)]: an array is truthy; [urls[0]] exists, [links] is not empty *)
    match urls !! 0%nat with
    | None => ret tt
    | Some url =>
        DownloadInDatabase <-
          invoke (EvDownloadCreate url UNKNOWN (user_id user) (timestamp message))
                 (downloads_create env) ;;
        _ <- eval (JSON_stringify env message) ;;
        fire (EvTrackEvent "download_requested" (user_id user) "")
             (trackEvent env "download_requested") ;;;
        fire (EvAddJob (pretty (timestamp message) +:+ "-" +:+ userNumber)
                       {| job_url := url;
                          job_downloadId := DownloadInDatabase;
                          job_message := message |})
             (addJobToDownloaderQueue env)
    end.

(** The [try] block, lines 157-242. *)
Definition messageBody (message : Message) : M unit :=
  chatInfo <- invoke (EvGetChat (id_serialized message)) (getChat message) ;;
  if isGroup chatInfo || isReadOnly chatInfo then ret tt
  else
    contactInfo <- invoke (EvGetContact (id_serialized message)) (getContact message) ;;
    userNumber <- invoke (EvGetFormattedNumber (id_serialized message))
                         (getFormattedNumber contactInfo) ;;
    let countryCode := hd "" (split_space userNumber) in
    let userPayload := {| name := or_else (pushname contactInfo) userNumber;
                          phone := userNumber;
                          platform := deviceType message;
                          country := countryCode |} in
    user <- createOrUpdateUser userPayload ;;
    fire (EvIdentifyUser (user_id user) userPayload) (identifyUser env) ;;;
    _ <- eval (JSON_stringify env message) ;;
    fire (EvTrackEvent "message_received" (user_id user) "")
         (trackEvent env "message_received") ;;;
    when (hasMedia message) (makeSticker message user) ;;;
    when (0 <? Z.of_nat (length (links message)))
         (requestDownload message user userNumber).

(** The listener, lines 155-246: [console.log(error, "Error in message handler")]
    in the [catch]. *)
Definition messageHandler (message : Message) : M unit :=
  try_catch (messageBody message)
            (fun error => console_log (error +:+ " Error in message handler")).

(** *** [onQueueMessage]: the listeners for the queue's events (lines 248-311) *)

(** The [for] loop over [download], lines 256-278.  The reply is not awaited,
    the removal of the file is. *)
Fixpoint deliver (message : Message) (artifacts : list Artifact) : M unit :=
  match artifacts with
  | [] => ret tt
  | element :: rest =>
      media <- invoke (EvFromFilePath (path element)) (fromFilePath env (path element)) ;;
      userMessageOnWhatsApp <-
        invoke (EvGetMessageById (id_serialized message))
               (getMessageById env (id_serialized message)) ;;
      fire (EvReply userMessageOnWhatsApp (Media media))
           (reply userMessageOnWhatsApp (Media media)) ;;;
      invoke (EvRemoveFile (path element)) (removeFile env (path element)) ;;;
      fire (EvTrackEvent "download_response" (from message) "")
           (trackEvent env "download_response") ;;;
      deliver message rest
  end.

(** The listener for [DownloadEvents.DownloadCompleted], lines 251-291. *)
Definition onDownloadCompleted (job : DownloadJob) : M unit :=
  try_catch
    (deliver (job_message (job_data job)) (download (returnvalue job)) ;;;
     invoke (EvUpdateStatus (downloadId (returnvalue job)) SENT)
            (downloads_updateStatusById env))
    (fun error =>
       console_log ("Error in onQueueMessage: " +:+ error) ;;;
       fire (EvTrackEvent "error_onQueueMessage" "" "")
            (trackEvent env "error_onQueueMessage")).

(** The listener for [DownloadEvents.DownloadFailed], lines 296-309: the
    [catch] is empty.  Neither the reply nor [createError] is awaited. *)
Definition onDownloadFailed (job : DownloadJob) (error : QueueError) : M unit :=
  try_catch
    (let message := job_message (job_data job) in
     userMessageOnWhatsApp <-
       invoke (EvGetMessageById (id_serialized message))
              (getMessageById env (id_serialized message)) ;;
     fire (EvReply userMessageOnWhatsApp (Text apology))
          (reply userMessageOnWhatsApp (Text apology)) ;;;
     failure <- eval (toString error) ;;
     fire (EvCreateError failure (job_downloadId (job_data job)))
          (errors_createError env))
    (fun errorFromFunction => ret tt).

(** *** [getUnreadChats] (lines 335-367) *)

(** The [for] loop over the chats, lines 345-356, with the map and the count
    it updates. *)
Fixpoint collectUnread (chats : list Chat)
    (HashMapOfNumbersAndUnreadMessages : gmap string (list Message)) (count : Z)
  : M (gmap string (list Message) * Z) :=
  match chats with
  | [] => ret (HashMapOfNumbersAndUnreadMessages, count)
  | chat :: rest =>
      if 0 <? unreadCount chat then
        fetched <- invoke (EvFetchMessages (chat_id chat)) (fetchMessages chat) ;;
        let messages := slice0 (rev fetched) (unreadCount chat) in
        collectUnread rest
          (<[chat_id chat := messages]> HashMapOfNumbersAndUnreadMessages)
          (count + unreadCount chat)
      else collectUnread rest HashMapOfNumbersAndUnreadMessages count
  end.

(** [this.unreadChats = count], recorded in the trace as a write. *)
Definition write_unreadChats (count : Z) : M unit :=
  fun w => (Returns tt,
            set_trace (fun t => t ++ [EvSetUnreadChats count]) (set_unreadChats count w)).

(** Returns the index, or [None] ([undefined]) when the pass threw. *)
Definition getUnreadChats : M (option (gmap string (list Message))) :=
  try_catch
    (chats <- invoke EvGetChats (getChats env) ;;
     r <- collectUnread chats ∅ 0 ;;
     previous <- gets unreadChats ;;
     when (negb (snd r =? previous)) (write_unreadChats (snd r)) ;;;
     ret (Some (fst r)))
    (fun error =>
       console_log ("Error checking unread messages: " +:+ error) ;;;
       ret None).

(** *** Listeners and timers *)

Definition on (ev : EventName) : M unit :=
  modify (set_listeners (fun ls => ls ++ [{| l_event := ev; l_once := false |}])).

Definition once (ev : EventName) : M unit :=
  modify (set_listeners (fun ls => ls ++ [{| l_event := ev; l_once := true |}])).

(** The rest of [getUnreadChats] once the promise of
    [this.client.getChats()] has settled: lines 342-366 after the call. *)
Definition resumeUnreadChats : M (option (gmap string (list Message))) :=
  try_catch
    (chats <- eval (getChats env) ;;
     r <- collectUnread chats ∅ 0 ;;
     previous <- gets unreadChats ;;
     when (negb (snd r =? previous)) (write_unreadChats (snd r)) ;;;
     ret (Some (fst r)))
    (fun error =>
       console_log ("Error checking unread messages: " +:+ error) ;;;
       ret None).

(** [getUnreadChats] is [async] and is called without [await]: it runs up to
    its first [await], that is, it calls [this.client.getChats()]; the rest of
    the pass is recorded as started, and [runTask] runs it when the event loop
    gets to it.  The callback given to [setInterval] is recorded with its
    interval, and runs when the timer fires. *)
Definition start (t : Task) : M unit :=
  match t with
  | UnreadPass => modify (set_trace (fun calls => calls ++ [EvGetChats]))
  | UnreadPassIfAuthenticated => ret tt
  end ;;;
  modify (set_started (fun ts => ts ++ [t])).

Definition setInterval (t : Task) (ms : Z) : M unit :=
  modify (set_intervals (fun ts => ts ++ [(ms, t)])).

Definition runTask (t : Task) : M unit :=
  match t with
  | UnreadPass => not_awaited resumeUnreadChats
  | UnreadPassIfAuthenticated =>
      authenticated <- gets isAuthenticated ;;
      when authenticated (not_awaited getUnreadChats)
  end.

Definition setupMessageHandler : M unit := on message.

Definition registerBlockOnCalls : M unit := on call.

Definition onQueueMessage : M unit :=
  on DownloadCompleted ;;; on DownloadFailed.

Definition onTelegramMessage : M unit := on broadcast_requested.

(** Lines 369-378. *)
Definition RegisterMessageCheck : M unit :=
  onQueueMessage ;;;
  onTelegramMessage ;;;
  start UnreadPass ;;;
  setInterval UnreadPassIfAuthenticated 15000.

(** Lines 387-389. *)
Definition clearQRCodes : M unit :=
  invoke (EvRemoveFile (qrCodePath env)) (removeFile env (qrCodePath env)).

(** The listener for [ready], lines 92-115.  [QrCodeMessageId] is a field of
    the Telegram service; [clearQRCodes] is [async] and not awaited. *)
Definition readyCallback : M unit :=
  modify (set_isAuthenticated true) ;;;
  fire (EvTelegramSend "WhatsApp client is ready!")
       (telegram_sendMessage env "WhatsApp client is ready!") ;;;
  fire (EvTrackEvent "system_event" "system" "whatsapp_ready")
       (trackEvent env "system_event") ;;;
  prompt <- gets QrCodeMessageId ;;
  match prompt with
  | Some ref =>
      when (truthy prompt)
        (fire (EvTelegramDelete ref) (telegram_deleteMessage env ref) ;;;
         modify (set_QrCodeMessageId None) ;;;
         not_awaited clearQRCodes ;;;
         fire (EvTrackEvent "system_event" "system" "qrcode_authentication_completed")
              (trackEvent env "system_event"))
  | None => ret tt
  end ;;;
  setupMessageHandler ;;;
  RegisterMessageCheck ;;;
  registerBlockOnCalls.

(** The listeners for [authenticated], [auth_failure] and [disconnected],
    lines 61-90. *)
Definition authenticatedCallback : M unit :=
  modify (set_isAuthenticated true) ;;;
  fire (EvTrackEvent "system_event" "system" "whatsapp_authenticated")
       (trackEvent env "system_event") ;;;
  fire (EvTelegramSend "WhatsApp is authenticated and ready to go!")
       (telegram_sendMessage env "WhatsApp is authenticated and ready to go!").

Definition authFailureCallback : M unit :=
  modify (set_isAuthenticated false) ;;;
  fire (EvTrackEvent "system_event" "system" "whatsapp_authenticated_failure")
       (trackEvent env "system_event") ;;;
  fire (EvTelegramSend "WhatsApp authentication failed. Please re-scan the QR code.")
       (telegram_sendMessage env
          "WhatsApp authentication failed. Please re-scan the QR code.").

Definition disconnectedCallback (reason : string) : M unit :=
  console_log ("Client was disconnected " +:+ reason) ;;;
  modify (set_isAuthenticated false) ;;;
  fire (EvTrackEvent "system_event" "system" "whatsapp_disconnected")
       (trackEvent env "system_event") ;;;
  fire (EvTelegramSend "WhatsApp client was disconnected. Please re-scan the QR code.")
       (telegram_sendMessage env
          "WhatsApp client was disconnected. Please re-scan the QR code.").

(** [setupWhatsAppEventHandlers], lines 60-131: the listeners are added in
    this order, the one for [ready] with [client.once]. *)
Definition setupWhatsAppEventHandlers : M unit :=
  on authenticated ;;;
  on auth_failure ;;;
  on disconnected ;;;
  once ready ;;;
  on qr.

(** [emitter.emit(ev, ...)]: the listeners that were registered for [ev] when
    the event fires are called in order; a [once] listener is removed just
    before it is called; a listener that throws ends the emit. *)
Fixpoint callListeners (ls : list Listener) (callback : M unit) : M unit :=
  match ls with
  | [] => ret tt
  | l :: rest =>
      when (l_once l) (modify (set_listeners (remove_first l))) ;;;
      callback ;;;
      callListeners rest callback
  end.

Definition emit (ev : EventName) (callback : M unit) : M unit :=
  ls <- gets (fun w => filter (fun l => Is_true (event_eqb (l_event l) ev)) (listeners w)) ;;
  callListeners ls callback.

(** The client signals [ready]. *)
Definition emit_ready : M unit := emit ready readyCallback.

(** The client delivers an inbound message.  The listener is [async]: the
    emitter calls it and drops its promise. *)
Definition emit_message (m : Message) : M unit :=
  emit message (not_awaited (messageHandler m)).

(** Messages delivered one after the other. *)
Fixpoint emit_messages (ms : list Message) : M unit :=
  match ms with
  | [] => ret tt
  | m :: rest => emit_message m ;;; emit_messages rest
  end.

End WhatsApp.

(** ** Vocabulary of the properties *)

(** The events a run added to the trace. *)
Definition emitted (evs : list Event) (w : World) : World :=
  set_trace (fun t => t ++ evs) w.

Definition has_unread (c : Chat) : bool := 0 <? unreadCount c.

Definition unread_chats (chats : list Chat) : list Chat :=
  filter (fun c => Is_true (has_unread c)) chats.

Definition sum_unread (chats : list Chat) : Z :=
  foldr Z.add 0 (unreadCount <$> unread_chats chats).

Definition fetch_events (chats : list Chat) : list Event :=
  (fun c => EvFetchMessages (chat_id c)) <$> unread_chats chats.

(** The last [n] elements of a list, in the order of the list. *)
Definition last_n {A} (n : nat) (l : list A) : list A :=
  skipn (length l - n) l.

(** Oldest first. *)
Fixpoint chronological (l : list Message) : bool :=
  match l with
  | [] => true
  | m :: rest =>
      match rest with
      | [] => true
      | m' :: _ => (timestamp m <=? timestamp m') && chronological rest
      end
  end.

Definition newest_first (l : list Message) : bool := chronological (rev l).

Definition is_set_unreadChats (ev : Event) : bool :=
  match ev with EvSetUnreadChats _ => true | _ => false end.

Definition is_reply (ev : Event) : bool :=
  match ev with EvReply _ _ => true | _ => false end.

Definition is_create_error (ev : Event) : bool :=
  match ev with EvCreateError _ _ => true | _ => false end.

Definition is_download_create (ev : Event) : bool :=
  match ev with EvDownloadCreate _ _ _ _ => true | _ => false end.

Definition is_add_job (ev : Event) : bool :=
  match ev with EvAddJob _ _ => true | _ => false end.

Definition is_remove_file (ev : Event) : bool :=
  match ev with EvRemoveFile _ => true | _ => false end.

Definition is_update_status (ev : Event) : bool :=
  match ev with EvUpdateStatus _ _ => true | _ => false end.

Definition is_sticker_create (ev : Event) : bool :=
  match ev with EvStickerCreate _ _ _ => true | _ => false end.

Definition is_sticker_reply (ev : Event) : bool :=
  match ev with EvReply _ (Sticker _ _ _) => true | _ => false end.

Definition is_sticker_event (ev : Event) : bool :=
  match ev with
  | EvTrackEvent name _ _ => String.eqb name "sticker_created"
  | _ => false
  end.

Definition is_telegram_delete (ev : Event) : bool :=
  match ev with EvTelegramDelete _ => true | _ => false end.

Definition is_telegram_send (ev : Event) : bool :=
  match ev with EvTelegramSend _ => true | _ => false end.

Definition is_get_chat (ev : Event) : bool :=
  match ev with EvGetChat _ => true | _ => false end.

(** The events of a list that satisfy a test, in order. *)
Definition only (p : Event -> bool) (evs : list Event) : list Event :=
  List.filter p evs.

(** The events a run from [w] added, given the world it ended in. *)
Definition added (w w' : World) : list Event :=
  skipn (length (trace w)) (trace w').

(** The payload the handler builds for the sender. *)
Definition userPayload_of (m : Message) (ct : Contact) (userNumber : string) : ICreateUser :=
  {| name := or_else (pushname ct) userNumber;
     phone := userNumber;
     platform := deviceType m;
     country := hd "" (split_space userNumber) |}.

(** The row the upsert leaves for that payload in a table [t]. *)
Definition row_of (t : gmap string User) (p : ICreateUser) (generated : string) : User :=
  {| user_id := match t !! phone p with Some u => user_id u | None => generated end;
     user_name := name p; user_phone := phone p;
     user_platform := platform p; user_country := country p |}.

(** The handler gets as far as a resolved user: the chat is a private one, the
    contact and its number are obtained and the upsert returns. *)
Definition resolves (env : Env) (m : Message) (ct : Contact) (userNumber generated : string)
  : Prop :=
  (exists ci, getChat m = Returns ci /\ isGroup ci = false /\ isReadOnly ci = false)
  /\ getContact m = Returns ct
  /\ getFormattedNumber ct = Returns userNumber
  /\ prisma_user_upsert env (userPayload_of m ct userNumber) = Returns generated.

(** The telemetry for a received message goes through. *)
Definition telemetry_returns (env : Env) (m : Message) : Prop :=
  identifyUser env = fulfilled
  /\ (exists json, JSON_stringify env m = Returns json)
  /\ trackEvent env "message_received" = fulfilled.

(** The calls up to and including the upsert. *)
Definition resolution_events (m : Message) (ct : Contact) (userNumber : string) : list Event :=
  [EvGetChat (id_serialized m); EvGetContact (id_serialized m);
   EvGetFormattedNumber (id_serialized m);
   EvUpsertUser (userPayload_of m ct userNumber)].

Definition telemetry_events (m : Message) (ct : Contact) (userNumber : string) (user : User)
  : list Event :=
  [EvIdentifyUser (user_id user) (userPayload_of m ct userNumber);
   EvTrackEvent "message_received" (user_id user) ""].

(** The rest of the [try] block once the user is resolved, lines 175-242
    ([messageBody_resolved] shows that [messageBody] goes on with it). *)
Definition afterUpsert (env : Env) (m : Message) (ct : Contact) (userNumber : string)
    (user : User) : M unit :=
  fire (EvIdentifyUser (user_id user) (userPayload_of m ct userNumber))
       (identifyUser env) ;;;
  _ <- eval (JSON_stringify env m) ;;
  fire (EvTrackEvent "message_received" (user_id user) "")
       (trackEvent env "message_received") ;;;
  when (hasMedia m) (makeSticker env m user) ;;;
  when (0 <? Z.of_nat (length (links m))) (requestDownload env m user userNumber).

Definition sticker_of (media : MessageMedia) : ReplyContent :=
  Sticker {| mimetype := mimetype media; data := data media |}
          "wwz.gitnasr.com" "WhatsApp Wizard v3.0".

(** The sticker step, when the message has media, goes through. *)
Definition sticker_step_returns (env : Env) (m : Message) : bool :=
  negb (hasMedia m)
  || match downloadMedia m with
     | Returns media =>
         negb (is_sticker_mimetype (mimetype media))
         || (fulfils (stickers_create env)
             && fulfils (reply m (sticker_of media))
             && fulfils (trackEvent env "sticker_created"))
     | Throws _ => false
     end.

(** The calls of the sticker step. *)
Definition sticker_events (m : Message) (user : User) : list Event :=
  if hasMedia m then
    EvDownloadMedia (id_serialized m)
    :: match downloadMedia m with
       | Returns media =>
           if is_sticker_mimetype (mimetype media) then
             [EvStickerCreate (user_id user) (timestamp m) (body m);
              EvReply m (sticker_of media);
              EvTrackEvent "sticker_created" (user_id user) ""]
           else []
       | Throws _ => []
       end
  else [].

(** A computation that changes nothing but the trace, and adds to it no event
    that satisfies [p]. *)
Definition never (p : Event -> bool) {A} (m : M A) : Prop :=
  forall w, exists evs, snd (m w) = emitted evs w /\ only p evs = [].

(** The media read from an artifact's file. *)
Definition loaded (env : Env) (a : Artifact) : MessageMedia :=
  match fromFilePath env (path a) with
  | Returns media => media
  | Throws _ => {| mimetype := ""; data := "" |}
  end.

(** Delivering one artifact goes through: the file is read, the reply to the
    re-resolved message [h] is sent and the file is removed. *)
Definition artifact_delivers (env : Env) (h : Message) (a : Artifact) : bool :=
  returns (fromFilePath env (path a))
  && fulfils (reply h (Media (loaded env a)))
  && returns (removeFile env (path a)).

(** The calls that deliver one artifact of a job for [message]. *)
Definition delivery_events (env : Env) (message h : Message) (a : Artifact) : list Event :=
  [EvFromFilePath (path a);
   EvGetMessageById (id_serialized message);
   EvReply h (Media (loaded env a));
   EvRemoveFile (path a);
   EvTrackEvent "download_response" (from message) ""].

Definition is_get_message (ev : Event) : bool :=
  match ev with EvGetMessageById _ => true | _ => false end.

Definition is_unhandled (ev : Event) : bool :=
  match ev with EvUnhandledRejection _ => true | _ => false end.

(** None of the calls that a handler run for [m] does not await hands back a
    promise that rejects. *)
Definition no_dropped_rejection (env : Env) (m : Message) : Prop :=
  rejects (identifyUser env) = false
  /\ (forall event, rejects (trackEvent env event) = false)
  /\ rejects (stickers_create env) = false
  /\ (forall content, rejects (reply m content) = false)
  /\ rejects (addJobToDownloaderQueue env) = false.

(** A listener for [ready]. *)
Definition on_ready (l : Listener) : Prop := Is_true (event_eqb (l_event l) ready).

(** ** Sample inputs *)

(** The instance as the constructor leaves it. *)
Definition new_WhatsApp : World :=
  {| trace := []; console := []; users := ∅; isAuthenticated := false;
     unreadChats := 0; QrCodeMessageId := None; listeners := [];
     started := []; intervals := [] |}.

Definition private_chat : ChatInfo := {| isGroup := false; isReadOnly := false |}.

Definition ada : Contact :=
  {| pushname := Some "Ada"; getFormattedNumber := Returns "+20 100 000 0000" |}.

(** A text message from a private chat whose calls all succeed. *)
Definition text_message (id : string) (ts : Z) (ls : list Link) : Message :=
  {| id_serialized := id; from := "201000000000@c.us"; body := "hello";
     timestamp := ts; hasMedia := false; links := ls; deviceType := "android";
     getChat := Returns private_chat; getContact := Returns ada;
     downloadMedia := Throws "no media"; reply := fun _ => fulfilled |}.

(** The same with an attachment of the given mimetype. *)
Definition media_message (id : string) (ts : Z) (mt : string) : Message :=
  {| id_serialized := id; from := "201000000000@c.us"; body := "";
     timestamp := ts; hasMedia := true; links := []; deviceType := "android";
     getChat := Returns private_chat; getContact := Returns ada;
     downloadMedia := Returns {| mimetype := mt; data := "AAAA" |};
     reply := fun _ => fulfilled |}.

(** An image whose sticker reply is called and then fails to be sent. *)
Definition undeliverable_image (id : string) : Message :=
  {| id_serialized := id; from := "201000000000@c.us"; body := "";
     timestamp := 7; hasMedia := true; links := []; deviceType := "android";
     getChat := Returns private_chat; getContact := Returns ada;
     downloadMedia := Returns {| mimetype := "image/png"; data := "AAAA" |};
     reply := fun _ => Dropped (Throws "Evaluation failed") |}.

(** What [getMessageById] hands back when the client no longer has the
    message: calling [reply] on it throws. *)
Definition unanswerable (id : string) : Message :=
  {| id_serialized := id; from := "201000000000@c.us"; body := "hello";
     timestamp := 7; hasMedia := false; links := []; deviceType := "android";
     getChat := Returns private_chat; getContact := Returns ada;
     downloadMedia := Throws "no media";
     reply := fun _ => Threw "Cannot read properties of undefined" |}.

(** Collaborators whose calls go through, but for the queue and the lookup of
    messages: the rate limiter answers [limited], submitting a job does
    [queue], the client holds [chats] and resolves message ids with [lookup]. *)
Definition collaborators (limited : bool) (queue : unawaited unit) (chats : list Chat)
    (lookup : string -> outcome Message) : Env :=
  {| prisma_user_upsert := fun _ => Returns "user-1";
     stickers_create := fulfilled;
     downloads_create := Returns "download-1";
     downloads_updateStatusById := Returns tt;
     errors_createError := fulfilled;
     identifyUser := fulfilled;
     trackEvent := fun _ => fulfilled;
     JSON_stringify := fun _ => Returns "{}";
     isRatedLimited := fun _ => Returns limited;
     addJobToDownloaderQueue := queue;
     getMessageById := lookup;
     getChats := Returns chats;
     fromFilePath := fun _ => Returns {| mimetype := "video/mp4"; data := "AAAA" |};
     removeFile := fun _ => Returns tt;
     telegram_sendMessage := fun _ => fulfilled;
     telegram_deleteMessage := fun _ => fulfilled;
     qrCodePath := "public/qr.png" |}.

(** Nobody is rate limited and the client knows every message. *)
Definition healthy (chats : list Chat) : Env :=
  collaborators false fulfilled chats (fun id => Returns (text_message id 7 [])).

Definition one_link : list Link :=
  [{| link := "https://example.com/video"; isSuspicious := false |}].

(** A job for a message with one link, finished with two files. *)
Definition sample_job : DownloadJob :=
  {| job_data := {| job_url := "https://example.com/video";
                    job_downloadId := "download-1";
                    job_message := text_message "m1" 7 one_link |};
     returnvalue := {| download := [{| path := "/tmp/a.mp4" |}; {| path := "/tmp/b.mp4" |}];
                       downloadId := "download-1" |} |}.

Definition sample_error : QueueError := {| toString := Returns "Error: 404" |}.

(** A new instance with a QR prompt on display in Telegram. *)
Definition awaiting_scan : World :=
  {| trace := []; console := []; users := ∅; isAuthenticated := false;
     unreadChats := 0; QrCodeMessageId := Some 42; listeners := [];
     started := []; intervals := [] |}.

(** An instance with its listener for [message] registered. *)
Definition listening : World :=
  {| trace := []; console := []; users := ∅; isAuthenticated := true;
     unreadChats := 0; QrCodeMessageId := None;
     listeners := [{| l_event := message; l_once := false |}];
     started := []; intervals := [] |}.

(** A message from a group chat, and one whose chat cannot be fetched. *)
Definition group_message (id : string) : Message :=
  {| id_serialized := id; from := "1203630@g.us"; body := "hello";
     timestamp := 7; hasMedia := false; links := one_link; deviceType := "android";
     getChat := Returns {| isGroup := true; isReadOnly := false |};
     getContact := Returns ada;
     downloadMedia := Throws "no media"; reply := fun _ => fulfilled |}.

Definition broken_message (id : string) : Message :=
  {| id_serialized := id; from := "201000000000@c.us"; body := "hello";
     timestamp := 7; hasMedia := false; links := one_link; deviceType := "android";
     getChat := Throws "Evaluation failed"; getContact := Returns ada;
     downloadMedia := Throws "no media"; reply := fun _ => fulfilled |}.

Definition three_messages : list Message :=
  [text_message "m1" 1 []; text_message "m2" 2 []; text_message "m3" 3 []].

Definition chat_with (id : string) (n : Z) (history : list Message) : Chat :=
  {| chat_id := id; unreadCount := n; fetchMessages := Returns history |}.

(** Unread counts 0, 3 and 5. *)
Definition sample_chats : list Chat :=
  [chat_with "a@c.us" 0 three_messages;
   chat_with "b@c.us" 3 three_messages;
   chat_with "c@c.us" 5
     (three_messages ++ [text_message "m4" 4 []; text_message "m5" 5 []])].

(** Two links in one message. *)
Definition two_links : list Link :=
  one_link ++ [{| link := "https://example.com/second"; isSuspicious := false |}].

(** A message with a link and an attachment that cannot be downloaded. *)
Definition lost_media (id : string) : Message :=
  {| id_serialized := id; from := "201000000000@c.us"; body := "";
     timestamp := 7; hasMedia := true; links := one_link; deviceType := "android";
     getChat := Returns private_chat; getContact := Returns ada;
     downloadMedia := Throws "Media not found"; reply := fun _ => fulfilled |}.

(** Collaborators for which the file [gone] cannot be read. *)
Definition missing_file (gone : string) : Env :=
  {| prisma_user_upsert := fun _ => Returns "user-1";
     stickers_create := fulfilled;
     downloads_create := Returns "download-1";
     downloads_updateStatusById := Returns tt;
     errors_createError := fulfilled;
     identifyUser := fulfilled;
     trackEvent := fun _ => fulfilled;
     JSON_stringify := fun _ => Returns "{}";
     isRatedLimited := fun _ => Returns false;
     addJobToDownloaderQueue := fulfilled;
     getMessageById := fun id => Returns (text_message id 7 []);
     getChats := Returns [];
     fromFilePath := fun p => if String.eqb p gone then Throws "ENOENT"
                              else Returns {| mimetype := "video/mp4"; data := "AAAA" |};
     removeFile := fun _ => Returns tt;
     telegram_sendMessage := fun _ => fulfilled;
     telegram_deleteMessage := fun _ => fulfilled;
     qrCodePath := "public/qr.png" |}.

(** A chat whose history cannot be fetched. *)
Definition failing_chat (id : string) (n : Z) : Chat :=
  {| chat_id := id; unreadCount := n; fetchMessages := Throws "Evaluation failed" |}.

(** ** The rest of the class, and what its properties are stated with *)

(** [getClientStats], lines 380-385. *)
Definition getClientStats (w : World) : bool * Z :=
  (isAuthenticated w, unreadChats w).

(** The client signals [authenticated], [auth_failure] or [disconnected]:
    these listeners are registered with [client.on], lines 61-90. *)
Definition emit_authenticated (env : Env) : M unit :=
  emit authenticated (authenticatedCallback env).

Definition emit_auth_failure (env : Env) : M unit :=
  emit auth_failure (authFailureCallback env).

Definition emit_disconnected (env : Env) (reason : string) : M unit :=
  emit disconnected (disconnectedCallback env reason).

(** The timer fires: the callback given to [setInterval], lines 373-377. *)
Definition tick (env : Env) : M unit := runTask env UnreadPassIfAuthenticated.

(** The same signal, [n] times in a row. *)
Fixpoint repeatedly (n : nat) (m : M unit) : M unit :=
  match n with
  | O => ret tt
  | S n' => m ;;; repeatedly n' m
  end.

Definition is_rate_check (ev : Event) : bool :=
  match ev with EvIsRatedLimited _ => true | _ => false end.

(** The calls of the link path: the rate check, the record and the job. *)
Definition is_link_step (ev : Event) : bool :=
  is_rate_check ev || is_download_create ev || is_add_job ev.

Definition is_admission (ev : Event) : bool :=
  is_download_create ev || is_add_job ev.

Definition is_from_file (ev : Event) : bool :=
  match ev with EvFromFilePath _ => true | _ => false end.

Definition is_get_chats (ev : Event) : bool :=
  match ev with EvGetChats => true | _ => false end.

Definition is_identify (ev : Event) : bool :=
  match ev with EvIdentifyUser _ _ => true | _ => false end.

Definition is_error_event (ev : Event) : bool :=
  match ev with
  | EvTrackEvent name _ _ => String.eqb name "error_onQueueMessage"
  | _ => false
  end.

(** A listener for the event [ev]. *)
Definition listens (ev : EventName) (l : Listener) : Prop :=
  Is_true (event_eqb (l_event l) ev).

(** A projection of the instance that a computation leaves as it was. *)
Definition keeps {A X} (f : World -> X) (m : M A) : Prop :=
  forall w, f (snd (m w)) = f w.

(** What the listeners for messages and for the queue's events have no
    business with: the flags of [getClientStats], the QR prompt, the listeners
    and the timers. *)
Definition settings (w : World)
  : bool * Z * option Z * list Listener * list Task * list (Z * Task) :=
  (getClientStats w, QrCodeMessageId w, listeners w, started w, intervals w).

(** An unread pass fails with [e] after the calls [calls]: the chats cannot
    be listed, or the history of a chat with unread messages cannot be fetched
    (the chats before it were fetched). *)
Definition pass_fails (env : Env) (e : string) (calls : list Event) : Prop :=
  (getChats env = Throws e /\ calls = [EvGetChats])
  \/ (exists before c after,
        getChats env = Returns (before ++ c :: after)
        /\ Forall (fun c => has_unread c = true -> returns (fetchMessages c) = true) before
        /\ has_unread c = true
        /\ fetchMessages c = Throws e
        /\ calls = EvGetChats :: fetch_events before ++ [EvFetchMessages (chat_id c)]).

(** A fetch of the history of a chat with unread messages throws. *)
Definition some_fetch_throws (chats : list Chat) : bool :=
  existsb (fun c => has_unread c && negb (returns (fetchMessages c))) chats.

(** A call that is not awaited is accepted: the call expression does not
    throw.  Its promise may still reject. *)
Definition accepted {A} (s : unawaited A) : bool :=
  match s with Threw _ => false | Dropped _ => true end.

(** The telemetry for a received message is accepted. *)
Definition telemetry_accepted (env : Env) (m : Message) : Prop :=
  accepted (identifyUser env) = true
  /\ (exists json, JSON_stringify env m = Returns json)
  /\ accepted (trackEvent env "message_received") = true.

Definition telemetry_calls (env : Env) (m : Message) (ct : Contact) (userNumber : string)
    (user : User) : list Event :=
  fire_events (EvIdentifyUser (user_id user) (userPayload_of m ct userNumber))
    (identifyUser env)
  ++ fire_events (EvTrackEvent "message_received" (user_id user) "")
       (trackEvent env "message_received").

(** The sticker step lets the handler go on: the message has no media, or its
    media is downloaded and, for an image, the three sticker calls are
    accepted. *)
Definition sticker_step_passes (env : Env) (m : Message) : bool :=
  negb (hasMedia m)
  || match downloadMedia m with
     | Returns media =>
         negb (is_sticker_mimetype (mimetype media))
         || (accepted (stickers_create env)
             && accepted (reply m (sticker_of media))
             && accepted (trackEvent env "sticker_created"))
     | Throws _ => false
     end.

Definition sticker_calls (env : Env) (m : Message) (user : User) : list Event :=
  if hasMedia m then
    EvDownloadMedia (id_serialized m)
    :: match downloadMedia m with
       | Returns media =>
           if is_sticker_mimetype (mimetype media) then
             fire_events (EvStickerCreate (user_id user) (timestamp m) (body m))
               (stickers_create env)
             ++ fire_events (EvReply m (sticker_of media)) (reply m (sticker_of media))
             ++ fire_events (EvTrackEvent "sticker_created" (user_id user) "")
                  (trackEvent env "sticker_created")
           else []
       | Throws _ => []
       end
  else [].

(** The calls of the link path for the link [l], in their order. *)
Definition link_calls (m : Message) (userNumber userId did : string) (l : Link)
  : list Event :=
  [EvIsRatedLimited userNumber;
   EvDownloadCreate (link l) UNKNOWN userId (timestamp m);
   EvAddJob (pretty (timestamp m) +:+ "-" +:+ userNumber)
            {| job_url := link l; job_downloadId := did; job_message := m |}].

(** The handler gets as far as the link step, the sender is not limited, the
    download record is created with the id [did] and the telemetry call that
    follows is accepted. *)
Definition admitted (env : Env) (m : Message) (ct : Contact)
    (userNumber generated did : string) : Prop :=
  resolves env m ct userNumber generated
  /\ telemetry_accepted env m
  /\ sticker_step_passes env m = true
  /\ isRatedLimited env userNumber = Returns false
  /\ downloads_create env = Returns did
  /\ accepted (trackEvent env "download_requested") = true.

(** A computation whose calls satisfying [p] are an initial part of
    [expected], whatever it does. *)
Definition within {A} (p : Event -> bool) (expected : list Event) (m : M A) : Prop :=
  forall w, exists evs, snd (m w) = emitted evs w /\ only p evs `prefix_of` expected.

(** One artifact is handed over: the file is read, the reply call is accepted
    and the file is removed.  Whether the reply is then sent is not waited
    for. *)
Definition artifact_accepted (env : Env) (h : Message) (a : Artifact) : bool :=
  returns (fromFilePath env (path a))
  && accepted (reply h (Media (loaded env a)))
  && returns (removeFile env (path a)).

Definition delivery_calls (env : Env) (message h : Message) (a : Artifact) : list Event :=
  [EvFromFilePath (path a); EvGetMessageById (id_serialized message)]
  ++ fire_events (EvReply h (Media (loaded env a))) (reply h (Media (loaded env a)))
  ++ [EvRemoveFile (path a)]
  ++ fire_events (EvTrackEvent "download_response" (from message) "")
       (trackEvent env "download_response").

Definition is_text_reply (ev : Event) : bool :=
  match ev with EvReply _ (Text _) => true | _ => false end.

(** Collaborators for which every sender is rate limited. *)
Definition strict : Env :=
  collaborators true fulfilled [] (fun id => Returns (text_message id 7 [])).

(** Collaborators for which the client resolves every message id to a message
    whose replies are called and then fail to be sent. *)
Definition muted : Env :=
  collaborators false fulfilled [] (fun id => Returns (undeliverable_image id)).

(** ** The listeners for [qr], [call] and [broadcast-requested], and
       [initialize]

    These call collaborators that the handlers above have no use for.  Their
    calls are recorded in a journal, in which a call of the handlers above
    appears as [Earlier]. *)

Inductive Call : Type :=
| Earlier (ev : Event)
| CallImageSync (qr : string)
| CallSaveFile (file : string) (content : string)
| CallUpdateQRCode (file : string) (ref : Z)
| CallSendQRcode (file : string)
| CallReject
| CallGetContactById (contactId : string)
| CallContactGetChat (contactId : string)
| CallSendMessage (chatId : string) (content : string)
| CallBlock (contactId : string)
| CallClientInitialize.

(** A call as the client hands it to the listener: [from] may be missing, and
    [reject] is asynchronous. *)
Record IncomingCall := {
  call_from : option string;
  call_reject : unawaited unit
}.

(** What the other collaborators do.  [QRCode.imageSync] and
    [FileService.saveFile]; [updateQRCode] and [sendQRcode] of the Telegram
    service, the latter handing back the id of the message it sent, if any;
    [client.initialize] and [client.getContactById]; [getChat] and [block] of
    a contact; [isGroup] and [sendMessage] of a chat. *)
Record Ports := {
  imageSync : string -> outcome string;
  saveFile : string -> string -> outcome unit;
  updateQRCode : string -> Z -> outcome unit;
  sendQRcode : string -> outcome (option Z);
  client_initialize : outcome unit;
  getContactById : string -> outcome Contact;
  contact_getChat : Contact -> outcome Chat;
  contact_block : Contact -> outcome unit;
  chat_isGroup : Chat -> bool;
  chat_sendMessage : Chat -> string -> outcome unit
}.

(** The instance together with the journal. *)
Record Site := {
  instance : World;
  journal : list Call
}.

Definition MX (A : Type) : Type := Site -> outcome A * Site.

Definition xret {A} (a : A) : MX A := fun s => (Returns a, s).

Definition xbind {A B} (m : MX A) (k : A -> MX B) : MX B :=
  fun s =>
    match m s with
    | (Returns a, s') => k a s'
    | (Throws e, s') => (Throws e, s')
    end.

Definition xtry {A} (m : MX A) (h : string -> MX A) : MX A :=
  fun s =>
    match m s with
    | (Returns a, s') => (Returns a, s')
    | (Throws e, s') => h e s'
    end.

Declare Scope site_scope.
Delimit Scope site_scope with site.
Notation "x <- m ;; k" := (xbind m (fun x => k))
  (at level 100, m at next level, right associativity) : site_scope.
Notation "m ;;; k" := (xbind m (fun _ => k))
  (at level 100, right associativity) : site_scope.

(** A computation of the handlers above: it runs on the instance, and the
    calls it adds to the trace go to the journal. *)
Definition lift {A} (m : M A) : MX A :=
  fun s =>
    let r := m (instance s) in
    (fst r, {| instance := snd r;
               journal := journal s ++ (Earlier <$> added (instance s) (snd r)) |}).

Definition log_calls (cs : list Call) (s : Site) : Site :=
  {| instance := instance s; journal := journal s ++ cs |}.

(** An awaited (or synchronous) call of one of the [Ports]. *)
Definition request {A} (c : Call) (o : outcome A) : MX A :=
  fun s => (o, log_calls [c] s).

(** The same without [await]. *)
Definition launch_calls {A} (c : Call) (r : unawaited A) : list Call :=
  match r with
  | Dropped (Throws e) => [c; Earlier (EvUnhandledRejection e)]
  | _ => [c]
  end.

Definition launch {A} (c : Call) (r : unawaited A) : MX unit :=
  fun s =>
    (match r with Threw e => Throws e | Dropped _ => Returns tt end,
     log_calls (launch_calls c r) s).

(** An [async] listener called by an emitter, which drops its promise. *)
Definition dropped {A} (m : MX A) : MX unit :=
  fun s =>
    match m s with
    | (Returns _, s') => (Returns tt, s')
    | (Throws e, s') => (Returns tt, log_calls [Earlier (EvUnhandledRejection e)] s')
    end.

(** [`${x}`] for a possibly missing string. *)
Definition shown (x : option string) : string :=
  match x with Some s => s | None => "undefined" end.

Definition blocked_notice : string :=
  "You're Blocked due to spammy behavior. " +:+ nl +:+ nl
  +:+ "Please contact us on our website to unblock you.".

Section Listeners.

Variable env : Env.
Variable px : Ports.

Local Open Scope site_scope.

(** *** [initialize], lines 54-58 *)
Definition initialize : MX unit :=
  request CallClientInitialize (client_initialize px) ;;;
  lift setupWhatsAppEventHandlers.

(** *** The listener for [qr], lines 117-130 *)
Definition sendPrompt : MX unit :=
  sent <- request (CallSendQRcode (qrCodePath env)) (sendQRcode px (qrCodePath env)) ;;
  lift (modify (set_QrCodeMessageId sent)).

Definition qrCallback (qr : string) : MX unit :=
  QR <- request (CallImageSync qr) (imageSync px qr) ;;
  request (CallSaveFile (qrCodePath env) QR) (saveFile px (qrCodePath env) QR) ;;;
  prompt <- lift (gets QrCodeMessageId) ;;
  match prompt with
  | Some ref =>
      if truthy prompt
      then request (CallUpdateQRCode (qrCodePath env) ref)
                   (updateQRCode px (qrCodePath env) ref)
      else sendPrompt
  | None => sendPrompt
  end.

(** *** The listener for [call], lines 133-150: there is no [try]. *)

(** Lines 134-139.  [call.reject()], the telemetry and the notice to Telegram
    are not awaited.  The console line stands for the label; the call object
    that [console.log] prints after it is not recorded. *)
Definition rejectAndReport (call : IncomingCall) : MX unit :=
  launch CallReject (call_reject call) ;;;
  lift (console_log "Call rejected:") ;;;
  lift (fire (EvTrackEvent "system_event" "system" "call_rejected")
             (trackEvent env "system_event")) ;;;
  lift (fire (EvTelegramSend ("Call from " +:+ shown (call_from call) +:+ " rejected."))
             (telegram_sendMessage env
                ("Call from " +:+ shown (call_from call) +:+ " rejected."))).

(** Lines 142-149. *)
Definition blockCaller (userId : string) : MX unit :=
  user <- request (CallGetContactById userId) (getContactById px userId) ;;
  chat <- request (CallContactGetChat userId) (contact_getChat px user) ;;
  request (CallSendMessage (chat_id chat) blocked_notice)
          (chat_sendMessage px chat blocked_notice) ;;;
  request (CallBlock userId) (contact_block px user).

Definition callCallback (call : IncomingCall) : MX unit :=
  rejectAndReport call ;;;
  match call_from call with
  | None => xret tt
  | Some userId => if String.eqb userId "" then xret tt else blockCaller userId
  end.

(** *** The listener for [broadcast-requested], lines 314-332 *)

(** The [for] loop, lines 319-324: [count] is incremented for every chat. *)
Fixpoint sendToEach (message : string) (chats : list Chat) (count : Z) : MX Z :=
  match chats with
  | [] => xret count
  | chat :: rest =>
      let count := count + 1 in
      (if chat_isGroup px chat then xret tt
       else request (CallSendMessage (chat_id chat) message)
                    (chat_sendMessage px chat message)) ;;;
      sendToEach message rest count
  end.

Definition broadcastCallback (message : string) : MX unit :=
  xtry
    (lift (console_log ("Broadcast message received: " +:+ message)) ;;;
     chats <- lift (invoke EvGetChats (getChats env)) ;;
     count <- sendToEach message chats 0 ;;
     let summary := "Broadcast message sent to " +:+ pretty count +:+ " chats." in
     lift (console_log summary) ;;;
     lift (fire (EvTelegramSend summary) (telegram_sendMessage env summary)))
    (fun error => lift (console_log ("Error sending broadcast message: " +:+ error))).

(** The same listener, once for each of the values signalled. *)
Fixpoint for_each {A} (xs : list A) (callback : A -> MX unit) : MX unit :=
  match xs with
  | [] => xret tt
  | x :: rest => callback x ;;; for_each rest callback
  end.

End Listeners.

(** The calls a run added to the journal. *)
Definition noted (s s' : Site) : list Call :=
  skipn (length (journal s)) (journal s').

Definition pick (p : Call -> bool) (cs : list Call) : list Call :=
  List.filter p cs.

(** A computation that issues no call satisfying [p], whatever it does to the
    instance. *)
Definition quiet {A} (p : Call -> bool) (m : MX A) : Prop :=
  forall s, exists cs, journal (snd (m s)) = journal s ++ cs /\ pick p cs = [].

(** The image made of a QR code. *)
Definition rendered (px : Ports) (qr : string) : string :=
  match imageSync px qr with Returns png => png | Throws _ => "" end.

(** The calls of one [qr] signal that goes through, up to the one to
    Telegram. *)
Definition qr_calls (env : Env) (px : Ports) (qr : string) (last : Call) : list Call :=
  [CallImageSync qr; CallSaveFile (qrCodePath env) (rendered px qr); last].

Definition is_retract (c : Call) : bool :=
  match c with Earlier (EvTelegramDelete _) => true | _ => false end.

Definition is_send_prompt (c : Call) : bool :=
  match c with CallSendQRcode _ => true | _ => false end.

Definition is_update_prompt (c : Call) : bool :=
  match c with CallUpdateQRCode _ _ => true | _ => false end.

Definition is_reject (c : Call) : bool :=
  match c with CallReject => true | _ => false end.

(** Looking the caller up, writing to them and blocking them. *)
Definition is_about_caller (c : Call) : bool :=
  match c with
  | CallGetContactById _ | CallContactGetChat _ | CallSendMessage _ _ | CallBlock _ => true
  | _ => false
  end.

Definition is_block (c : Call) : bool :=
  match c with CallBlock _ => true | _ => false end.

Definition is_send_message (c : Call) : bool :=
  match c with CallSendMessage _ _ => true | _ => false end.

Definition is_notice (c : Call) : bool :=
  match c with Earlier (EvTelegramSend _) => true | _ => false end.

(** [if (!userId)]: a missing or empty [from]. *)
Definition anonymous (call : IncomingCall) : bool :=
  match call_from call with
  | Some userId => String.eqb userId ""
  | None => true
  end.

(** The chats a broadcast writes to. *)
Definition recipients (px : Ports) (chats : list Chat) : list Chat :=
  filter (fun c => Is_true (negb (chat_isGroup px c))) chats.

Definition a_site (w : World) : Site := {| instance := w; journal := [] |}.

(** Ports whose calls go through: a QR prompt gets the id [sent], a chat is a
    group when its id has [@g.us] in it. *)
Definition is_group_id (id : string) : bool :=
  match index 0 "@g.us" id with Some _ => true | None => false end.

Definition ports (sent : option Z) : Ports :=
  {| imageSync := fun qr => Returns ("png:" +:+ qr);
     saveFile := fun _ _ => Returns tt;
     updateQRCode := fun _ _ => Returns tt;
     sendQRcode := fun _ => Returns sent;
     client_initialize := Returns tt;
     getContactById := fun _ => Returns ada;
     contact_getChat := fun _ => Returns {| chat_id := "201000000000@c.us"; unreadCount := 0;
                                            fetchMessages := Returns [] |};
     contact_block := fun _ => Returns tt;
     chat_isGroup := fun c => is_group_id (chat_id c);
     chat_sendMessage := fun _ _ => Returns tt |}.

(** The same, but writing to the chat [lost] fails, and the client cannot be
    started. *)
Definition faulty_ports (lost : string) : Ports :=
  {| imageSync := fun qr => Returns ("png:" +:+ qr);
     saveFile := fun _ _ => Throws "EACCES";
     updateQRCode := fun _ _ => Returns tt;
     sendQRcode := fun _ => Returns (Some 42);
     client_initialize := Throws "Failed to launch the browser";
     getContactById := fun _ => Returns ada;
     contact_getChat := fun _ => Returns {| chat_id := "201000000000@c.us"; unreadCount := 0;
                                            fetchMessages := Returns [] |};
     contact_block := fun _ => Returns tt;
     chat_isGroup := fun c => is_group_id (chat_id c);
     chat_sendMessage := fun c _ => if String.eqb (chat_id c) lost
                                    then Throws "Evaluation failed" else Returns tt |}.

Definition a_call (from : option string) : IncomingCall :=
  {| call_from := from; call_reject := fulfilled |}.

(** Two private chats around a group. *)
Definition mixed_chats : list Chat :=
  [chat_with "a@c.us" 0 []; chat_with "family@g.us" 0 []; chat_with "b@c.us" 0 []].

(** ** Basic facts *)

Example split_space_samples :
  split_space "+20 100 000 0000" = ["+20"; "100"; "000"; "0000"]
  /\ split_space "" = [""]
  /\ split_space " a" = [""; "a"]
  /\ split_space "a " = ["a"; ""]
  /\ hd "" (split_space "201000000000") = "201000000000".
Proof. repeat split. Qed.

Example slice0_samples :
  slice0 [1; 2; 3] 2 = [1; 2]
  /\ slice0 [1; 2; 3] 5 = [1; 2; 3]
  /\ slice0 [1; 2; 3] 0 = []
  /\ slice0 [1; 2; 3] (-1) = [1; 2]
  /\ slice0 [1; 2; 3] (-7) = [].
Proof. repeat split. Qed.

Example or_else_samples :
  or_else (Some "Ada") "+20 100" = "Ada"
  /\ or_else (Some "") "+20 100" = "+20 100"
  /\ or_else None "+20 100" = "+20 100".
Proof. repeat split. Qed.

Example truthy_samples :
  truthy (Some 42) = true /\ truthy (Some 0) = false /\ truthy None = false.
Proof. repeat split. Qed.

Example job_key_sample :
  pretty (1700000000 : Z) +:+ "-" +:+ "+20 100 000 0000" = "1700000000-+20 100 000 0000".
Proof. reflexivity. Qed.

Lemma World_eq (a b : World) :
  trace a = trace b -> console a = console b -> users a = users b ->
  isAuthenticated a = isAuthenticated b -> unreadChats a = unreadChats b ->
  QrCodeMessageId a = QrCodeMessageId b -> listeners a = listeners b ->
  started a = started b -> intervals a = intervals b ->
  a = b.
Proof. destruct a, b; simpl; by intros -> -> -> -> -> -> -> -> ->. Qed.

Lemma emitted_nil w : emitted [] w = w.
Proof. destruct w; unfold emitted, set_trace; simpl. by rewrite app_nil_r. Qed.

Lemma emitted_app a b w : emitted b (emitted a w) = emitted (a ++ b) w.
Proof. unfold emitted, set_trace; simpl. by rewrite app_assoc. Qed.

Lemma added_emitted evs w : added w (emitted evs w) = evs.
Proof. unfold added, emitted; simpl. by rewrite drop_app_length. Qed.

Lemma invoke_emitted {A} ev (o : outcome A) w : invoke ev o w = (o, emitted [ev] w).
Proof. reflexivity. Qed.

Lemma fire_emitted {A} ev (s : unawaited A) w :
  fire ev s w
  = (match s with Threw e => Throws e | Dropped _ => Returns tt end,
     emitted (fire_events ev s) w).
Proof. reflexivity. Qed.

Lemma fire_fulfilled ev w : fire ev fulfilled w = (Returns tt, emitted [ev] w).
Proof. reflexivity. Qed.

Lemma fulfils_fulfilled (s : unawaited unit) : fulfils s = true -> s = fulfilled.
Proof. by destruct s as [e|[[]|e]]. Qed.

Lemma fire_events_quiet {A} ev (s : unawaited A) :
  rejects s = false -> fire_events ev s = [ev].
Proof. by destruct s as [e|[a|e]]. Qed.

Lemma set_users_emitted f evs w :
  set_users f (emitted evs w) = emitted evs (set_users f w).
Proof. reflexivity. Qed.

Lemma added_emitted_set_users f evs w :
  added w (emitted evs (set_users f w)) = evs.
Proof. unfold added, emitted; simpl. by rewrite drop_app_length. Qed.

Lemma users_emitted evs w : users (emitted evs w) = users w.
Proof. reflexivity. Qed.

Lemma only_app p a b : only p (a ++ b) = only p a ++ only p b.
Proof. apply List.filter_app. Qed.

(** ** Computations that only issue calls *)

Section Never.

Context (p : Event -> bool).

Lemma never_ret {A} (a : A) : never p (ret a).
Proof. intros w. exists []. by rewrite emitted_nil. Qed.

Lemma never_throw {A} e : never p (@throw A e).
Proof. intros w. exists []. by rewrite emitted_nil. Qed.

Lemma never_eval {A} (o : outcome A) : never p (eval o).
Proof. intros w. exists []. by rewrite emitted_nil. Qed.

Lemma never_invoke {A} ev (o : outcome A) : p ev = false -> never p (invoke ev o).
Proof. intros Hp w. exists [ev]. split; [done|]. simpl. by rewrite Hp. Qed.

Lemma never_bind {A B} (m : M A) (k : A -> M B) :
  never p m -> (forall a, never p (k a)) -> never p (bind m k).
Proof.
  intros Hm Hk w. unfold bind.
  destruct (Hm w) as (evs & Hw & Hevs).
  destruct (m w) as [[a|e] w1]; simpl in Hw; subst w1.
  - destruct (Hk a (emitted evs w)) as (evs' & Hw' & Hevs').
    exists (evs ++ evs'). rewrite Hw', emitted_app, only_app, Hevs, Hevs'. done.
  - by exists evs.
Qed.

Lemma never_when (b : bool) (m : M unit) : never p m -> never p (when b m).
Proof. destruct b; [done|]. intros _. apply never_ret. Qed.

Lemma never_fire {A} ev (s : unawaited A) :
  p ev = false -> (forall e, p (EvUnhandledRejection e) = false) -> never p (fire ev s).
Proof.
  intros Hp Hu w. exists (fire_events ev s). split; [done|].
  destruct s as [e|[a|e]]; simpl; by rewrite Hp, ?Hu.
Qed.

Lemma never_fire_quiet {A} ev (s : unawaited A) :
  p ev = false -> rejects s = false -> never p (fire ev s).
Proof.
  intros Hp Hs w. exists (fire_events ev s). split; [done|].
  rewrite fire_events_quiet by done. simpl. by rewrite Hp.
Qed.

Lemma never_not_awaited {A} (m : M A) :
  (forall e, p (EvUnhandledRejection e) = false) -> never p m -> never p (not_awaited m).
Proof.
  intros Hu Hm w. unfold not_awaited.
  destruct (Hm w) as (evs & Hw & Hevs).
  destruct (m w) as [[a|e] w1]; simpl in Hw; subst w1.
  - by exists evs.
  - exists (evs ++ [EvUnhandledRejection e]).
    split; [by rewrite <- emitted_app|]. rewrite only_app, Hevs. simpl. by rewrite Hu.
Qed.

End Never.

Ltac never_steps :=
  repeat first
    [ apply never_ret
    | apply never_eval
    | apply never_invoke; reflexivity
    | apply never_fire; [reflexivity | intros ?; reflexivity]
    | apply never_when
    | apply never_bind; [|intros ?]
    | match goal with
      | |- never _ (if ?b then _ else _) => destruct b
      | |- never _ (match ?o with Some _ => _ | None => _ end) => destruct o
      end ].

Lemma never_frame {A} p (m : M A) w :
  never p m ->
  users (snd (m w)) = users w
  /\ console (snd (m w)) = console w
  /\ listeners (snd (m w)) = listeners w
  /\ only p (added w (snd (m w))) = [].
Proof.
  intros H. destruct (H w) as (evs & -> & Hevs).
  by rewrite added_emitted.
Qed.

(** ** The unread reconciliation pass *)

Lemma slice0_rev_last_n {A} (l : list A) (n : Z) :
  0 < n -> slice0 (rev l) n = rev (last_n (Z.to_nat n) l).
Proof.
  intros Hn. unfold slice0, last_n.
  destruct (n <? 0) eqn:E; [lia|].
  rewrite length_rev, firstn_rev.
  destruct (Z.le_ge_cases n (Z.of_nat (length l))) as [Hle|Hge].
  - by rewrite Z.min_l.
  - rewrite Z.min_r, Nat2Z.id by done.
    replace (length l - length l)%nat with 0%nat by lia.
    by replace (length l - Z.to_nat n)%nat with 0%nat by lia.
Qed.

Lemma length_last_n {A} (n : nat) (l : list A) :
  length (last_n n l) = Nat.min n (length l).
Proof. unfold last_n. rewrite length_skipn. lia. Qed.

Lemma chronological_tail m l : chronological (m :: l) = true -> chronological l = true.
Proof.
  destruct l as [|m' l]; [done|]. simpl. intros H.
  by apply andb_prop in H as [_ H].
Qed.

Lemma chronological_skipn k l : chronological l = true -> chronological (skipn k l) = true.
Proof.
  revert l. induction k as [|k IH]; intros l H; [done|].
  destruct l as [|m l]; [done|]. simpl skipn.
  apply IH. by eapply chronological_tail.
Qed.

Section UnreadPass.

Variable env : Env.

Lemma collectUnread_run chats : forall idx count w,
  Forall (fun c => has_unread c = true -> returns (fetchMessages c) = true) chats ->
  exists idx',
    collectUnread chats idx count w
      = (Returns (idx', count + sum_unread chats), emitted (fetch_events chats) w)
    /\ dom idx' = dom idx ∪ list_to_set (chat_id <$> unread_chats chats)
    /\ (forall c history,
          NoDup (chat_id <$> unread_chats chats) ->
          c ∈ chats -> has_unread c = true -> fetchMessages c = Returns history ->
          idx' !! chat_id c = Some (slice0 (rev history) (unreadCount c)))
    /\ (forall k, k ∉ chat_id <$> unread_chats chats -> idx' !! k = idx !! k).
Proof.
  induction chats as [|chat rest IH]; intros idx count w Hall.
  - exists idx. simpl. unfold ret, sum_unread, fetch_events, unread_chats; simpl.
    rewrite emitted_nil, Z.add_0_r. repeat split; try done.
    + set_solver.
    + intros c h _ Hc. by apply elem_of_nil in Hc.
  - apply Forall_cons in Hall as [Hchat Hrest].
    unfold sum_unread, fetch_events, unread_chats in *. simpl collectUnread.
    rewrite filter_cons. fold (has_unread chat).
    destruct (has_unread chat) eqn:Hu.
    + specialize (Hchat eq_refl).
      destruct (fetchMessages chat) as [fetched|e] eqn:Hf; [|done].
      destruct (decide (Is_true true)) as [_|n]; [|by destruct n].
      set (entry := slice0 (rev fetched) (unreadCount chat)).
      destruct (IH (<[chat_id chat := entry]> idx) (count + unreadCount chat)
                   (emitted [EvFetchMessages (chat_id chat)] w) Hrest)
        as (idx' & Hrun & Hdom & Hlook & Hframe).
      exists idx'. unfold bind at 1. rewrite invoke_emitted. fold entry.
      rewrite Hrun, emitted_app. simpl. rewrite Z.add_assoc.
      split; [done|]. split; [|split].
      * rewrite Hdom, dom_insert_L. set_solver.
      * intros c h Hnd Hc Hcu Hch. apply NoDup_cons in Hnd as [Hnotin Hnd].
        apply elem_of_cons in Hc as [->|Hc].
        -- rewrite Hframe by done. rewrite lookup_insert_eq.
           unfold entry. congruence.
        -- by apply Hlook.
      * intros k Hk. apply not_elem_of_cons in Hk as [Hne Hk].
        rewrite Hframe by done. by rewrite lookup_insert_ne.
    + destruct (decide (Is_true false)) as [y|_]; [by destruct y|].
      destruct (IH idx count w Hrest) as (idx' & Hrun & Hdom & Hlook & Hframe).
      exists idx'. split; [done|]. split; [done|]. split; [|done].
      intros c h Hnd Hc Hcu Hch.
      apply elem_of_cons in Hc as [->|Hc]; [congruence|]. by apply Hlook.
Qed.

(** What a pass that does not throw returns and leaves behind. *)
Lemma getUnreadChats_run chats w :
  getChats env = Returns chats ->
  Forall (fun c => has_unread c = true -> returns (fetchMessages c) = true) chats ->
  exists idx,
    getUnreadChats env w
      = (Returns (Some idx),
         if sum_unread chats =? unreadChats w
         then emitted (EvGetChats :: fetch_events chats) w
         else emitted (EvGetChats :: fetch_events chats ++ [EvSetUnreadChats (sum_unread chats)])
                (set_unreadChats (sum_unread chats) w))
    /\ dom idx = list_to_set (chat_id <$> unread_chats chats)
    /\ (forall c history,
          NoDup (chat_id <$> unread_chats chats) ->
          c ∈ chats -> has_unread c = true -> fetchMessages c = Returns history ->
          idx !! chat_id c = Some (slice0 (rev history) (unreadCount c))).
Proof.
  intros Hchats Hall.
  destruct (collectUnread_run chats ∅ 0 (emitted [EvGetChats] w) Hall)
    as (idx & Hrun & Hdom & Hlook & _).
  exists idx. split; [|split; [|done]].
  - unfold getUnreadChats, try_catch, bind at 1. rewrite invoke_emitted, Hchats.
    rewrite Z.add_0_l in Hrun.
    unfold bind at 1. rewrite Hrun. rewrite emitted_app. simpl.
    unfold bind, gets, when, ret. simpl.
    destruct (sum_unread chats =? unreadChats w) eqn:E; simpl; [done|].
    unfold write_unreadChats. f_equal.
    unfold emitted, set_trace, set_unreadChats; simpl. f_equal.
    by rewrite <- app_assoc.
  - rewrite Hdom, dom_empty_L. set_solver.
Qed.

Lemma collectUnread_never_writes chats : forall idx count,
  never is_set_unreadChats (collectUnread chats idx count).
Proof.
  induction chats as [|chat rest IH]; intros idx count; simpl.
  - apply never_ret.
  - destruct (0 <? unreadCount chat); [|apply IH].
    apply never_bind; [by apply never_invoke|]. intros fetched. apply IH.
Qed.

Lemma getUnreadChats_cases w :
  exists evs,
    only is_set_unreadChats evs = []
    /\ ((exists line,
           getUnreadChats env w
           = (Returns None, set_console (fun c => c ++ [line]) (emitted evs w)))
        \/ (exists idx count,
              getUnreadChats env w
              = (Returns (Some idx),
                 if count =? unreadChats w then emitted evs w
                 else emitted (evs ++ [EvSetUnreadChats count]) (set_unreadChats count w)))).
Proof.
  destruct (getChats env) as [chats|e] eqn:Hchats.
  - destruct (collectUnread_never_writes chats ∅ 0 (emitted [EvGetChats] w))
      as (evs & Hw & Hevs).
    destruct (collectUnread chats ∅ 0 (emitted [EvGetChats] w)) as [[[idx count]|e] w1] eqn:Hrun;
      simpl in Hw; subst w1.
    + exists (EvGetChats :: evs). split; [done|]. right. exists idx, count.
      unfold getUnreadChats, try_catch, bind at 1. rewrite invoke_emitted, Hchats.
      unfold bind at 1. rewrite Hrun, emitted_app.
      unfold bind at 1, gets. cbn [fst snd]. unfold bind at 1, when.
      change (unreadChats (emitted ([EvGetChats] ++ evs) w)) with (unreadChats w).
      destruct (count =? unreadChats w); cbn [negb]; [done|].
      unfold write_unreadChats, ret. f_equal.
      apply World_eq; try done. simpl. by rewrite <- app_assoc.
    + exists (EvGetChats :: evs). split; [done|]. left. eexists.
      unfold getUnreadChats, try_catch, bind at 1. rewrite invoke_emitted, Hchats.
      unfold bind at 1. rewrite Hrun, emitted_app. reflexivity.
  - exists [EvGetChats]. split; [done|]. left. eexists.
    unfold getUnreadChats, try_catch, bind at 1. rewrite invoke_emitted, Hchats.
    reflexivity.
Qed.

(** Every pass, also one that throws, ends without an exception, and assigns
    [unreadChats] at most once, to a value that differs from the one it had. *)
Lemma getUnreadChats_writes_only_changes w :
  (exists r, fst (getUnreadChats env w) = Returns r)
  /\ ((only is_set_unreadChats (added w (snd (getUnreadChats env w))) = []
       /\ unreadChats (snd (getUnreadChats env w)) = unreadChats w)
      \/ (exists n, n <> unreadChats w
                    /\ only is_set_unreadChats (added w (snd (getUnreadChats env w)))
                       = [EvSetUnreadChats n]
                    /\ unreadChats (snd (getUnreadChats env w)) = n)).
Proof.
  destruct (getUnreadChats_cases w) as (evs & Hevs & [[line ->] | (idx & count & ->)]);
    cbn [fst snd].
  - split; [by eexists|]. left. split; [|done].
    unfold added, emitted. simpl. by rewrite drop_app_length.
  - split; [by eexists|].
    destruct (count =? unreadChats w) eqn:E.
    + left. by rewrite added_emitted.
    + right. exists count. split; [by apply Z.eqb_neq|]. split; [|done].
      unfold added, emitted. simpl. rewrite drop_app_length, only_app, Hevs. done.
Qed.

End UnreadPass.

(** C1 (as amended): for a chat with unread count N > 0, a pass that does not
    throw stores under the chat's id the first N elements of the reversed
    history.  That is the last N messages of the fetched history (all of it
    when it is shorter) in the reverse of the fetched order: newest first when
    the history is fetched oldest first. *)
Theorem unread_entry_is_reversed_tail
    (env : Env) (w : World) (chats : list Chat) (c : Chat) (history : list Message) :
  getChats env = Returns chats ->
  Forall (fun c => has_unread c = true -> returns (fetchMessages c) = true) chats ->
  NoDup (chat_id <$> unread_chats chats) ->
  c ∈ chats ->
  0 < unreadCount c ->
  fetchMessages c = Returns history ->
  exists idx entry,
    fst (getUnreadChats env w) = Returns (Some idx)
    /\ idx !! chat_id c = Some entry
    /\ entry = firstn (Z.to_nat (unreadCount c)) (rev history)
    /\ entry = rev (last_n (Z.to_nat (unreadCount c)) history)
    /\ length entry = Nat.min (Z.to_nat (unreadCount c)) (length history)
    /\ (chronological history = true -> newest_first entry = true).
Proof.
  intros Hchats Hall Hnd Hc Hpos Hfetch.
  destruct (getUnreadChats_run env chats w Hchats Hall) as (idx & Hrun & _ & Hlook).
  assert (Hu : has_unread c = true) by (unfold has_unread; lia).
  specialize (Hlook c history Hnd Hc Hu Hfetch).
  rewrite slice0_rev_last_n in Hlook by done.
  exists idx, (rev (last_n (Z.to_nat (unreadCount c)) history)).
  rewrite Hrun. repeat split; try done.
  - unfold last_n. by rewrite firstn_rev.
  - by rewrite length_rev, length_last_n.
  - intros Hchron. unfold newest_first. rewrite rev_involutive.
    by apply chronological_skipn.
Qed.

Lemma unread_entry_is_reversed_tail_witness :
  exists idx entry,
    fst (getUnreadChats (healthy sample_chats) new_WhatsApp) = Returns (Some idx)
    /\ idx !! "b@c.us" = Some entry
    /\ entry = firstn 3 (rev three_messages)
    /\ entry = rev (last_n 3 three_messages)
    /\ length entry = Nat.min 3 (length three_messages)
    /\ (chronological three_messages = true -> newest_first entry = true).
Proof.
  apply (unread_entry_is_reversed_tail (healthy sample_chats) new_WhatsApp
           sample_chats (chat_with "b@c.us" 3 three_messages) three_messages).
  - reflexivity.
  - repeat constructor.
  - vm_compute. repeat constructor; set_solver.
  - set_solver.
  - simpl. lia.
  - reflexivity.
Defined.

(** C1 as stated fails.  With two unread messages in a history fetched oldest
    first, the entry holds them newest first: it is not in chronological order
    and is not the unread subset in that order.  (Were the history fetched
    newest first, the entry would be in chronological order but would hold the
    two oldest messages, not the two latest.) *)
Lemma unread_entry_not_chronological :
  (chronological three_messages = true
   /\ exists idx entry,
        fst (getUnreadChats (healthy [chat_with "b@c.us" 2 three_messages]) new_WhatsApp)
          = Returns (Some idx)
        /\ idx !! "b@c.us" = Some entry
        /\ id_serialized <$> entry = ["m3"; "m2"]
        /\ chronological entry = false
        /\ entry <> last_n 2 three_messages)
  /\ (exists idx entry,
        fst (getUnreadChats (healthy [chat_with "b@c.us" 2 (rev three_messages)])
               new_WhatsApp)
          = Returns (Some idx)
        /\ idx !! "b@c.us" = Some entry
        /\ id_serialized <$> entry = ["m1"; "m2"]
        /\ id_serialized <$> last_n 2 three_messages = ["m2"; "m3"]).
Proof.
  split.
  - split; [reflexivity|].
    exists {["b@c.us" := [text_message "m3" 3 []; text_message "m2" 2 []]]},
           [text_message "m3" 3 []; text_message "m2" 2 []].
    split; [reflexivity|]. split; [reflexivity|]. split; [reflexivity|].
    split; [reflexivity|].
    intros Heq. vm_compute in Heq. discriminate Heq.
  - exists {["b@c.us" := [text_message "m1" 1 []; text_message "m2" 2 []]]},
           [text_message "m1" 1 []; text_message "m2" 2 []].
    repeat split.
Qed.

(** C6: a pass that does not throw returns an index whose keys are exactly the
    ids of the chats with unread count > 0, one entry for each of them; the
    counter [unreadChats] is assigned only when the new total differs from
    its value (otherwise the pass changes nothing but the trace of its calls),
    and afterwards it is the sum of the unread counts. *)
Theorem unread_index_and_counter (env : Env) (w : World) (chats : list Chat) :
  getChats env = Returns chats ->
  Forall (fun c => has_unread c = true -> returns (fetchMessages c) = true) chats ->
  NoDup (chat_id <$> unread_chats chats) ->
  exists idx,
    fst (getUnreadChats env w) = Returns (Some idx)
    /\ (forall k, is_Some (idx !! k) <->
                  exists c, c ∈ chats /\ 0 < unreadCount c /\ chat_id c = k)
    /\ size idx = length (unread_chats chats)
    /\ only is_set_unreadChats (added w (snd (getUnreadChats env w)))
         = (if sum_unread chats =? unreadChats w then []
            else [EvSetUnreadChats (sum_unread chats)])
    /\ (sum_unread chats = unreadChats w ->
         snd (getUnreadChats env w) = emitted (EvGetChats :: fetch_events chats) w)
    /\ unreadChats (snd (getUnreadChats env w)) = sum_unread chats
    /\ (Forall (fun c => 0 <= unreadCount c) chats ->
         sum_unread chats = foldr Z.add 0 (unreadCount <$> chats)).
Proof.
  intros Hchats Hall Hnd.
  destruct (getUnreadChats_run env chats w Hchats Hall) as (idx & Hrun & Hdom & _).
  assert (Honly : forall l, only is_set_unreadChats (fetch_events l) = []).
  { intros l. unfold fetch_events. induction (unread_chats l); [done|]. by simpl. }
  exists idx. rewrite Hrun. simpl fst. simpl snd.
  split; [done|]. split; [|split; [|split; [|split; [|split]]]].
  - intros k. rewrite <- elem_of_dom, Hdom, elem_of_list_to_set, list_elem_of_fmap.
    unfold unread_chats. split.
    + intros (c & -> & Hc). apply list_elem_of_filter in Hc as [Hu Hc].
      exists c. split; [done|]. split; [|done].
      unfold has_unread in Hu. apply Is_true_true in Hu. lia.
    + intros (c & Hc & Hpos & <-). exists c. split; [done|].
      apply list_elem_of_filter. split; [|done].
      unfold has_unread. apply Is_true_true. lia.
  - rewrite <- size_dom, Hdom, size_list_to_set by done. by rewrite length_fmap.
  - destruct (sum_unread chats =? unreadChats w).
    + rewrite added_emitted. simpl. apply Honly.
    + unfold added, emitted. simpl. rewrite drop_app_length.
      simpl. by rewrite only_app, Honly.
  - intros Heq. by rewrite (proj2 (Z.eqb_eq _ _) Heq).
  - destruct (sum_unread chats =? unreadChats w) eqn:E; [|done].
    simpl. symmetry. by apply Z.eqb_eq.
  - clear. intros Hnn. unfold sum_unread, unread_chats.
    induction chats as [|c rest IH]; [done|].
    apply Forall_cons in Hnn as [Hc Hrest].
    rewrite filter_cons. simpl.
    specialize (IH Hrest).
    destruct (decide (Is_true (has_unread c))) as [Hu|Hu]; simpl in *.
    + f_equal. exact IH.
    + rewrite IH. unfold has_unread in Hu.
      destruct (0 <? unreadCount c) eqn:E; [by destruct Hu|].
      apply Z.ltb_ge in E. change (list_fmap Chat Z unreadCount rest) with (unreadCount <$> rest).
      lia.
Qed.

Lemma unread_index_and_counter_witness :
  exists idx,
    fst (getUnreadChats (healthy sample_chats) new_WhatsApp) = Returns (Some idx)
    /\ (forall k, is_Some (idx !! k) <->
                  exists c, c ∈ sample_chats /\ 0 < unreadCount c /\ chat_id c = k)
    /\ size idx = 2%nat
    /\ only is_set_unreadChats
         (added new_WhatsApp (snd (getUnreadChats (healthy sample_chats) new_WhatsApp)))
         = [EvSetUnreadChats 8]
    /\ (8 = 0 ->
         snd (getUnreadChats (healthy sample_chats) new_WhatsApp)
           = emitted (EvGetChats :: fetch_events sample_chats) new_WhatsApp)
    /\ unreadChats (snd (getUnreadChats (healthy sample_chats) new_WhatsApp)) = 8
    /\ (Forall (fun c => 0 <= unreadCount c) sample_chats ->
         8 = foldr Z.add 0 (unreadCount <$> sample_chats)).
Proof.
  apply (unread_index_and_counter (healthy sample_chats) new_WhatsApp sample_chats).
  - reflexivity.
  - repeat constructor.
  - vm_compute. repeat constructor; set_solver.
Defined.

(** ** The inbound path *)

Lemma split_space_not_nil s : split_space s <> [].
Proof. destruct s as [|c s]; simpl; [done|]. destruct (Ascii.eqb c space); [done|]. by destruct (split_space s). Qed.

(** The first piece of the split: the text before the first space. *)
Lemma hd_split_space s :
  let c := hd "" (split_space s) in
  has_space c = false
  /\ if has_space s then exists rest, s = c +:+ String space rest else c = s.
Proof.
  induction s as [|a s IH]; simpl; [done|].
  destruct (Ascii.eqb a space) eqn:E; simpl.
  - split; [done|]. apply Ascii.eqb_eq in E as ->. by exists s.
  - destruct IH as [IH1 IH2]. pose proof (split_space_not_nil s) as Hne.
    destruct (split_space s) as [|piece pieces]; [done|]. simpl in *.
    rewrite E. split; [done|].
    destruct (has_space s).
    + destruct IH2 as [rest ->]. by exists rest.
    + by rewrite IH2.
Qed.

Section Inbound.

Variable env : Env.

Lemma try_catch_returns {A} (m : M A) (h : string -> M A) w :
  (forall e w', exists a, fst (h e w') = Returns a) ->
  exists a, fst (try_catch m h w) = Returns a.
Proof.
  intros Hh. unfold try_catch. destruct (m w) as [[a|e] w'].
  - by exists a.
  - apply Hh.
Qed.

Lemma messageHandler_outcome m w :
  messageHandler env m w
  = match messageBody env m w with
    | (Returns _, w') => (Returns tt, w')
    | (Throws e, w') =>
        (Returns tt, set_console (fun c => c ++ [e +:+ " Error in message handler"]) w')
    end.
Proof.
  unfold messageHandler, try_catch.
  by destruct (messageBody env m w) as [[[]|e] w'].
Qed.

(** A handler run touches neither the listeners nor the instance's flags. *)
Lemma createOrUpdateUser_run userData w :
  createOrUpdateUser env userData w
  = match prisma_user_upsert env userData with
    | Returns generated =>
        (Returns (row_of (users w) userData generated),
         emitted [EvUpsertUser userData]
           (set_users (fun t => <[phone userData := row_of (users w) userData generated]> t) w))
    | Throws e => (Throws e, emitted [EvUpsertUser userData] w)
    end.
Proof.
  unfold createOrUpdateUser, bind at 1. rewrite invoke_emitted.
  by destruct (prisma_user_upsert env userData).
Qed.

Lemma messageBody_resolved m ct userNumber generated w :
  resolves env m ct userNumber generated ->
  let user := row_of (users w) (userPayload_of m ct userNumber) generated in
  messageBody env m w
  = afterUpsert env m ct userNumber user
      (emitted (resolution_events m ct userNumber)
         (set_users (fun t => <[userNumber := user]> t) w)).
Proof.
  intros ((ci & Hci & Hg & Hr) & Hct & Hnum & Hup) user.
  unfold messageBody, bind at 1. rewrite invoke_emitted, Hci, Hg, Hr. simpl.
  unfold bind at 1. rewrite invoke_emitted, Hct.
  unfold bind at 1. rewrite invoke_emitted, Hnum.
  fold (userPayload_of m ct userNumber).
  unfold bind at 1. rewrite createOrUpdateUser_run, Hup.
  rewrite !emitted_app, users_emitted, set_users_emitted, emitted_app.
  reflexivity.
Qed.

Lemma makeSticker_never_downloads m user :
  never (fun ev => is_download_create ev || is_add_job ev) (makeSticker env m user).
Proof. unfold makeSticker. never_steps. Qed.

Lemma requestDownload_never_stickers m user userNumber :
  never (fun ev => is_sticker_create ev || is_sticker_reply ev || is_sticker_event ev)
        (requestDownload env m user userNumber).
Proof. unfold requestDownload. never_steps. Qed.

Lemma afterUpsert_only_calls m ct userNumber user :
  never (fun _ => false) (afterUpsert env m ct userNumber user).
Proof. unfold afterUpsert, makeSticker, requestDownload. never_steps. Qed.

End Inbound.

Section InboundClaims.

Variable env : Env.

(** Whatever the collaborators do, the body of the handler starts with
    [getChat], writes nothing on the console and leaves the listeners alone;
    after [getChat] it issues no event that the steps after the upsert never
    issue, other than the calls that resolve the user. *)
Lemma messageBody_calls (p : Event -> bool) m w :
  (forall mid, p (EvGetContact mid) = false) ->
  (forall mid, p (EvGetFormattedNumber mid) = false) ->
  (forall payload, p (EvUpsertUser payload) = false) ->
  (forall ct num user, never p (afterUpsert env m ct num user)) ->
  exists evs,
    trace (snd (messageBody env m w)) = trace w ++ EvGetChat (id_serialized m) :: evs
    /\ only p evs = []
    /\ console (snd (messageBody env m w)) = console w
    /\ listeners (snd (messageBody env m w)) = listeners w.
Proof.
  intros Hp1 Hp2 Hp3 Hnever.
  destruct (getChat m) as [ci|e] eqn:Hci; cycle 1.
  { assert (Hrun : messageBody env m w = (Throws e, emitted [EvGetChat (id_serialized m)] w)).
    { unfold messageBody, bind at 1. by rewrite invoke_emitted, Hci. }
    rewrite Hrun. by exists []. }
  destruct (isGroup ci || isReadOnly ci) eqn:Hprivate.
  { assert (Hrun : messageBody env m w = (Returns tt, emitted [EvGetChat (id_serialized m)] w)).
    { unfold messageBody, bind at 1. by rewrite invoke_emitted, Hci, Hprivate. }
    rewrite Hrun. by exists []. }
  destruct (getContact m) as [ct|e] eqn:Hct; cycle 1.
  { assert (Hrun : messageBody env m w
                   = (Throws e, emitted [EvGetChat (id_serialized m);
                                         EvGetContact (id_serialized m)] w)).
    { unfold messageBody, bind at 1. rewrite invoke_emitted, Hci, Hprivate.
      unfold bind at 1. by rewrite invoke_emitted, Hct, emitted_app. }
    rewrite Hrun. exists [EvGetContact (id_serialized m)]. simpl. by rewrite Hp1. }
  destruct (getFormattedNumber ct) as [num|e] eqn:Hnum; cycle 1.
  { assert (Hrun : messageBody env m w
                   = (Throws e, emitted [EvGetChat (id_serialized m);
                                         EvGetContact (id_serialized m);
                                         EvGetFormattedNumber (id_serialized m)] w)).
    { unfold messageBody, bind at 1. rewrite invoke_emitted, Hci, Hprivate.
      unfold bind at 1. rewrite invoke_emitted, Hct.
      unfold bind at 1. by rewrite invoke_emitted, Hnum, !emitted_app. }
    rewrite Hrun.
    exists [EvGetContact (id_serialized m); EvGetFormattedNumber (id_serialized m)].
    simpl. by rewrite Hp1, Hp2. }
  destruct (prisma_user_upsert env (userPayload_of m ct num)) as [gid|e] eqn:Hup; cycle 1.
  { assert (Hrun : messageBody env m w
                   = (Throws e, emitted (resolution_events m ct num) w)).
    { unfold messageBody, bind at 1. rewrite invoke_emitted, Hci, Hprivate.
      unfold bind at 1. rewrite invoke_emitted, Hct.
      unfold bind at 1. rewrite invoke_emitted, Hnum.
      fold (userPayload_of m ct num).
      unfold bind at 1. by rewrite createOrUpdateUser_run, Hup, !emitted_app. }
    rewrite Hrun.
    exists [EvGetContact (id_serialized m); EvGetFormattedNumber (id_serialized m);
            EvUpsertUser (userPayload_of m ct num)].
    simpl. by rewrite Hp1, Hp2, Hp3. }
  apply orb_false_elim in Hprivate as [Hg Hr].
  rewrite (messageBody_resolved env m ct num gid w) by (repeat split; eauto).
  set (user := row_of (users w) (userPayload_of m ct num) gid).
  set (w1 := emitted _ _).
  destruct (Hnever ct num user w1) as (evs & Hw & Hevs). rewrite Hw.
  exists ([EvGetContact (id_serialized m); EvGetFormattedNumber (id_serialized m);
           EvUpsertUser (userPayload_of m ct num)] ++ evs).
  unfold w1, resolution_events. simpl. rewrite Hp1, Hp2, Hp3, Hevs.
  repeat split; try done. by rewrite <- app_assoc.
Qed.

Lemma messageBody_shape m w :
  exists evs,
    trace (snd (messageBody env m w)) = trace w ++ EvGetChat (id_serialized m) :: evs
    /\ only is_get_chat evs = []
    /\ console (snd (messageBody env m w)) = console w
    /\ listeners (snd (messageBody env m w)) = listeners w.
Proof.
  apply messageBody_calls; try done.
  intros ct num user. unfold afterUpsert, makeSticker, requestDownload. never_steps.
Qed.

(** When no promise that the handler drops rejects, the run leaves no
    unhandled rejection. *)
Lemma messageBody_no_unhandled m w :
  no_dropped_rejection env m ->
  only is_unhandled (added w (snd (messageBody env m w))) = [].
Proof.
  intros (Hid & Htrack & Hcreate & Hreply & Hqueue).
  destruct (messageBody_calls is_unhandled m w) as (evs & Ht & Hevs & _); try done.
  - intros ct num user. unfold afterUpsert, makeSticker, requestDownload.
    repeat first
      [ apply never_ret
      | apply never_eval
      | apply never_invoke; reflexivity
      | apply never_fire_quiet; [reflexivity | auto]
      | apply never_when
      | apply never_bind; [|intros ?]
      | match goal with
        | |- never _ (if ?b then _ else _) => destruct b
        | |- never _ (match ?o with Some _ => _ | None => _ end) => destruct o
        end ].
  - unfold added. rewrite Ht, drop_app_length. simpl. exact Hevs.
Qed.

Lemma messageHandler_returns m w : fst (messageHandler env m w) = Returns tt.
Proof.
  rewrite messageHandler_outcome.
  by destruct (messageBody env m w) as [[[]|e] w'].
Qed.

Lemma messageHandler_shape m w :
  exists evs,
    trace (snd (messageHandler env m w)) = trace w ++ EvGetChat (id_serialized m) :: evs
    /\ only is_get_chat evs = []
    /\ listeners (snd (messageHandler env m w)) = listeners w.
Proof.
  destruct (messageBody_shape m w) as (evs & Ht & Hevs & _ & Hl).
  exists evs. rewrite messageHandler_outcome.
  by destruct (messageBody env m w) as [[[]|e] w'].
Qed.

Lemma emit_message_run m w :
  filter (fun l => Is_true (event_eqb (l_event l) message)) (listeners w)
    = [{| l_event := message; l_once := false |}] ->
  emit_message env m w = (Returns tt, snd (messageHandler env m w)).
Proof.
  intros Hl. unfold emit_message, emit, bind at 1, gets. rewrite Hl. simpl.
  unfold bind, ret, not_awaited. simpl.
  pose proof (messageHandler_returns m w) as Hr.
  destruct (messageHandler env m w) as [[[]|e] w']; simpl in *; congruence.
Qed.

Lemma emit_messages_run ms : forall w,
  filter (fun l => Is_true (event_eqb (l_event l) message)) (listeners w)
    = [{| l_event := message; l_once := false |}] ->
  exists evs,
    fst (emit_messages env ms w) = Returns tt
    /\ trace (snd (emit_messages env ms w)) = trace w ++ evs
    /\ only is_get_chat evs = (fun m => EvGetChat (id_serialized m)) <$> ms.
Proof.
  induction ms as [|m rest IH]; intros w Hl.
  - exists []. simpl. by rewrite app_nil_r.
  - simpl emit_messages. unfold bind. rewrite emit_message_run by done.
    destruct (messageHandler_shape m w) as (evs & Ht & Hevs & Hls).
    destruct (IH (snd (messageHandler env m w))) as (more & Hret & Htr & Hmore);
      [by rewrite Hls|].
    exists (EvGetChat (id_serialized m) :: evs ++ more).
    split; [done|]. rewrite Htr, Ht. split; [by rewrite <- app_assoc|].
    simpl. rewrite only_app, Hevs, Hmore. done.
Qed.

(** C8 (as amended): the handler for [message] never throws: an exception
    thrown by a step of its body, by a call it awaits or by any call
    expression, is caught at the end of that body and written on the console.
    A run of messages delivered one after the other therefore never stops
    early: every message reaches the handler, whatever happened to the ones
    before it.  What the handler does not see are the promises it drops: when
    none of them rejects, a run leaves no unhandled rejection. *)
Theorem inbound_failures_are_isolated (ms : list Message) (w : World) :
  filter (fun l => Is_true (event_eqb (l_event l) message)) (listeners w)
    = [{| l_event := message; l_once := false |}] ->
  (forall m w0,
      fst (messageHandler env m w0) = Returns tt
      /\ (forall e, fst (messageBody env m w0) = Throws e ->
            console (snd (messageHandler env m w0))
              = console w0 ++ [e +:+ " Error in message handler"])
      /\ (fst (messageBody env m w0) = Returns tt ->
            console (snd (messageHandler env m w0)) = console w0)
      /\ (no_dropped_rejection env m ->
            only is_unhandled (added w0 (snd (messageHandler env m w0))) = []))
  /\ fst (emit_messages env ms w) = Returns tt
  /\ only is_get_chat (added w (snd (emit_messages env ms w)))
     = (fun m => EvGetChat (id_serialized m)) <$> ms.
Proof.
  intros Hl. split.
  - intros m w0. split; [apply messageHandler_returns|].
    destruct (messageBody_shape m w0) as (_ & _ & _ & Hc & _).
    pose proof (messageBody_no_unhandled m w0) as Hquiet.
    rewrite messageHandler_outcome.
    destruct (messageBody env m w0) as [[[]|e'] w']; simpl in *.
    + split; [done|]. by rewrite Hc.
    + split; [by intros e [= ->]; rewrite Hc|]. done.
  - destruct (emit_messages_run ms w Hl) as (evs & Hret & Htr & Hevs).
    split; [done|]. unfold added. by rewrite Htr, drop_app_length.
Qed.

(** C10: once the sender is resolved, the row stored under the sender's
    number has as country the text of the formatted number before its first
    space, and the whole number when it has no space. *)
Theorem stored_country_is_number_prefix
    (m : Message) (ct : Contact) (userNumber generated : string) (w : World) :
  resolves env m ct userNumber generated ->
  exists u,
    users (snd (messageHandler env m w)) !! userNumber = Some u
    /\ only (fun ev => match ev with EvUpsertUser _ => true | _ => false end)
          (added w (snd (messageHandler env m w)))
       = [EvUpsertUser {| name := or_else (pushname ct) userNumber;
                          phone := userNumber;
                          platform := deviceType m;
                          country := user_country u |}]
    /\ has_space (user_country u) = false
    /\ if has_space userNumber
       then exists rest, userNumber = user_country u +:+ " " +:+ rest
       else user_country u = userNumber.
Proof.
  intros Hres.
  set (user := row_of (users w) (userPayload_of m ct userNumber) generated).
  exists user.
  assert (Hnever : never (fun ev => match ev with EvUpsertUser _ => true | _ => false end)
                         (afterUpsert env m ct userNumber user)).
  { unfold afterUpsert, makeSticker, requestDownload. never_steps. }
  assert (Hw : exists evs,
             only (fun ev => match ev with EvUpsertUser _ => true | _ => false end) evs = []
             /\ users (snd (messageHandler env m w))
                = <[userNumber := user]> (users w)
             /\ trace (snd (messageHandler env m w))
                = trace w ++ resolution_events m ct userNumber ++ evs).
  { rewrite messageHandler_outcome, (messageBody_resolved env m ct userNumber generated w Hres).
    fold user. set (w1 := emitted _ _).
    destruct (Hnever w1) as (evs & Hw1 & Hevs). exists evs.
    destruct (afterUpsert env m ct userNumber user w1) as [[[]|e] w2];
      simpl in Hw1; subst w2; simpl; by rewrite <- app_assoc. }
  destruct Hw as (evs & Hevs & Hu & Ht).
  split; [by rewrite Hu, lookup_insert_eq|].
  split.
  { unfold added. rewrite Ht, drop_app_length, only_app, Hevs. reflexivity. }
  pose proof (hd_split_space userNumber) as [Hc Hrest]. simpl in *.
  split; [done|]. exact Hrest.
Qed.

End InboundClaims.

Lemma stored_country_is_number_prefix_witness :
  exists u,
    users (snd (messageHandler (healthy []) (text_message "m1" 7 []) new_WhatsApp))
      !! "+20 100 000 0000" = Some u
    /\ only (fun ev => match ev with EvUpsertUser _ => true | _ => false end)
          (added new_WhatsApp
             (snd (messageHandler (healthy []) (text_message "m1" 7 []) new_WhatsApp)))
       = [EvUpsertUser {| name := "Ada"; phone := "+20 100 000 0000";
                          platform := "android"; country := user_country u |}]
    /\ has_space (user_country u) = false
    /\ exists rest, "+20 100 000 0000" = user_country u +:+ " " +:+ rest.
Proof.
  apply (stored_country_is_number_prefix (healthy [])
           (text_message "m1" 7 []) ada "+20 100 000 0000" "user-1" new_WhatsApp).
  repeat split. by exists private_chat.
Defined.


Section DispatchClaims.

Variable env : Env.

Lemma afterUpsert_telemetry m ct userNumber user w :
  telemetry_returns env m ->
  afterUpsert env m ct userNumber user w
  = (when (hasMedia m) (makeSticker env m user) ;;;
     when (0 <? Z.of_nat (length (links m))) (requestDownload env m user userNumber))
      (emitted (telemetry_events m ct userNumber user) w).
Proof.
  intros (Hid & (json & Hjson) & Htrack).
  unfold afterUpsert, bind at 1. rewrite Hid, fire_fulfilled.
  unfold bind at 1, eval. rewrite Hjson.
  unfold bind at 1. rewrite Htrack, fire_fulfilled, emitted_app. reflexivity.
Qed.

Lemma sticker_step_run m user w :
  sticker_step_returns env m = true ->
  when (hasMedia m) (makeSticker env m user) w
  = (Returns tt, emitted (sticker_events m user) w).
Proof.
  unfold sticker_step_returns, sticker_events, when.
  destruct (hasMedia m); simpl; [|intros _; unfold ret; by rewrite emitted_nil].
  unfold makeSticker, bind at 1. rewrite invoke_emitted.
  destruct (downloadMedia m) as [media|e]; [|done].
  unfold when. fold (sticker_of media).
  destruct (is_sticker_mimetype (mimetype media)); simpl; [|by intros _].
  intros H. apply andb_prop in H as [H Htrack]. apply andb_prop in H as [Hcreate Hreply].
  apply fulfils_fulfilled in Htrack, Hcreate, Hreply.
  unfold bind at 1. rewrite Hcreate, fire_fulfilled.
  unfold bind at 1. rewrite Hreply, fire_fulfilled.
  rewrite Htrack, fire_fulfilled.
  by rewrite !emitted_app.
Qed.

(** The handler up to the link step, when nothing before it throws. *)
Lemma messageHandler_to_links m ct userNumber generated w :
  resolves env m ct userNumber generated ->
  telemetry_returns env m ->
  sticker_step_returns env m = true ->
  let user := row_of (users w) (userPayload_of m ct userNumber) generated in
  let w2 := emitted (resolution_events m ct userNumber
                     ++ telemetry_events m ct userNumber user
                     ++ sticker_events m user)
              (set_users (fun t => <[userNumber := user]> t) w) in
  messageHandler env m w
  = match when (0 <? Z.of_nat (length (links m)))
               (requestDownload env m user userNumber) w2 with
    | (Returns _, w') => (Returns tt, w')
    | (Throws e, w') =>
        (Returns tt, set_console (fun c => c ++ [e +:+ " Error in message handler"]) w')
    end.
Proof.
  intros Hres Htel Hst user w2.
  rewrite messageHandler_outcome, (messageBody_resolved env m ct userNumber generated w Hres).
  fold user. rewrite afterUpsert_telemetry by done.
  unfold bind at 1. rewrite sticker_step_run by done.
  rewrite !emitted_app. reflexivity.
Qed.

Lemma is_sticker_mimetype_spec mt :
  is_sticker_mimetype mt = true <-> mt = "image/jpeg" \/ mt = "image/png".
Proof.
  unfold is_sticker_mimetype. rewrite orb_true_iff, !String.eqb_eq. done.
Qed.

Lemma only_sticker_prefix m ct userNumber user p :
  (p = is_sticker_create \/ p = is_sticker_reply \/ p = is_sticker_event) ->
  only p (resolution_events m ct userNumber ++ telemetry_events m ct userNumber user) = [].
Proof. by intros [-> | [-> | ->]]. Qed.

(** C9: for a message with media that reaches the download of its media, a
    sticker record, a sticker reply and a [sticker_created] event are issued,
    once each, exactly when the mimetype is "image/jpeg" or "image/png";
    for any other mimetype none of the three is issued. *)
Theorem sticker_iff_jpeg_or_png
    (m : Message) (ct : Contact) (userNumber generated : string)
    (media : MessageMedia) (w : World) :
  resolves env m ct userNumber generated ->
  telemetry_returns env m ->
  hasMedia m = true ->
  downloadMedia m = Returns media ->
  sticker_step_returns env m = true ->
  let user := row_of (users w) (userPayload_of m ct userNumber) generated in
  let calls := added w (snd (messageHandler env m w)) in
  (is_sticker_mimetype (mimetype media) = true
   <-> mimetype media = "image/jpeg" \/ mimetype media = "image/png")
  /\ only is_sticker_create calls
     = (if is_sticker_mimetype (mimetype media)
        then [EvStickerCreate (user_id user) (timestamp m) (body m)] else [])
  /\ only is_sticker_reply calls
     = (if is_sticker_mimetype (mimetype media)
        then [EvReply m (Sticker {| mimetype := mimetype media; data := data media |}
                                 "wwz.gitnasr.com" "WhatsApp Wizard v3.0")]
        else [])
  /\ only is_sticker_event calls
     = (if is_sticker_mimetype (mimetype media)
        then [EvTrackEvent "sticker_created" (user_id user) ""] else []).
Proof.
  intros Hres Htel Hmedia Hdl Hst user calls.
  split; [apply is_sticker_mimetype_spec|].
  assert (Hcalls : exists evs,
             calls = (resolution_events m ct userNumber
                      ++ telemetry_events m ct userNumber user)
                     ++ sticker_events m user ++ evs
             /\ only (fun ev => is_sticker_create ev || is_sticker_reply ev
                                || is_sticker_event ev) evs = []).
  { unfold calls. rewrite (messageHandler_to_links m ct userNumber generated w) by done.
    fold user. set (w2 := emitted _ _).
    destruct (never_when _ (0 <? Z.of_nat (length (links m))) _
                (requestDownload_never_stickers env m user userNumber) w2)
      as (evs & Hw & Hevs).
    exists evs. split; [|done].
    destruct (when _ _ w2) as [[[]|e] w3]; simpl in Hw; subst w3; unfold added, w2; simpl;
      by rewrite <- !app_assoc, drop_app_length. }
  destruct Hcalls as (evs & -> & Hevs).
  assert (Hnone : forall p, (forall ev, p ev = true ->
                     (is_sticker_create ev || is_sticker_reply ev || is_sticker_event ev) = true) ->
                   only p evs = []).
  { intros p Hp. clear -Hevs Hp. induction evs as [|ev evs IH]; [done|].
    simpl in *. destruct (p ev) eqn:E.
    - by rewrite (Hp ev E) in Hevs.
    - apply IH. by destruct (is_sticker_create ev || is_sticker_reply ev || is_sticker_event ev). }
  assert (Hp : forall p,
             (p = is_sticker_create \/ p = is_sticker_reply \/ p = is_sticker_event) ->
             only p ((resolution_events m ct userNumber
                      ++ telemetry_events m ct userNumber user)
                     ++ sticker_events m user ++ evs)
             = only p (sticker_events m user)).
  { intros p Hp. rewrite only_app, only_sticker_prefix, only_app by done.
    rewrite Hnone; [by rewrite app_nil_r|].
    intros ev. destruct Hp as [-> | [-> | ->]]; intros ->; by rewrite ?orb_true_r. }
  rewrite !Hp by auto.
  unfold sticker_events. rewrite Hmedia, Hdl.
  by destruct (is_sticker_mimetype (mimetype media)).
Qed.

(** *** The handler up to its link step, for calls that are only accepted *)

Lemma only_fire_events {A} p ev (s : unawaited A) :
  (forall e, p (EvUnhandledRejection e) = false) ->
  only p (fire_events ev s) = if p ev then [ev] else [].
Proof. intros Hu. destruct s as [e|[a|e]]; simpl; destruct (p ev); by rewrite ?Hu. Qed.

Lemma fire_accepted {A} ev (s : unawaited A) w :
  accepted s = true -> fire ev s w = (Returns tt, emitted (fire_events ev s) w).
Proof. by destruct s. Qed.

Lemma afterUpsert_telemetry_accepted m ct userNumber user w :
  telemetry_accepted env m ->
  afterUpsert env m ct userNumber user w
  = (when (hasMedia m) (makeSticker env m user) ;;;
     when (0 <? Z.of_nat (length (links m))) (requestDownload env m user userNumber))
      (emitted (telemetry_calls env m ct userNumber user) w).
Proof.
  intros (Hid & (json & Hjson) & Htrack).
  unfold afterUpsert, bind at 1. rewrite fire_accepted by done.
  unfold bind at 1, eval. rewrite Hjson.
  unfold bind at 1. rewrite fire_accepted by done. by rewrite emitted_app.
Qed.

Lemma sticker_step_passes_run m user w :
  sticker_step_passes env m = true ->
  when (hasMedia m) (makeSticker env m user) w
  = (Returns tt, emitted (sticker_calls env m user) w).
Proof.
  unfold sticker_step_passes, sticker_calls, when.
  destruct (hasMedia m); simpl; [|intros _; unfold ret; by rewrite emitted_nil].
  unfold makeSticker, bind at 1. rewrite invoke_emitted.
  destruct (downloadMedia m) as [media|e]; [|done].
  unfold when. fold (sticker_of media).
  destruct (is_sticker_mimetype (mimetype media)); simpl; [|by intros _].
  intros H. apply andb_prop in H as [H Htrack]. apply andb_prop in H as [Hcreate Hreply].
  unfold bind at 1. rewrite fire_accepted by done.
  unfold bind at 1. rewrite fire_accepted by done.
  rewrite fire_accepted by done.
  by rewrite !emitted_app, <- ?app_assoc.
Qed.

Lemma messageHandler_reaches_links m ct userNumber generated w :
  resolves env m ct userNumber generated ->
  telemetry_accepted env m ->
  sticker_step_passes env m = true ->
  let user := row_of (users w) (userPayload_of m ct userNumber) generated in
  let w2 := emitted (resolution_events m ct userNumber
                     ++ telemetry_calls env m ct userNumber user
                     ++ sticker_calls env m user)
              (set_users (fun t => <[userNumber := user]> t) w) in
  messageHandler env m w
  = match when (0 <? Z.of_nat (length (links m)))
               (requestDownload env m user userNumber) w2 with
    | (Returns _, w') => (Returns tt, w')
    | (Throws e, w') =>
        (Returns tt, set_console (fun c => c ++ [e +:+ " Error in message handler"]) w')
    end.
Proof.
  intros Hres Htel Hst user w2.
  rewrite messageHandler_outcome, (messageBody_resolved env m ct userNumber generated w Hres).
  fold user. rewrite afterUpsert_telemetry_accepted by done.
  unfold bind at 1. rewrite sticker_step_passes_run by done.
  rewrite !emitted_app. reflexivity.
Qed.

(** The calls before the link step are none of those that [p] selects, when
    [p] selects no lookup, no upsert, no telemetry and nothing of the sticker
    step. *)
Lemma only_before_links p m ct userNumber user :
  (forall mid, p (EvGetChat mid) = false) ->
  (forall mid, p (EvGetContact mid) = false) ->
  (forall mid, p (EvGetFormattedNumber mid) = false) ->
  (forall payload, p (EvUpsertUser payload) = false) ->
  (forall uid payload, p (EvIdentifyUser uid payload) = false) ->
  (forall name uid kind, p (EvTrackEvent name uid kind) = false) ->
  (forall e, p (EvUnhandledRejection e) = false) ->
  (forall mid, p (EvDownloadMedia mid) = false) ->
  (forall uid ts text, p (EvStickerCreate uid ts text) = false) ->
  (forall media, p (EvReply m (sticker_of media)) = false) ->
  only p (resolution_events m ct userNumber
          ++ telemetry_calls env m ct userNumber user
          ++ sticker_calls env m user) = [].
Proof.
  intros H1 H2 H3 H4 H5 H6 H7 H8 H9 H10.
  unfold resolution_events, telemetry_calls, sticker_calls.
  rewrite !only_app, !only_fire_events by done. simpl.
  rewrite H1, H2, H3, H4, H5, H6. simpl.
  destruct (hasMedia m); [|done]. simpl. rewrite H8.
  destruct (downloadMedia m) as [media|e]; [|done].
  destruct (is_sticker_mimetype (mimetype media)); [|done].
  rewrite !only_app, !only_fire_events by done. by rewrite H9, H10, H6.
Qed.

Lemma requestDownload_limited_run m user userNumber w :
  isRatedLimited env userNumber = Returns true ->
  accepted (trackEvent env "rate_limited") = true ->
  requestDownload env m user userNumber w
  = (match reply m (Text rate_limit_notice) with
     | Threw e => Throws e
     | Dropped _ => Returns tt
     end,
     emitted ([EvIsRatedLimited userNumber]
              ++ fire_events (EvTrackEvent "rate_limited" (user_id user) "")
                   (trackEvent env "rate_limited")
              ++ fire_events (EvReply m (Text rate_limit_notice))
                   (reply m (Text rate_limit_notice))) w).
Proof.
  intros Hlim Htrack.
  unfold requestDownload, bind at 1. rewrite invoke_emitted, Hlim.
  unfold bind at 1. rewrite fire_accepted by done.
  by rewrite fire_emitted, !emitted_app, <- ?app_assoc.
Qed.

Lemma requestDownload_admitted_run m user userNumber l more json did w :
  links m = l :: more ->
  isRatedLimited env userNumber = Returns false ->
  downloads_create env = Returns did ->
  JSON_stringify env m = Returns json ->
  accepted (trackEvent env "download_requested") = true ->
  requestDownload env m user userNumber w
  = (match addJobToDownloaderQueue env with
     | Threw e => Throws e
     | Dropped _ => Returns tt
     end,
     emitted ([EvIsRatedLimited userNumber;
               EvDownloadCreate (link l) UNKNOWN (user_id user) (timestamp m)]
              ++ fire_events (EvTrackEvent "download_requested" (user_id user) "")
                   (trackEvent env "download_requested")
              ++ fire_events
                   (EvAddJob (pretty (timestamp m) +:+ "-" +:+ userNumber)
                      {| job_url := link l; job_downloadId := did; job_message := m |})
                   (addJobToDownloaderQueue env)) w).
Proof.
  intros Hlinks Hlim Hcreate Hjson Htrack.
  unfold requestDownload, bind at 1. rewrite invoke_emitted, Hlim, Hlinks. simpl.
  unfold bind at 1. rewrite invoke_emitted, Hcreate.
  unfold bind at 1, eval. rewrite Hjson.
  unfold bind at 1. rewrite fire_accepted by done.
  by rewrite fire_emitted, !emitted_app, <- ?app_assoc.
Qed.

(** A message whose handler reaches the link step with a sender that is not
    limited: the whole run. *)
Lemma messageHandler_admits m ct userNumber generated l more did w :
  resolves env m ct userNumber generated ->
  telemetry_accepted env m ->
  sticker_step_passes env m = true ->
  links m = l :: more ->
  isRatedLimited env userNumber = Returns false ->
  downloads_create env = Returns did ->
  accepted (trackEvent env "download_requested") = true ->
  let user := row_of (users w) (userPayload_of m ct userNumber) generated in
  let w' := snd (messageHandler env m w) in
  users w' = <[userNumber := user]> (users w)
  /\ added w w'
     = (resolution_events m ct userNumber
        ++ telemetry_calls env m ct userNumber user
        ++ sticker_calls env m user)
       ++ [EvIsRatedLimited userNumber;
           EvDownloadCreate (link l) UNKNOWN (user_id user) (timestamp m)]
       ++ fire_events (EvTrackEvent "download_requested" (user_id user) "")
            (trackEvent env "download_requested")
       ++ fire_events
            (EvAddJob (pretty (timestamp m) +:+ "-" +:+ userNumber)
               {| job_url := link l; job_downloadId := did; job_message := m |})
            (addJobToDownloaderQueue env)
  /\ console w'
     = console w ++ match addJobToDownloaderQueue env with
                    | Threw e => [e +:+ " Error in message handler"]
                    | Dropped _ => []
                    end.
Proof.
  intros Hres Htel Hst Hlinks Hlim Hcreate Htrack user w'.
  pose proof Htel as (_ & (json & Hjson) & _).
  unfold w'. rewrite (messageHandler_reaches_links m ct userNumber generated w) by done.
  fold user. rewrite Hlinks.
  change (0 <? Z.of_nat (length (l :: more))) with true. unfold when.
  rewrite (requestDownload_admitted_run m user userNumber l more json did) by done.
  rewrite emitted_app.
  destruct (addJobToDownloaderQueue env) as [e|queued]; cbn [snd].
  - repeat split.
    + unfold added, emitted. simpl. by rewrite drop_app_length.
  - repeat split.
    + apply added_emitted_set_users.
    + simpl. by rewrite app_nil_r.
Qed.

(** C4 (as amended): when the handler gets as far as the rate check and the
    limiter reports the sender as limited, it tracks the rejection and issues
    one text reply, the fixed notice, as the last call of the run; no download
    record is created, no job is queued, no status is updated and no error is
    recorded.  The run is not without effect: the sender's row has been
    written to the user table before the check, and the calls of the sticker
    step have been issued. *)
Theorem rate_limited_request_is_rejected
    (m : Message) (ct : Contact) (userNumber generated : string) (w : World) :
  resolves env m ct userNumber generated ->
  telemetry_accepted env m ->
  sticker_step_passes env m = true ->
  links m <> [] ->
  isRatedLimited env userNumber = Returns true ->
  accepted (trackEvent env "rate_limited") = true ->
  let notice :=
    Text "To save our resources, Please wait a moment before sending another request. R409" in
  let user := row_of (users w) (userPayload_of m ct userNumber) generated in
  let calls := added w (snd (messageHandler env m w)) in
  calls = (resolution_events m ct userNumber
           ++ telemetry_calls env m ct userNumber user
           ++ sticker_calls env m user)
          ++ [EvIsRatedLimited userNumber]
          ++ fire_events (EvTrackEvent "rate_limited" (user_id user) "")
               (trackEvent env "rate_limited")
          ++ fire_events (EvReply m notice) (reply m notice)
  /\ only is_text_reply calls = [EvReply m notice]
  /\ only is_link_step calls = [EvIsRatedLimited userNumber]
  /\ only is_download_create calls = []
  /\ only is_add_job calls = []
  /\ only is_update_status calls = []
  /\ only is_create_error calls = []
  /\ users (snd (messageHandler env m w)) = <[userNumber := user]> (users w)
  /\ only is_sticker_create calls = only is_sticker_create (sticker_calls env m user).
Proof.
  intros Hres Htel Hst Hlinks Hlim Htrack notice user calls.
  set (before := resolution_events m ct userNumber
                 ++ telemetry_calls env m ct userNumber user
                 ++ sticker_calls env m user).
  set (evs := before
              ++ [EvIsRatedLimited userNumber]
              ++ fire_events (EvTrackEvent "rate_limited" (user_id user) "")
                   (trackEvent env "rate_limited")
              ++ fire_events (EvReply m notice) (reply m notice)).
  assert (Hrun : users (snd (messageHandler env m w)) = <[userNumber := user]> (users w)
                 /\ calls = evs).
  { unfold calls. rewrite (messageHandler_reaches_links m ct userNumber generated w) by done.
    fold user. destruct (links m) as [|l more] eqn:El; [done|].
    change (0 <? Z.of_nat (length (l :: more))) with true. unfold when.
    rewrite requestDownload_limited_run by done. rewrite emitted_app.
    change (Text rate_limit_notice) with notice. fold before. fold evs.
    destruct (reply m notice) as [e|sent]; cbn [snd]; (split; [done|]).
    - unfold added, emitted. simpl. by rewrite drop_app_length.
    - apply added_emitted_set_users. }
  destruct Hrun as [Husers Hcalls]. rewrite Hcalls.
  assert (Hbefore : forall p,
            p = is_text_reply \/ p = is_link_step \/ p = is_download_create
            \/ p = is_add_job \/ p = is_update_status \/ p = is_create_error ->
            only p before = []).
  { intros p Hp. apply only_before_links;
      by destruct Hp as [-> | [-> | [-> | [-> | [-> | ->]]]]]. }
  unfold evs.
  rewrite !only_app, !Hbefore, !only_fire_events by (auto 10 || done).
  repeat split; try done.
  unfold before, resolution_events, telemetry_calls.
  rewrite !only_app, !only_fire_events by done. simpl. by rewrite app_nil_r.
Qed.

(** C3 (as amended): a message from a private chat with exactly one link,
    whose handler gets as far as the rate check, whose sender is not limited
    and whose download record is created, leads to one rate check, then one
    download record, created with status UNKNOWN for the resolved user, then
    one submission of a job, keyed by the timestamp and the sender's number,
    that carries the link, the id of that record and the message.  Nothing is
    written on the console unless the call that submits the job throws. *)
Theorem one_link_creates_one_record_and_one_job
    (m : Message) (ct : Contact) (userNumber generated : string)
    (l : Link) (did : string) (w : World) :
  resolves env m ct userNumber generated ->
  telemetry_accepted env m ->
  sticker_step_passes env m = true ->
  links m = [l] ->
  isRatedLimited env userNumber = Returns false ->
  downloads_create env = Returns did ->
  accepted (trackEvent env "download_requested") = true ->
  let w' := snd (messageHandler env m w) in
  exists user,
    users w' !! userNumber = Some user
    /\ only is_download_create (added w w')
       = [EvDownloadCreate (link l) UNKNOWN (user_id user) (timestamp m)]
    /\ only is_add_job (added w w')
       = [EvAddJob (pretty (timestamp m) +:+ "-" +:+ userNumber)
                   {| job_url := link l; job_downloadId := did; job_message := m |}]
    /\ only is_rate_check (added w w') = [EvIsRatedLimited userNumber]
    /\ only is_link_step (added w w') = link_calls m userNumber (user_id user) did l
    /\ console w'
       = console w ++ match addJobToDownloaderQueue env with
                      | Threw e => [e +:+ " Error in message handler"]
                      | Dropped _ => []
                      end.
Proof.
  intros Hres Htel Hst Hlinks Hlim Hcreate Htrack w'.
  set (user := row_of (users w) (userPayload_of m ct userNumber) generated).
  exists user.
  destruct (messageHandler_admits m ct userNumber generated l [] did w)
    as (Husers & Hcalls & Hconsole); try done.
  fold user w' in Husers, Hcalls, Hconsole.
  rewrite Husers, Hcalls, Hconsole.
  split; [by rewrite lookup_insert_eq|].
  set (before := resolution_events m ct userNumber
                 ++ telemetry_calls env m ct userNumber user
                 ++ sticker_calls env m user).
  assert (Hbefore : forall p,
            p = is_download_create \/ p = is_add_job \/ p = is_rate_check
            \/ p = is_link_step ->
            only p before = []).
  { intros p Hp. apply only_before_links; by destruct Hp as [-> | [-> | [-> | ->]]]. }
  rewrite !only_app, !Hbefore, !only_fire_events by (auto || done).
  done.
Qed.

End DispatchClaims.

(** ** The queue's events *)

Section QueueClaims.

Variable env : Env.

Lemma deliver_run message h artifacts : forall w,
  getMessageById env (id_serialized message) = Returns h ->
  trackEvent env "download_response" = fulfilled ->
  Forall (fun a => artifact_delivers env h a = true) artifacts ->
  deliver env message artifacts w
  = (Returns tt, emitted (flat_map (delivery_events env message h) artifacts) w).
Proof.
  intros w Hget Htrack Hall. revert w.
  induction Hall as [|a rest Ha _ IH]; intros w.
  - simpl. unfold ret. by rewrite emitted_nil.
  - unfold artifact_delivers, loaded in Ha.
    simpl deliver. unfold bind at 1. rewrite invoke_emitted.
    simpl flat_map. unfold delivery_events at 1, loaded.
    destruct (fromFilePath env (path a)) as [media|e]; [|done].
    apply andb_prop in Ha as [Ha Hremove]. simpl in Ha.
    apply fulfils_fulfilled in Ha.
    unfold bind at 1. rewrite invoke_emitted, Hget.
    unfold bind at 1. rewrite Ha, fire_fulfilled.
    unfold bind at 1. rewrite invoke_emitted.
    destruct (removeFile env (path a)) as [[]|e]; [|done].
    unfold bind at 1. rewrite Htrack, fire_fulfilled.
    rewrite IH, !emitted_app. reflexivity.
Qed.

Lemma only_delivery_events message h artifacts :
  only is_reply (flat_map (delivery_events env message h) artifacts)
    = (fun a => EvReply h (Media (loaded env a))) <$> artifacts
  /\ only is_remove_file (flat_map (delivery_events env message h) artifacts)
    = (fun a => EvRemoveFile (path a)) <$> artifacts
  /\ only is_get_message (flat_map (delivery_events env message h) artifacts)
    = (fun _ => EvGetMessageById (id_serialized message)) <$> artifacts
  /\ only is_update_status (flat_map (delivery_events env message h) artifacts) = [].
Proof.
  induction artifacts as [|a rest (IH1 & IH2 & IH3 & IH4)]; [done|].
  simpl. by rewrite IH1, IH2, IH3, IH4.
Qed.

(** The loop when every file is read and removed and every reply call is
    accepted, whether the replies are then sent or not. *)
Lemma deliver_accepted_run message h artifacts : forall w,
  getMessageById env (id_serialized message) = Returns h ->
  accepted (trackEvent env "download_response") = true ->
  Forall (fun a => artifact_accepted env h a = true) artifacts ->
  deliver env message artifacts w
  = (Returns tt, emitted (flat_map (delivery_calls env message h) artifacts) w).
Proof.
  intros w Hget Htrack Hall. revert w.
  induction Hall as [|a rest Ha _ IH]; intros w.
  - simpl. unfold ret. by rewrite emitted_nil.
  - unfold artifact_accepted, loaded in Ha.
    simpl deliver. unfold bind at 1. rewrite invoke_emitted.
    simpl flat_map. unfold delivery_calls at 1, loaded.
    destruct (fromFilePath env (path a)) as [media|e]; [|done].
    apply andb_prop in Ha as [Ha Hremove]. simpl in Ha.
    unfold bind at 1. rewrite invoke_emitted, Hget.
    unfold bind at 1. rewrite fire_accepted by done.
    unfold bind at 1. rewrite invoke_emitted.
    destruct (removeFile env (path a)) as [[]|e]; [|done].
    unfold bind at 1. rewrite fire_accepted by done.
    rewrite IH, !emitted_app. by rewrite <- !app_assoc.
Qed.

Lemma only_delivery_calls message h artifacts :
  only is_reply (flat_map (delivery_calls env message h) artifacts)
    = (fun a => EvReply h (Media (loaded env a))) <$> artifacts
  /\ only is_remove_file (flat_map (delivery_calls env message h) artifacts)
    = (fun a => EvRemoveFile (path a)) <$> artifacts
  /\ only is_get_message (flat_map (delivery_calls env message h) artifacts)
    = (fun _ => EvGetMessageById (id_serialized message)) <$> artifacts
  /\ only is_update_status (flat_map (delivery_calls env message h) artifacts) = [].
Proof.
  assert (Hone : forall a,
            only is_reply (delivery_calls env message h a)
              = [EvReply h (Media (loaded env a))]
            /\ only is_remove_file (delivery_calls env message h a) = [EvRemoveFile (path a)]
            /\ only is_get_message (delivery_calls env message h a)
                = [EvGetMessageById (id_serialized message)]
            /\ only is_update_status (delivery_calls env message h a) = []).
  { intros a. unfold delivery_calls. by rewrite !only_app, !only_fire_events. }
  induction artifacts as [|a rest (IH1 & IH2 & IH3 & IH4)]; [done|].
  destruct (Hone a) as (H1 & H2 & H3 & H4).
  cbn [flat_map]. by rewrite !only_app, IH1, IH2, IH3, IH4, H1, H2, H3, H4.
Qed.

(** C5 (as amended): for a [completed] event with k artifacts, when the
    message is re-resolved, every file is read and removed and no call throws,
    the handler re-resolves the message by its id for each artifact, issues k
    reply calls on the re-resolved message, one per artifact and in their
    order, removes the k files, and then, as its last call, sets the record of
    the job to SENT, once.  The replies are not waited for: the record is set
    to SENT after the k reply calls, whether or not the replies are sent. *)
Theorem completed_event_delivers_then_marks_sent
    (job : DownloadJob) (h : Message) (w : World) :
  let message := job_message (job_data job) in
  let artifacts := download (returnvalue job) in
  getMessageById env (id_serialized message) = Returns h ->
  accepted (trackEvent env "download_response") = true ->
  Forall (fun a => artifact_accepted env h a = true) artifacts ->
  downloads_updateStatusById env = Returns tt ->
  let calls := added w (snd (onDownloadCompleted env job w)) in
  fst (onDownloadCompleted env job w) = Returns tt
  /\ calls = flat_map (delivery_calls env message h) artifacts
             ++ [EvUpdateStatus (downloadId (returnvalue job)) SENT]
  /\ only is_reply calls = (fun a => EvReply h (Media (loaded env a))) <$> artifacts
  /\ length (only is_reply calls) = length artifacts
  /\ only is_get_message calls
     = (fun _ => EvGetMessageById (id_serialized message)) <$> artifacts
  /\ only is_remove_file calls = (fun a => EvRemoveFile (path a)) <$> artifacts
  /\ length (only is_remove_file calls) = length artifacts
  /\ only is_update_status calls = [EvUpdateStatus (downloadId (returnvalue job)) SENT]
  /\ last calls = Some (EvUpdateStatus (downloadId (returnvalue job)) SENT)
  /\ console (snd (onDownloadCompleted env job w)) = console w.
Proof.
  intros message artifacts Hget Htrack Hall Hupdate calls.
  assert (Hrun : onDownloadCompleted env job w
                 = (Returns tt,
                    emitted (flat_map (delivery_calls env message h) artifacts
                             ++ [EvUpdateStatus (downloadId (returnvalue job)) SENT]) w)).
  { unfold onDownloadCompleted, try_catch, bind at 1.
    fold message artifacts. rewrite (deliver_accepted_run message h artifacts w) by done.
    by rewrite invoke_emitted, Hupdate, emitted_app. }
  unfold calls. rewrite Hrun. cbn [fst snd]. rewrite added_emitted.
  destruct (only_delivery_calls message h artifacts) as (H1 & H2 & H3 & H4).
  rewrite !only_app, H1, H2, H3, H4, last_snoc. simpl.
  by rewrite !app_nil_r, !length_fmap.
Qed.

(** The listener for [failed], case by case. *)
Lemma onDownloadFailed_run job error w :
  let message := job_message (job_data job) in
  onDownloadFailed env job error w
  = (Returns tt,
     emitted
       (EvGetMessageById (id_serialized message)
        :: match getMessageById env (id_serialized message) with
           | Throws _ => []
           | Returns h =>
               fire_events (EvReply h (Text apology)) (reply h (Text apology))
               ++ match reply h (Text apology), toString error with
                  | Dropped _, Returns failure =>
                      fire_events
                        (EvCreateError failure (job_downloadId (job_data job)))
                        (errors_createError env)
                  | _, _ => []
                  end
           end) w).
Proof.
  intros message.
  unfold onDownloadFailed, try_catch, bind at 1. fold message. rewrite invoke_emitted.
  destruct (getMessageById env (id_serialized message)) as [h|e]; [|done].
  unfold bind at 1. rewrite fire_emitted, emitted_app.
  destruct (reply h (Text apology)) as [e|settles]; [by rewrite app_nil_r|].
  unfold bind at 1, eval.
  destruct (toString error) as [failure|e]; [|by rewrite app_nil_r].
  rewrite fire_emitted, emitted_app, <- app_assoc.
  by destruct (errors_createError env) as [e|[[]|e]].
Qed.

(** C2 (as amended): nothing leaves the listener for [failed], and it writes
    nothing on the console.  When the original message is re-resolved, one
    apology reply to it is issued.  The Error record, with the failure string
    and the id of the download record, is created once, after the reply,
    exactly when the reply call did not throw (whether the reply is then sent
    or not: it is not awaited) and the failure could be turned into a string.
    When the message cannot be re-resolved, or the reply call throws, no Error
    record is created. *)
Theorem failed_event_replies_then_records
    (job : DownloadJob) (error : QueueError) (w : World) :
  let message := job_message (job_data job) in
  let calls := added w (snd (onDownloadFailed env job error w)) in
  fst (onDownloadFailed env job error w) = Returns tt
  /\ console (snd (onDownloadFailed env job error w)) = console w
  /\ match getMessageById env (id_serialized message) with
     | Throws _ =>
         only is_reply calls = [] /\ only is_create_error calls = []
     | Returns h =>
         only is_reply calls = [EvReply h (Text apology)]
         /\ only is_create_error calls
            = match reply h (Text apology), toString error with
              | Dropped _, Returns failure =>
                  [EvCreateError failure (job_downloadId (job_data job))]
              | _, _ => []
              end
     end.
Proof.
  intros message calls. unfold calls.
  rewrite onDownloadFailed_run. fold message. cbn [fst snd]. rewrite added_emitted.
  split; [done|]. split; [done|].
  destruct (getMessageById env (id_serialized message)) as [h|e]; [|done].
  destruct (reply h (Text apology)) as [e|[[]|e]];
    [done| |]; (destruct (toString error) as [failure|e']; [|done]);
    by destruct (errors_createError env) as [e''|[[]|e'']].
Qed.

End QueueClaims.

(** ** The lifecycle *)

Section LifecycleClaims.

Variable env : Env.

(** After [setupWhatsAppEventHandlers] on a new instance there is one listener
    for [ready], and it is a [once] listener. *)
Lemma setup_listeners w :
  listeners w = [] ->
  setupWhatsAppEventHandlers w
  = (Returns tt,
     set_listeners (fun _ => [{| l_event := authenticated; l_once := false |};
                              {| l_event := auth_failure; l_once := false |};
                              {| l_event := disconnected; l_once := false |};
                              {| l_event := ready; l_once := true |};
                              {| l_event := qr; l_once := false |}]) w).
Proof.
  intros Hl. unfold setupWhatsAppEventHandlers, on, once, bind, modify, set_listeners.
  simpl. by rewrite Hl.
Qed.

(** The callback for [ready] adds no listener for [ready]. *)
Lemma readyCallback_listeners w :
  exists more,
    listeners (snd (readyCallback env w)) = listeners w ++ more
    /\ filter on_ready more = [].
Proof.
  assert (Hrest : forall w2, listeners w2 = listeners w ->
            exists more,
              listeners (snd ((setupMessageHandler ;;; RegisterMessageCheck ;;;
                               registerBlockOnCalls) w2)) = listeners w ++ more
              /\ filter on_ready more = []).
  { intros w2 Hw2.
    exists [{| l_event := message; l_once := false |};
            {| l_event := DownloadCompleted; l_once := false |};
            {| l_event := DownloadFailed; l_once := false |};
            {| l_event := broadcast_requested; l_once := false |};
            {| l_event := call; l_once := false |}].
    split; [|done]. simpl. rewrite Hw2. by rewrite <- !app_assoc. }
  unfold readyCallback, bind at 1, modify. cbn [fst snd].
  unfold bind at 1. rewrite fire_emitted.
  destruct (telegram_sendMessage env _) as [e|sent];
    [exists []; by rewrite app_nil_r|].
  unfold bind at 1. rewrite fire_emitted.
  destruct (trackEvent env "system_event") as [e|tracked];
    [exists []; by rewrite app_nil_r|].
  unfold bind at 1, gets. cbn [fst snd].
  set (w1 := emitted _ (emitted _ _)).
  assert (Hw1 : listeners w1 = listeners w) by done.
  unfold bind at 1.
  destruct (QrCodeMessageId w1) as [ref|]; [|by apply Hrest].
  unfold when. destruct (truthy (Some ref)); [|by apply Hrest].
  unfold bind at 1. rewrite fire_emitted.
  destruct (telegram_deleteMessage env ref) as [e|deleted];
    [exists []; by rewrite app_nil_r|].
  unfold bind at 1, modify. cbn [fst snd].
  unfold bind at 1, not_awaited, clearQRCodes. rewrite invoke_emitted.
  destruct (removeFile env (qrCodePath env)) as [[]|e]; rewrite fire_emitted;
    cbn [fst snd]; by apply Hrest.
Qed.

(** Once [ready] has fired, no listener for it is left, and a second [ready]
    does nothing at all. *)
Lemma emit_ready_once w :
  filter on_ready (listeners w) = [{| l_event := ready; l_once := true |}] ->
  filter on_ready (listeners (snd (emit_ready env w))) = []
  /\ emit_ready env (snd (emit_ready env w)) = (Returns tt, snd (emit_ready env w)).
Proof.
  intros Hl.
  assert (Hgone : filter on_ready (listeners (snd (emit_ready env w))) = []).
  { unfold emit_ready, emit, bind at 1, gets. cbn [fst snd].
    fold on_ready. rewrite Hl. simpl callListeners.
    unfold bind at 1, modify. cbn [fst snd].
    set (w1 := set_listeners _ w).
    assert (Hw1 : filter on_ready (listeners w1) = []).
    { unfold w1. simpl. clear -Hl. induction (listeners w) as [|x rest IH]; [done|].
      simpl. rewrite filter_cons in Hl.
      destruct (decide (on_ready x)) as [Hx|Hx].
      - injection Hl as -> Hrest. simpl. exact Hrest.
      - replace (listener_eqb x {| l_event := ready; l_once := true |}) with false.
        + rewrite filter_cons. destruct (decide (on_ready x)); [done|]. by apply IH.
        + unfold on_ready, listener_eqb in *. simpl.
          destruct (event_eqb (l_event x) ready); [by destruct Hx|done]. }
    destruct (readyCallback_listeners w1) as (more & Hmore & Hnone).
    unfold bind at 1.
    destruct (readyCallback env w1) as [[[]|e] w2]; simpl in *;
      by rewrite Hmore, filter_app, Hw1, Hnone. }
  split; [done|].
  unfold emit_ready at 1, emit, bind, gets. cbn [fst snd].
  fold on_ready. by rewrite Hgone.
Qed.

Ltac run_registrations :=
  apply World_eq;
  cbn [setupMessageHandler RegisterMessageCheck registerBlockOnCalls onQueueMessage
       onTelegramMessage on start setInterval bind modify ret emitted
       set_trace set_listeners set_started set_intervals set_isAuthenticated
       set_QrCodeMessageId fst snd trace console users isAuthenticated unreadChats
       QrCodeMessageId listeners started intervals].

(** The first [ready], when the notice and the telemetry go through. *)
Lemma emit_ready_first w :
  filter on_ready (listeners w) = [{| l_event := ready; l_once := true |}] ->
  telegram_sendMessage env "WhatsApp client is ready!" = fulfilled ->
  trackEvent env "system_event" = fulfilled ->
  (forall ref, telegram_deleteMessage env ref = fulfilled) ->
  removeFile env (qrCodePath env) = Returns tt ->
  exists evs,
    snd (emit_ready env w)
    = emitted evs
        (set_listeners (fun ls => remove_first {| l_event := ready; l_once := true |} ls
                                  ++ [{| l_event := message; l_once := false |};
                                      {| l_event := DownloadCompleted; l_once := false |};
                                      {| l_event := DownloadFailed; l_once := false |};
                                      {| l_event := broadcast_requested; l_once := false |};
                                      {| l_event := call; l_once := false |}])
           (set_started (fun ts => ts ++ [UnreadPass])
              (set_intervals (fun ts => ts ++ [(15000, UnreadPassIfAuthenticated)])
                 (set_isAuthenticated true
                    (set_QrCodeMessageId
                       (if truthy (QrCodeMessageId w) then None
                        else QrCodeMessageId w) w)))))
    /\ only is_telegram_send evs = [EvTelegramSend "WhatsApp client is ready!"]
    /\ only is_telegram_delete evs
       = match QrCodeMessageId w with
         | Some ref => if truthy (Some ref) then [EvTelegramDelete ref] else []
         | None => []
         end
    /\ only is_get_chats evs = [EvGetChats].
Proof.
  intros Hw1 Hsend Htrack Hdelete Hremove.
  unfold emit_ready, emit, bind at 1, gets. cbn [fst snd].
  fold on_ready. rewrite Hw1. simpl callListeners.
  unfold bind at 1, modify. cbn [fst snd].
  unfold bind at 1, readyCallback, bind at 1, modify. cbn [fst snd].
  unfold bind at 1. rewrite Hsend, fire_fulfilled.
  unfold bind at 1. rewrite Htrack, fire_fulfilled.
  unfold bind at 1, gets. cbn [fst snd].
  rewrite !emitted_app.
  change (QrCodeMessageId (emitted ?evs (set_isAuthenticated true (set_listeners ?f w))))
    with (QrCodeMessageId w).
  destruct (QrCodeMessageId w) as [ref|] eqn:Eq;
    [unfold when; destruct (truthy (Some ref)) eqn:Et|].
  - unfold bind at 1. unfold bind at 1. rewrite Hdelete, fire_fulfilled.
    unfold bind at 1, modify. cbn [fst snd].
    unfold bind at 1, not_awaited, clearQRCodes. rewrite invoke_emitted, Hremove.
    rewrite fire_fulfilled. cbn [fst snd].
    exists [EvTelegramSend "WhatsApp client is ready!";
            EvTrackEvent "system_event" "system" "whatsapp_ready";
            EvTelegramDelete ref;
            EvRemoveFile (qrCodePath env);
            EvTrackEvent "system_event" "system" "qrcode_authentication_completed";
            EvGetChats].
    split; [|by repeat split].
    run_registrations; rewrite <- ?app_assoc; reflexivity.
  - exists [EvTelegramSend "WhatsApp client is ready!";
            EvTrackEvent "system_event" "system" "whatsapp_ready";
            EvGetChats].
    split; [|by repeat split].
    run_registrations; rewrite <- ?app_assoc, ?Eq, ?Et; reflexivity.
  - exists [EvTelegramSend "WhatsApp client is ready!";
            EvTrackEvent "system_event" "system" "whatsapp_ready";
            EvGetChats].
    split; [|by repeat split].
    run_registrations; rewrite <- ?app_assoc, ?Eq, ?Et; reflexivity.
Qed.

(** C7: on an instance whose listeners were set up once, the first [ready]
    registers each handler once, starts one reconciliation pass (which calls
    [getChats], once) and one timer, sends the ready notice once and, when a
    QR prompt is on display, retracts it once and forgets it; a second [ready]
    finds no listener and changes nothing. *)
Theorem ready_is_handled_once (w0 : World) :
  listeners w0 = [] ->
  telegram_sendMessage env "WhatsApp client is ready!" = fulfilled ->
  trackEvent env "system_event" = fulfilled ->
  (forall ref, telegram_deleteMessage env ref = fulfilled) ->
  removeFile env (qrCodePath env) = Returns tt ->
  let w1 := snd (setupWhatsAppEventHandlers w0) in
  let w2 := snd (emit_ready env w1) in
  let w3 := snd (emit_ready env w2) in
  emit_ready env w2 = (Returns tt, w2)
  /\ w3 = w2
  /\ listeners w3
     = [{| l_event := authenticated; l_once := false |};
        {| l_event := auth_failure; l_once := false |};
        {| l_event := disconnected; l_once := false |};
        {| l_event := qr; l_once := false |};
        {| l_event := message; l_once := false |};
        {| l_event := DownloadCompleted; l_once := false |};
        {| l_event := DownloadFailed; l_once := false |};
        {| l_event := broadcast_requested; l_once := false |};
        {| l_event := call; l_once := false |}]
  /\ started w3 = started w0 ++ [UnreadPass]
  /\ intervals w3 = intervals w0 ++ [(15000, UnreadPassIfAuthenticated)]
  /\ only is_telegram_send (added w0 w3) = [EvTelegramSend "WhatsApp client is ready!"]
  /\ only is_telegram_delete (added w0 w3)
     = match QrCodeMessageId w0 with
       | Some ref => if truthy (Some ref) then [EvTelegramDelete ref] else []
       | None => []
       end
  /\ (truthy (QrCodeMessageId w0) = true -> QrCodeMessageId w3 = None)
  /\ only is_get_chats (added w0 w3) = [EvGetChats].
Proof.
  intros Hl Hsend Htrack Hdelete Hremove w1 w2 w3.
  assert (Hw1 : filter on_ready (listeners w1) = [{| l_event := ready; l_once := true |}]).
  { unfold w1. by rewrite setup_listeners. }
  destruct (emit_ready_once w1 Hw1) as [_ Hsecond]. fold w2 in Hsecond.
  split; [done|]. unfold w3. rewrite Hsecond. cbn [snd]. split; [done|].
  assert (Hq : QrCodeMessageId w1 = QrCodeMessageId w0).
  { unfold w1. by rewrite setup_listeners. }
  destruct (emit_ready_first w1 Hw1 Hsend Htrack Hdelete Hremove)
    as (evs & Hw2 & Hsends & Hdeletes & Hchats).
  fold w2 in Hw2. rewrite Hq in Hw2, Hdeletes. rewrite Hw2.
  assert (Hadded : forall f, added w0 (emitted evs (set_listeners f
             (set_started (fun ts => ts ++ [UnreadPass])
                (set_intervals (fun ts => ts ++ [(15000, UnreadPassIfAuthenticated)])
                   (set_isAuthenticated true
                      (set_QrCodeMessageId
                         (if truthy (QrCodeMessageId w0) then None
                          else QrCodeMessageId w0) w1)))))) = evs).
  { intros f. unfold added, w1. rewrite setup_listeners by done. simpl.
    by rewrite drop_app_length. }
  rewrite Hadded. unfold w1. rewrite setup_listeners by done. simpl.
  repeat split; try done.
  by intros ->.
Qed.

End LifecycleClaims.

(** ** The theorems at sample inputs *)

Lemma inbound_failures_are_isolated_witness :
  let ms := [broken_message "m1"; text_message "m2" 8 one_link] in
  (forall m w0,
      fst (messageHandler (healthy []) m w0) = Returns tt
      /\ (forall e, fst (messageBody (healthy []) m w0) = Throws e ->
            console (snd (messageHandler (healthy []) m w0))
              = console w0 ++ [e +:+ " Error in message handler"])
      /\ (fst (messageBody (healthy []) m w0) = Returns tt ->
            console (snd (messageHandler (healthy []) m w0)) = console w0)
      /\ (no_dropped_rejection (healthy []) m ->
            only is_unhandled (added w0 (snd (messageHandler (healthy []) m w0))) = []))
  /\ fst (emit_messages (healthy []) ms listening) = Returns tt
  /\ only is_get_chat (added listening (snd (emit_messages (healthy []) ms listening)))
     = [EvGetChat "m1"; EvGetChat "m2"].
Proof.
  apply (inbound_failures_are_isolated (healthy [])
           [broken_message "m1"; text_message "m2" 8 one_link] listening).
  reflexivity.
Defined.

(** C8 as stated fails for the calls the handler does not await.  An image
    arrives, the sticker reply is called and its promise rejects: the handler
    ends normally, writes nothing on the console, and the rejection is left
    unhandled.  The same when the promise of the queue submission rejects. *)
Lemma inbound_rejection_escapes_handler :
  (let r := messageHandler (healthy []) (undeliverable_image "m1") new_WhatsApp in
   fst r = Returns tt
   /\ console (snd r) = []
   /\ only is_sticker_reply (added new_WhatsApp (snd r))
      = [EvReply (undeliverable_image "m1")
                 (Sticker {| mimetype := "image/png"; data := "AAAA" |}
                          "wwz.gitnasr.com" "WhatsApp Wizard v3.0")]
   /\ only is_unhandled (added new_WhatsApp (snd r))
      = [EvUnhandledRejection "Evaluation failed"])
  /\ (let env := collaborators false (Dropped (Throws "Connection is closed.")) []
                   (fun id => Returns (text_message id 7 [])) in
      let r := messageHandler env (text_message "m2" 8 one_link) new_WhatsApp in
      fst r = Returns tt
      /\ console (snd r) = []
      /\ last (added new_WhatsApp (snd r))
         = Some (EvUnhandledRejection "Connection is closed.")).
Proof. repeat split. Qed.

Lemma sticker_iff_jpeg_or_png_witness :
  let m := media_message "m1" 7 "image/png" in
  let calls := added new_WhatsApp (snd (messageHandler (healthy []) m new_WhatsApp)) in
  (is_sticker_mimetype "image/png" = true
   <-> "image/png" = "image/jpeg" \/ "image/png" = "image/png")
  /\ only is_sticker_create calls = [EvStickerCreate "user-1" 7 ""]
  /\ only is_sticker_reply calls
     = [EvReply m (Sticker {| mimetype := "image/png"; data := "AAAA" |}
                           "wwz.gitnasr.com" "WhatsApp Wizard v3.0")]
  /\ only is_sticker_event calls = [EvTrackEvent "sticker_created" "user-1" ""].
Proof.
  apply (sticker_iff_jpeg_or_png (healthy []) (media_message "m1" 7 "image/png") ada
           "+20 100 000 0000" "user-1" {| mimetype := "image/png"; data := "AAAA" |}
           new_WhatsApp).
  - repeat split. by exists private_chat.
  - repeat split. by exists "{}".
  - reflexivity.
  - reflexivity.
  - reflexivity.
Defined.

Lemma rate_limited_request_is_rejected_witness :
  let env := strict in
  let m := text_message "m1" 7 one_link in
  let notice :=
    Text "To save our resources, Please wait a moment before sending another request. R409" in
  let user := {| user_id := "user-1"; user_name := "Ada";
                 user_phone := "+20 100 000 0000"; user_platform := "android";
                 user_country := "+20" |} in
  let calls := added new_WhatsApp (snd (messageHandler env m new_WhatsApp)) in
  calls = (resolution_events m ada "+20 100 000 0000"
           ++ telemetry_calls env m ada "+20 100 000 0000" user
           ++ sticker_calls env m user)
          ++ [EvIsRatedLimited "+20 100 000 0000"]
          ++ fire_events (EvTrackEvent "rate_limited" (user_id user) "")
               (trackEvent env "rate_limited")
          ++ fire_events (EvReply m notice) (reply m notice)
  /\ only is_text_reply calls = [EvReply m notice]
  /\ only is_link_step calls = [EvIsRatedLimited "+20 100 000 0000"]
  /\ only is_download_create calls = []
  /\ only is_add_job calls = []
  /\ only is_update_status calls = []
  /\ only is_create_error calls = []
  /\ users (snd (messageHandler env m new_WhatsApp))
     = <["+20 100 000 0000" := user]> (users new_WhatsApp)
  /\ only is_sticker_create calls = only is_sticker_create (sticker_calls env m user).
Proof.
  apply (rate_limited_request_is_rejected strict (text_message "m1" 7 one_link) ada
           "+20 100 000 0000" "user-1" new_WhatsApp).
  - repeat split. by exists private_chat.
  - repeat split. by exists "{}".
  - reflexivity.
  - discriminate.
  - reflexivity.
  - reflexivity.
Defined.

(** C4 as stated fails.  A limited sender whose message has a link and an
    attachment that cannot be downloaded gets no notice, and the limiter is
    not even asked: the handler has stopped at the download.  And a limited
    sender who does get the notice is, from then on, a row in the user
    table. *)
Lemma rate_limited_request_is_not_without_effect :
  let unseen := lost_media "m1" in
  let seen := text_message "m2" 7 one_link in
  let calls m := added new_WhatsApp (snd (messageHandler strict m new_WhatsApp)) in
  (links unseen <> []
   /\ isRatedLimited strict "+20 100 000 0000" = Returns true
   /\ only is_reply (calls unseen) = []
   /\ only is_rate_check (calls unseen) = [])
  /\ (links seen <> []
      /\ only is_text_reply (calls seen) = [EvReply seen (Text rate_limit_notice)]
      /\ users new_WhatsApp !! "+20 100 000 0000" = None
      /\ users (snd (messageHandler strict seen new_WhatsApp)) !! "+20 100 000 0000"
         = Some {| user_id := "user-1"; user_name := "Ada";
                   user_phone := "+20 100 000 0000"; user_platform := "android";
                   user_country := "+20" |}).
Proof. repeat split; discriminate. Qed.

Lemma one_link_creates_one_record_and_one_job_witness :
  let m := text_message "m1" 1700000000 one_link in
  let w' := snd (messageHandler (healthy []) m new_WhatsApp) in
  exists user,
    users w' !! "+20 100 000 0000" = Some user
    /\ only is_download_create (added new_WhatsApp w')
       = [EvDownloadCreate "https://example.com/video" UNKNOWN (user_id user) 1700000000]
    /\ only is_add_job (added new_WhatsApp w')
       = [EvAddJob (pretty 1700000000 +:+ "-" +:+ "+20 100 000 0000")
                   {| job_url := "https://example.com/video";
                      job_downloadId := "download-1"; job_message := m |}]
    /\ only is_rate_check (added new_WhatsApp w') = [EvIsRatedLimited "+20 100 000 0000"]
    /\ only is_link_step (added new_WhatsApp w')
       = link_calls m "+20 100 000 0000" (user_id user) "download-1"
           {| link := "https://example.com/video"; isSuspicious := false |}
    /\ console w'
       = console new_WhatsApp
         ++ match addJobToDownloaderQueue (healthy []) with
            | Threw e => [e +:+ " Error in message handler"]
            | Dropped _ => []
            end.
Proof.
  apply (one_link_creates_one_record_and_one_job (healthy [])
           (text_message "m1" 1700000000 one_link) ada "+20 100 000 0000" "user-1"
           {| link := "https://example.com/video"; isSuspicious := false |}
           "download-1" new_WhatsApp).
  - repeat split. by exists private_chat.
  - repeat split. by exists "{}".
  - reflexivity.
  - reflexivity.
  - reflexivity.
  - reflexivity.
  - reflexivity.
Defined.

(** C3 as stated fails.  A message from a private chat with exactly one
    link and a sender who is not limited, but with an attachment that cannot
    be downloaded: the handler stops at the download, which is in the same
    [try] as the link step, and there is no rate check, no record and no
    job. *)
Lemma one_link_without_record_or_job :
  let m := lost_media "m1" in
  let calls := added new_WhatsApp (snd (messageHandler (healthy []) m new_WhatsApp)) in
  getChat m = Returns private_chat
  /\ length (links m) = 1%nat
  /\ isRatedLimited (healthy []) "+20 100 000 0000" = Returns false
  /\ only is_rate_check calls = []
  /\ only is_download_create calls = []
  /\ only is_add_job calls = []
  /\ console (snd (messageHandler (healthy []) m new_WhatsApp))
     = ["Media not found" +:+ " Error in message handler"].
Proof. by repeat split. Qed.

Lemma completed_event_delivers_then_marks_sent_witness :
  let h := text_message "m1" 7 [] in
  let video := {| mimetype := "video/mp4"; data := "AAAA" |} in
  let calls := added new_WhatsApp (snd (onDownloadCompleted (healthy []) sample_job new_WhatsApp)) in
  fst (onDownloadCompleted (healthy []) sample_job new_WhatsApp) = Returns tt
  /\ calls = [EvFromFilePath "/tmp/a.mp4"; EvGetMessageById "m1"; EvReply h (Media video);
              EvRemoveFile "/tmp/a.mp4";
              EvTrackEvent "download_response" "201000000000@c.us" "";
              EvFromFilePath "/tmp/b.mp4"; EvGetMessageById "m1"; EvReply h (Media video);
              EvRemoveFile "/tmp/b.mp4";
              EvTrackEvent "download_response" "201000000000@c.us" "";
              EvUpdateStatus "download-1" SENT]
  /\ only is_reply calls = [EvReply h (Media video); EvReply h (Media video)]
  /\ length (only is_reply calls) = 2%nat
  /\ only is_get_message calls = [EvGetMessageById "m1"; EvGetMessageById "m1"]
  /\ only is_remove_file calls = [EvRemoveFile "/tmp/a.mp4"; EvRemoveFile "/tmp/b.mp4"]
  /\ length (only is_remove_file calls) = 2%nat
  /\ only is_update_status calls = [EvUpdateStatus "download-1" SENT]
  /\ last calls = Some (EvUpdateStatus "download-1" SENT)
  /\ console (snd (onDownloadCompleted (healthy []) sample_job new_WhatsApp)) = [].
Proof.
  apply (completed_event_delivers_then_marks_sent (healthy []) sample_job
           (text_message "m1" 7 []) new_WhatsApp).
  - reflexivity.
  - reflexivity.
  - repeat constructor.
  - reflexivity.
Defined.

(** C5 as stated fails.  The client resolves the message, but neither of
    the two replies is sent: their promises reject, which nobody waits for.
    The record is set to SENT all the same, as the last call of the run, and
    nothing is written on the console. *)
Lemma completed_event_marks_sent_undelivered :
  let r := onDownloadCompleted muted sample_job new_WhatsApp in
  let calls := added new_WhatsApp (snd r) in
  (forall content, reply (undeliverable_image "m1") content
                   = Dropped (Throws "Evaluation failed"))
  /\ fst r = Returns tt
  /\ only is_unhandled calls
     = [EvUnhandledRejection "Evaluation failed"; EvUnhandledRejection "Evaluation failed"]
  /\ only is_update_status calls = [EvUpdateStatus "download-1" SENT]
  /\ last calls = Some (EvUpdateStatus "download-1" SENT)
  /\ console (snd r) = [].
Proof. by repeat split. Qed.

(** C2 as stated fails.  When the reply call throws, the reply was attempted
    but no Error record is created; when the message cannot be re-resolved,
    neither a reply nor an Error record is issued.  Both failures are
    swallowed. *)
Lemma failed_event_reply_throws_no_record :
  (let env := collaborators false fulfilled [] (fun id => Returns (unanswerable id)) in
   let r := onDownloadFailed env sample_job sample_error new_WhatsApp in
   reply (unanswerable "m1") (Text apology) = Threw "Cannot read properties of undefined"
   /\ fst r = Returns tt
   /\ added new_WhatsApp (snd r)
      = [EvGetMessageById "m1"; EvReply (unanswerable "m1") (Text apology)]
   /\ only is_create_error (added new_WhatsApp (snd r)) = [])
  /\ (let env := collaborators false fulfilled [] (fun id => Throws "message not found") in
      let r := onDownloadFailed env sample_job sample_error new_WhatsApp in
      fst r = Returns tt
      /\ only is_reply (added new_WhatsApp (snd r)) = []
      /\ only is_create_error (added new_WhatsApp (snd r)) = []).
Proof. repeat split. Qed.

Lemma ready_is_handled_once_witness :
  let env := healthy [] in
  let w1 := snd (setupWhatsAppEventHandlers awaiting_scan) in
  let w2 := snd (emit_ready env w1) in
  let w3 := snd (emit_ready env w2) in
  emit_ready env w2 = (Returns tt, w2)
  /\ w3 = w2
  /\ listeners w3
     = [{| l_event := authenticated; l_once := false |};
        {| l_event := auth_failure; l_once := false |};
        {| l_event := disconnected; l_once := false |};
        {| l_event := qr; l_once := false |};
        {| l_event := message; l_once := false |};
        {| l_event := DownloadCompleted; l_once := false |};
        {| l_event := DownloadFailed; l_once := false |};
        {| l_event := broadcast_requested; l_once := false |};
        {| l_event := call; l_once := false |}]
  /\ started w3 = [UnreadPass]
  /\ intervals w3 = [(15000, UnreadPassIfAuthenticated)]
  /\ only is_telegram_send (added awaiting_scan w3)
     = [EvTelegramSend "WhatsApp client is ready!"]
  /\ only is_telegram_delete (added awaiting_scan w3) = [EvTelegramDelete 42]
  /\ (true = true -> QrCodeMessageId w3 = None)
  /\ only is_get_chats (added awaiting_scan w3) = [EvGetChats].
Proof.
  apply (ready_is_handled_once (healthy []) awaiting_scan).
  - reflexivity.
  - reflexivity.
  - reflexivity.
  - intros ref. reflexivity.
  - reflexivity.
Defined.

(** * More of the class

    Properties of the same handlers beyond the claims, and of the functions
    the claims do not reach. *)

(** ** More of the inbound path *)

Section MoreInbound.

Variable env : Env.

(** What a run of the handler adds to the trace, for a test that the calls
    before the upsert do not satisfy. *)
Lemma messageHandler_adds_none (p : Event -> bool) m w :
  (forall mid, p (EvGetChat mid) = false) ->
  (forall mid, p (EvGetContact mid) = false) ->
  (forall mid, p (EvGetFormattedNumber mid) = false) ->
  (forall payload, p (EvUpsertUser payload) = false) ->
  (forall ct num user, never p (afterUpsert env m ct num user)) ->
  only p (added w (snd (messageHandler env m w))) = [].
Proof.
  intros Hp0 Hp1 Hp2 Hp3 Hnever.
  destruct (messageBody_calls env p m w Hp1 Hp2 Hp3 Hnever) as (evs & Ht & Hevs & _).
  assert (Htrace : trace (snd (messageHandler env m w)) = trace (snd (messageBody env m w))).
  { rewrite messageHandler_outcome. by destruct (messageBody env m w) as [[[]|e] w']. }
  unfold added. rewrite Htrace, Ht, drop_app_length. simpl. by rewrite Hp0.
Qed.

(** X1: a message without links never reaches the link path, whatever else it
    carries and whatever the collaborators do: the rate limiter is not asked,
    no download record is created and no job is queued. *)
Theorem no_links_no_download (m : Message) (w : World) :
  links m = [] ->
  only is_link_step (added w (snd (messageHandler env m w))) = [].
Proof.
  intros Hlinks. apply messageHandler_adds_none; try done.
  intros ct num user. unfold afterUpsert. rewrite Hlinks. simpl.
  unfold makeSticker. never_steps.
Qed.

Lemma requestDownload_gated m user userNumber :
  (forall key, isRatedLimited env key <> Returns false) ->
  never is_admission (requestDownload env m user userNumber).
Proof.
  intros Hgate w. unfold requestDownload, bind at 1. rewrite invoke_emitted.
  destruct (isRatedLimited env userNumber) as [[|]|e] eqn:Hlim.
  - assert (Hrest : never is_admission
              (fire (EvTrackEvent "rate_limited" (user_id user) "")
                    (trackEvent env "rate_limited") ;;;
               fire (EvReply m (Text rate_limit_notice))
                    (reply m (Text rate_limit_notice)))) by never_steps.
    destruct (Hrest (emitted [EvIsRatedLimited userNumber] w)) as (evs & -> & Hevs).
    exists (EvIsRatedLimited userNumber :: evs). by rewrite emitted_app.
  - by destruct (Hgate userNumber).
  - by exists [EvIsRatedLimited userNumber].
Qed.

(** X2: the rate limiter cannot be bypassed.  When it never answers "not
    limited" (it answers "limited" or fails), no message, whatever it carries
    and whatever the other collaborators do, leads to a download record or to a
    queued job. *)
Theorem no_admission_without_the_limiter (m : Message) (w : World) :
  (forall key, isRatedLimited env key <> Returns false) ->
  only is_admission (added w (snd (messageHandler env m w))) = [].
Proof.
  intros Hgate. apply messageHandler_adds_none; try done.
  intros ct num user. unfold afterUpsert.
  apply never_bind; [by apply never_fire|]. intros _.
  apply never_bind; [apply never_eval|]. intros _.
  apply never_bind; [by apply never_fire|]. intros _.
  apply never_bind; [apply never_when; unfold makeSticker; never_steps|]. intros _.
  apply never_when. by apply requestDownload_gated.
Qed.

(** X3: a message from a group, or from a read-only chat, is ignored after the
    look at its chat: nothing else is called, no user is stored and nothing is
    written on the console, whatever media and links it carries. *)
Theorem group_messages_are_ignored (m : Message) (ci : ChatInfo) (w : World) :
  getChat m = Returns ci ->
  isGroup ci || isReadOnly ci = true ->
  messageHandler env m w = (Returns tt, emitted [EvGetChat (id_serialized m)] w)
  /\ added w (snd (messageHandler env m w)) = [EvGetChat (id_serialized m)]
  /\ users (snd (messageHandler env m w)) = users w
  /\ console (snd (messageHandler env m w)) = console w.
Proof.
  intros Hci Hgroup.
  assert (Hrun : messageHandler env m w
                 = (Returns tt, emitted [EvGetChat (id_serialized m)] w)).
  { unfold messageHandler, try_catch, messageBody, bind at 1.
    by rewrite invoke_emitted, Hci, Hgroup. }
  rewrite Hrun. cbn [snd]. by rewrite added_emitted.
Qed.

(** X4: when the media of a message cannot be downloaded, the handler stops
    there: the failure is written on the console and, even if the message has
    links, the rate limiter is not asked and nothing is recorded or queued.
    The sender's row has been stored by then. *)
Theorem failed_media_download_stops_the_handler
    (m : Message) (ct : Contact) (userNumber generated e : string) (w : World) :
  resolves env m ct userNumber generated ->
  telemetry_returns env m ->
  hasMedia m = true ->
  downloadMedia m = Throws e ->
  let user := row_of (users w) (userPayload_of m ct userNumber) generated in
  added w (snd (messageHandler env m w))
    = resolution_events m ct userNumber
      ++ telemetry_events m ct userNumber user
      ++ [EvDownloadMedia (id_serialized m)]
  /\ only is_link_step (added w (snd (messageHandler env m w))) = []
  /\ console (snd (messageHandler env m w))
     = console w ++ [e +:+ " Error in message handler"]
  /\ users (snd (messageHandler env m w)) !! userNumber = Some user.
Proof.
  intros Hres Htel Hmedia Hdl user.
  assert (Hrun : messageHandler env m w
                 = (Returns tt,
                    set_console (fun c => c ++ [e +:+ " Error in message handler"])
                      (emitted (resolution_events m ct userNumber
                                ++ telemetry_events m ct userNumber user
                                ++ [EvDownloadMedia (id_serialized m)])
                         (set_users (fun t => <[userNumber := user]> t) w)))).
  { rewrite messageHandler_outcome, (messageBody_resolved env m ct userNumber generated w Hres).
    fold user. rewrite afterUpsert_telemetry by done.
    unfold bind at 1. rewrite Hmedia. unfold when, makeSticker, bind at 1.
    by rewrite invoke_emitted, Hdl, !emitted_app. }
  rewrite Hrun. cbn [snd].
  assert (Hadded : added w
            (set_console (fun c => c ++ [e +:+ " Error in message handler"])
               (emitted (resolution_events m ct userNumber
                         ++ telemetry_events m ct userNumber user
                         ++ [EvDownloadMedia (id_serialized m)])
                  (set_users (fun t => <[userNumber := user]> t) w)))
          = resolution_events m ct userNumber
            ++ telemetry_events m ct userNumber user
            ++ [EvDownloadMedia (id_serialized m)]).
  { unfold added, emitted. simpl. by rewrite drop_app_length. }
  rewrite Hadded. repeat split; try done.
  simpl. by rewrite lookup_insert_eq.
Qed.

(** A run of the [try] block either resolves the sender, or ends with calls
    that are all among the lookups and the upsert. *)
Lemma messageBody_unresolved_or_resolved m w :
  (exists ct userNumber generated, resolves env m ct userNumber generated)
  \/ (exists r pre,
        messageBody env m w = (r, emitted pre w)
        /\ forall p,
             (forall mid, p (EvGetChat mid) = false) ->
             (forall mid, p (EvGetContact mid) = false) ->
             (forall mid, p (EvGetFormattedNumber mid) = false) ->
             (forall payload, p (EvUpsertUser payload) = false) ->
             only p pre = []).
Proof.
  destruct (getChat m) as [ci|e] eqn:Hci; cycle 1.
  { right. exists (Throws e), [EvGetChat (id_serialized m)]. split.
    - unfold messageBody, bind at 1. by rewrite invoke_emitted, Hci.
    - intros p H0 _ _ _. simpl. by rewrite H0. }
  destruct (isGroup ci || isReadOnly ci) eqn:Hprivate.
  { right. exists (Returns tt), [EvGetChat (id_serialized m)]. split.
    - unfold messageBody, bind at 1. by rewrite invoke_emitted, Hci, Hprivate.
    - intros p H0 _ _ _. simpl. by rewrite H0. }
  destruct (getContact m) as [ct|e] eqn:Hct; cycle 1.
  { right. exists (Throws e), [EvGetChat (id_serialized m); EvGetContact (id_serialized m)].
    split.
    - unfold messageBody, bind at 1. rewrite invoke_emitted, Hci, Hprivate.
      unfold bind at 1. by rewrite invoke_emitted, Hct, emitted_app.
    - intros p H0 H1 _ _. simpl. by rewrite H0, H1. }
  destruct (getFormattedNumber ct) as [num|e] eqn:Hnum; cycle 1.
  { right. exists (Throws e), [EvGetChat (id_serialized m); EvGetContact (id_serialized m);
                               EvGetFormattedNumber (id_serialized m)].
    split.
    - unfold messageBody, bind at 1. rewrite invoke_emitted, Hci, Hprivate.
      unfold bind at 1. rewrite invoke_emitted, Hct.
      unfold bind at 1. by rewrite invoke_emitted, Hnum, !emitted_app.
    - intros p H0 H1 H2 _. simpl. by rewrite H0, H1, H2. }
  destruct (prisma_user_upsert env (userPayload_of m ct num)) as [gid|e] eqn:Hup; cycle 1.
  { right. exists (Throws e), (resolution_events m ct num). split.
    - unfold messageBody, bind at 1. rewrite invoke_emitted, Hci, Hprivate.
      unfold bind at 1. rewrite invoke_emitted, Hct.
      unfold bind at 1. rewrite invoke_emitted, Hnum.
      fold (userPayload_of m ct num).
      unfold bind at 1. by rewrite createOrUpdateUser_run, Hup, !emitted_app.
    - intros p H0 H1 H2 H3. simpl. by rewrite H0, H1, H2, H3. }
  left. apply orb_false_elim in Hprivate as [Hg Hr].
  exists ct, num, gid. repeat split; eauto.
Qed.

Lemma never_within {A} p expected (m : M A) : never p m -> within p expected m.
Proof.
  intros H w. destruct (H w) as (evs & Hw & Hevs).
  exists evs. rewrite Hevs. split; [done|]. apply prefix_nil.
Qed.

Lemma within_bind {A B} p expected (m : M A) (k : A -> M B) :
  never p m -> (forall a, within p expected (k a)) -> within p expected (bind m k).
Proof.
  intros Hm Hk w. unfold bind.
  destruct (Hm w) as (evs & Hw & Hevs).
  destruct (m w) as [[a|e] w1]; simpl in Hw; subst w1.
  - destruct (Hk a (emitted evs w)) as (evs' & Hw' & Hevs').
    exists (evs ++ evs'). by rewrite Hw', emitted_app, only_app, Hevs.
  - exists evs. rewrite Hevs. split; [done|]. apply prefix_nil.
Qed.

(** The link step, whatever the collaborators do: one rate check, then one
    record, then one job, all for the first link, or an initial part of
    that. *)
Lemma requestDownload_within m user userNumber l more :
  links m = l :: more ->
  within is_link_step
    (link_calls m userNumber (user_id user)
       match downloads_create env with Returns did => did | Throws _ => "" end l)
    (requestDownload env m user userNumber).
Proof.
  intros Hlinks w. unfold link_calls.
  unfold requestDownload, bind at 1. rewrite invoke_emitted.
  destruct (isRatedLimited env userNumber) as [[|]|e].
  - assert (Hrest : never is_link_step
              (fire (EvTrackEvent "rate_limited" (user_id user) "")
                    (trackEvent env "rate_limited") ;;;
               fire (EvReply m (Text rate_limit_notice))
                    (reply m (Text rate_limit_notice)))) by never_steps.
    destruct (Hrest (emitted [EvIsRatedLimited userNumber] w)) as (evs & -> & Hevs).
    exists ([EvIsRatedLimited userNumber] ++ evs).
    rewrite emitted_app, only_app, Hevs. split; [done|]. by eexists.
  - rewrite Hlinks. simpl. unfold bind at 1. rewrite invoke_emitted, emitted_app.
    destruct (downloads_create env) as [did|e].
    2:{ eexists. split; [done|]. by eexists. }
    unfold bind at 1, eval.
    destruct (JSON_stringify env m) as [json|e].
    2:{ eexists. split; [done|]. by eexists. }
    unfold bind at 1. rewrite fire_emitted, emitted_app.
    assert (Htrack : only is_link_step
                       (fire_events (EvTrackEvent "download_requested" (user_id user) "")
                          (trackEvent env "download_requested")) = [])
      by by destruct (trackEvent env "download_requested") as [e|[[]|e]].
    destruct (trackEvent env "download_requested") as [e|tracked] eqn:Htr.
    { eexists. split; [done|]. rewrite only_app. simpl. by eexists. }
    rewrite <- Htr in *. clear Htr.
    rewrite fire_emitted, emitted_app. eexists. split; [done|].
    rewrite !only_app, Htrack. simpl.
    by destruct (addJobToDownloaderQueue env) as [e|[[]|e]]; exists [].
  - exists [EvIsRatedLimited userNumber]. split; [done|]. by eexists.
Qed.

Lemma afterUpsert_within m ct userNumber user l more :
  links m = l :: more ->
  within is_link_step
    (link_calls m userNumber (user_id user)
       match downloads_create env with Returns did => did | Throws _ => "" end l)
    (afterUpsert env m ct userNumber user).
Proof.
  intros Hlinks. unfold afterUpsert.
  apply within_bind; [by apply never_fire|]. intros _.
  apply within_bind; [apply never_eval|]. intros _.
  apply within_bind; [by apply never_fire|]. intros _.
  apply within_bind; [apply never_when; unfold makeSticker; never_steps|]. intros _.
  rewrite Hlinks. change (0 <? Z.of_nat (length (l :: more))) with true. unfold when.
  by apply (requestDownload_within m user userNumber l more).
Qed.

(** X5: of several links only the first is ever used.  Whatever the
    collaborators do, the calls of the link path that a run issues are an
    initial part of: one rate check, one download record for the first link,
    one job for the first link.  So every record that is created and every
    job that is submitted carries the URL of the first link.  When the handler
    gets as far as the link step, the sender is not limited, the record is
    created and the telemetry call after it is accepted, the run issues
    exactly these three calls. *)
Theorem only_the_first_link_is_downloaded
    (m : Message) (l : Link) (more : list Link) (w : World) :
  links m = l :: more ->
  let calls := added w (snd (messageHandler env m w)) in
  (exists userNumber userId,
     only is_link_step calls
     `prefix_of` link_calls m userNumber userId
                   match downloads_create env with Returns did => did | Throws _ => "" end l)
  /\ (forall url status owner ts,
        EvDownloadCreate url status owner ts ∈ calls -> url = link l)
  /\ (forall key job, EvAddJob key job ∈ calls -> job_url job = link l)
  /\ (forall ct userNumber generated did,
        admitted env m ct userNumber generated did ->
        only is_link_step calls
        = link_calls m userNumber
            (user_id (row_of (users w) (userPayload_of m ct userNumber) generated)) did l).
Proof.
  intros Hlinks calls.
  assert (Hprefix : exists userNumber userId,
            only is_link_step calls
            `prefix_of` link_calls m userNumber userId
                          match downloads_create env with
                          | Returns did => did
                          | Throws _ => ""
                          end l).
  { assert (Htrace : calls = added w (snd (messageBody env m w))).
    { unfold calls, added. rewrite messageHandler_outcome.
      by destruct (messageBody env m w) as [[[]|e] w']. }
    rewrite Htrace.
    destruct (messageBody_unresolved_or_resolved m w)
      as [(ct & num & gid & Hres) | (r & pre & -> & Hpre)].
    - rewrite (messageBody_resolved env m ct num gid w Hres).
      set (user := row_of (users w) (userPayload_of m ct num) gid).
      destruct (afterUpsert_within m ct num user l more Hlinks
                  (emitted (resolution_events m ct num)
                     (set_users (fun t => <[num := user]> t) w))) as (evs & -> & Hevs).
      exists num, (user_id user).
      rewrite emitted_app, added_emitted_set_users, only_app. exact Hevs.
    - exists "", "". cbn [snd]. rewrite added_emitted, Hpre by done. apply prefix_nil. }
  assert (Hmember : forall ev, ev ∈ calls -> is_link_step ev = true ->
            exists userNumber userId did, ev ∈ link_calls m userNumber userId did l).
  { intros ev Hev Hp. destruct Hprefix as (num & uid & k & Hk).
    exists num, uid, match downloads_create env with Returns did => did | Throws _ => "" end.
    rewrite Hk. apply elem_of_app. left.
    apply list_elem_of_In, filter_In. split; [by apply list_elem_of_In|done]. }
  split; [exact Hprefix|]. split; [|split].
  - intros url status owner ts Hev.
    destruct (Hmember _ Hev eq_refl) as (num & uid & did & Hin).
    apply list_elem_of_In in Hin. simpl in Hin.
    destruct Hin as [H|[H|[H|[]]]]; congruence.
  - intros key job Hev.
    destruct (Hmember _ Hev eq_refl) as (num & uid & did & Hin).
    apply list_elem_of_In in Hin. simpl in Hin.
    destruct Hin as [H|[H|[H|[]]]]; try congruence.
    by injection H as _ <-.
  - intros ct num gid did (Hres & Htel & Hst & Hlim & Hcreate & Htrack).
    destruct (messageHandler_admits env m ct num gid l more did w)
      as (_ & Hcalls & _); try done.
    fold calls in Hcalls. rewrite Hcalls.
    set (before := resolution_events m ct num ++ _ ++ _).
    assert (Hbefore : only is_link_step before = []) by by apply only_before_links.
    rewrite !only_app, Hbefore, !only_fire_events by done. done.
Qed.

End MoreInbound.

Lemma no_links_no_download_witness :
  only is_link_step
    (added new_WhatsApp
       (snd (messageHandler (healthy []) (media_message "m1" 7 "image/png") new_WhatsApp)))
  = [].
Proof.
  apply (no_links_no_download (healthy []) (media_message "m1" 7 "image/png") new_WhatsApp).
  reflexivity.
Defined.

Lemma no_admission_without_the_limiter_witness :
  let env := collaborators true fulfilled [] (fun id => Returns (text_message id 7 [])) in
  only is_admission
    (added new_WhatsApp (snd (messageHandler env (text_message "m1" 7 two_links) new_WhatsApp)))
  = [].
Proof.
  apply (no_admission_without_the_limiter
           (collaborators true fulfilled [] (fun id => Returns (text_message id 7 [])))
           (text_message "m1" 7 two_links) new_WhatsApp).
  intros key. simpl. discriminate.
Defined.

Lemma group_messages_are_ignored_witness :
  let m := group_message "g1" in
  messageHandler (healthy []) m new_WhatsApp
  = (Returns tt, emitted [EvGetChat "g1"] new_WhatsApp)
  /\ added new_WhatsApp (snd (messageHandler (healthy []) m new_WhatsApp)) = [EvGetChat "g1"]
  /\ users (snd (messageHandler (healthy []) m new_WhatsApp)) = users new_WhatsApp
  /\ console (snd (messageHandler (healthy []) m new_WhatsApp)) = console new_WhatsApp.
Proof.
  apply (group_messages_are_ignored (healthy []) (group_message "g1")
           {| isGroup := true; isReadOnly := false |} new_WhatsApp).
  - reflexivity.
  - reflexivity.
Defined.

Lemma failed_media_download_stops_the_handler_witness :
  let m := lost_media "m1" in
  let user := row_of (users new_WhatsApp) (userPayload_of m ada "+20 100 000 0000") "user-1" in
  let w' := snd (messageHandler (healthy []) m new_WhatsApp) in
  added new_WhatsApp w'
    = resolution_events m ada "+20 100 000 0000"
      ++ telemetry_events m ada "+20 100 000 0000" user
      ++ [EvDownloadMedia "m1"]
  /\ only is_link_step (added new_WhatsApp w') = []
  /\ console w' = console new_WhatsApp ++ ["Media not found" +:+ " Error in message handler"]
  /\ users w' !! "+20 100 000 0000" = Some user.
Proof.
  apply (failed_media_download_stops_the_handler (healthy []) (lost_media "m1") ada
           "+20 100 000 0000" "user-1" "Media not found" new_WhatsApp).
  - repeat split. by exists private_chat.
  - repeat split. by exists "{}".
  - reflexivity.
  - reflexivity.
Defined.

Lemma only_the_first_link_is_downloaded_witness :
  let m := text_message "m1" 1700000000 two_links in
  let first := {| link := "https://example.com/video"; isSuspicious := false |} in
  let calls := added new_WhatsApp (snd (messageHandler (healthy []) m new_WhatsApp)) in
  (exists userNumber userId,
     only is_link_step calls
     `prefix_of` link_calls m userNumber userId "download-1" first)
  /\ (forall url status owner ts,
        EvDownloadCreate url status owner ts ∈ calls -> url = "https://example.com/video")
  /\ (forall key job, EvAddJob key job ∈ calls -> job_url job = "https://example.com/video")
  /\ only is_link_step calls = link_calls m "+20 100 000 0000" "user-1" "download-1" first.
Proof.
  destruct (only_the_first_link_is_downloaded (healthy [])
              (text_message "m1" 1700000000 two_links)
              {| link := "https://example.com/video"; isSuspicious := false |}
              [{| link := "https://example.com/second"; isSuspicious := false |}]
              new_WhatsApp eq_refl) as (Hprefix & Hrecords & Hjobs & Hexact).
  split; [exact Hprefix|]. split; [exact Hrecords|]. split; [exact Hjobs|].
  apply (Hexact ada "+20 100 000 0000" "user-1" "download-1").
  repeat split; try reflexivity.
  - by exists private_chat.
  - by exists "{}".
Defined.

(** ** More of the unread pass *)

Section MoreUnread.

Variable env : Env.

Lemma fetch_events_cons c rest :
  fetch_events (c :: rest)
  = if has_unread c then EvFetchMessages (chat_id c) :: fetch_events rest
    else fetch_events rest.
Proof.
  unfold fetch_events, unread_chats. rewrite filter_cons.
  destruct (has_unread c); simpl.
  - destruct (decide (Is_true true)) as [_|n]; [done|by destruct n].
  - destruct (decide (Is_true false)) as [y|_]; [by destruct y|done].
Qed.

(** The loop stops at the first chat whose history cannot be fetched. *)
Lemma collectUnread_stops before c after e : forall idx count w,
  Forall (fun c => has_unread c = true -> returns (fetchMessages c) = true) before ->
  has_unread c = true ->
  fetchMessages c = Throws e ->
  collectUnread (before ++ c :: after) idx count w
  = (Throws e, emitted (fetch_events before ++ [EvFetchMessages (chat_id c)]) w).
Proof.
  intros idx count w Hall Hc He. revert idx count w.
  induction Hall as [|chat rest Hchat _ IH]; intros idx count w.
  - simpl. unfold has_unread in Hc. rewrite Hc.
    unfold bind. by rewrite invoke_emitted, He.
  - simpl app. simpl collectUnread. rewrite fetch_events_cons.
    fold (has_unread chat). destruct (has_unread chat) eqn:Hu.
    + specialize (Hchat eq_refl).
      destruct (fetchMessages chat) as [fetched|e'] eqn:Hf; [|done].
      unfold bind at 1. rewrite invoke_emitted, IH, emitted_app. done.
    + apply IH.
Qed.

(** X7: a pass that fails changes nothing.  When the chats cannot be listed,
    or the history of a chat with unread messages cannot be fetched, the pass
    stops there (no later chat is fetched), returns no index, writes one line
    on the console and leaves the counter as it was, even if chats with unread
    messages had been counted before the failure. *)
Theorem failed_unread_pass_changes_nothing (e : string) (calls : list Event) (w : World) :
  pass_fails env e calls ->
  getUnreadChats env w
  = (Returns None,
     set_console (fun c => c ++ ["Error checking unread messages: " +:+ e])
       (emitted calls w))
  /\ added w (snd (getUnreadChats env w)) = calls
  /\ only is_set_unreadChats calls = []
  /\ getClientStats (snd (getUnreadChats env w)) = getClientStats w.
Proof.
  intros Hfail.
  assert (Hrun : getUnreadChats env w
                 = (Returns None,
                    set_console (fun c => c ++ ["Error checking unread messages: " +:+ e])
                      (emitted calls w))).
  { destruct Hfail as [[Hchats ->] | (before & c & after & Hchats & Hall & Hc & He & ->)].
    - unfold getUnreadChats, try_catch, bind at 1. by rewrite invoke_emitted, Hchats.
    - unfold getUnreadChats, try_catch, bind at 1. rewrite invoke_emitted, Hchats.
      unfold bind at 1. rewrite (collectUnread_stops before c after e) by done.
      by rewrite emitted_app. }
  rewrite Hrun. cbn [snd]. repeat split.
  - unfold added, emitted. simpl. by rewrite drop_app_length.
  - destruct Hfail as [[_ ->] | (before & c & after & _ & _ & _ & _ & ->)]; [done|].
    simpl. rewrite only_app. simpl. rewrite app_nil_r.
    unfold fetch_events. by induction (unread_chats before).
Qed.

(** The index a pass returns does not depend on the instance it runs on. *)
Lemma collectUnread_result chats : forall idx count w w',
  fst (collectUnread chats idx count w) = fst (collectUnread chats idx count w').
Proof.
  induction chats as [|chat rest IH]; intros idx count w w'; [done|].
  simpl. destruct (0 <? unreadCount chat); [|apply IH].
  unfold bind. rewrite !invoke_emitted.
  destruct (fetchMessages chat) as [fetched|e]; [apply IH|done].
Qed.

Lemma getUnreadChats_unfold w :
  getUnreadChats env w
  = match getChats env with
    | Throws e =>
        (Returns None,
         set_console (fun c => c ++ ["Error checking unread messages: " +:+ e])
           (emitted [EvGetChats] w))
    | Returns chats =>
        match collectUnread chats ∅ 0 (emitted [EvGetChats] w) with
        | (Returns r, w1) =>
            (Returns (Some (fst r)),
             if snd r =? unreadChats w1 then w1
             else snd (write_unreadChats (snd r) w1))
        | (Throws e, w1) =>
            (Returns None,
             set_console (fun c => c ++ ["Error checking unread messages: " +:+ e]) w1)
        end
    end.
Proof.
  unfold getUnreadChats, try_catch, bind at 1. rewrite invoke_emitted.
  destruct (getChats env) as [chats|e]; [|done].
  unfold bind at 1.
  destruct (collectUnread chats ∅ 0 (emitted [EvGetChats] w)) as [[r|e] w1]; [|done].
  unfold bind, gets, when, ret. cbn [fst snd].
  by destruct (r.2 =? unreadChats w1).
Qed.

Lemma getUnreadChats_result w w' :
  fst (getUnreadChats env w) = fst (getUnreadChats env w').
Proof.
  rewrite !getUnreadChats_unfold.
  destruct (getChats env) as [chats|e]; [|done].
  pose proof (collectUnread_result chats ∅ 0 (emitted [EvGetChats] w)
                (emitted [EvGetChats] w')) as Hsame.
  destruct (collectUnread chats ∅ 0 (emitted [EvGetChats] w)) as [[r|e] w1];
    destruct (collectUnread chats ∅ 0 (emitted [EvGetChats] w')) as [[r'|e'] w1'];
    simpl in Hsame; try done.
  by injection Hsame as <-.
Qed.

(** A pass that the listener for [ready] starts and the event loop resumes
    is a pass: calling [getChats] and then running the rest is
    [getUnreadChats]. *)
Lemma resumeUnreadChats_after_getChats w :
  resumeUnreadChats env (emitted [EvGetChats] w) = getUnreadChats env w.
Proof. reflexivity. Qed.

(** X8: a pass over unchanged chats is quiet.  After a pass that went
    through, a second pass over the same chats returns the same index and does
    not assign the counter again: it changes nothing but the trace of its
    calls. *)
Theorem second_unread_pass_writes_nothing (chats : list Chat) (w : World) :
  getChats env = Returns chats ->
  Forall (fun c => has_unread c = true -> returns (fetchMessages c) = true) chats ->
  let w1 := snd (getUnreadChats env w) in
  fst (getUnreadChats env w1) = fst (getUnreadChats env w)
  /\ unreadChats w1 = sum_unread chats
  /\ snd (getUnreadChats env w1) = emitted (EvGetChats :: fetch_events chats) w1
  /\ only is_set_unreadChats (added w1 (snd (getUnreadChats env w1))) = []
  /\ getClientStats (snd (getUnreadChats env w1)) = getClientStats w1.
Proof.
  intros Hchats Hall w1.
  split; [apply getUnreadChats_result|].
  assert (Hcount : unreadChats w1 = sum_unread chats).
  { unfold w1. destruct (getUnreadChats_run env chats w Hchats Hall) as (idx & -> & _).
    cbn [snd]. destruct (sum_unread chats =? unreadChats w) eqn:E; [|done].
    apply Z.eqb_eq in E. by rewrite E. }
  split; [done|].
  destruct (getUnreadChats_run env chats w1 Hchats Hall) as (idx & Hrun & _).
  rewrite Hcount, Z.eqb_refl in Hrun. rewrite Hrun. cbn [snd].
  split; [done|]. rewrite added_emitted. split; [|done].
  simpl. unfold fetch_events. by induction (unread_chats chats).
Qed.

End MoreUnread.

Lemma failed_unread_pass_changes_nothing_witness :
  let env := healthy [chat_with "a@c.us" 2 three_messages; failing_chat "b@c.us" 4;
                      chat_with "c@c.us" 1 three_messages] in
  let calls := [EvGetChats; EvFetchMessages "a@c.us"; EvFetchMessages "b@c.us"] in
  getUnreadChats env new_WhatsApp
  = (Returns None,
     set_console (fun c => c ++ ["Error checking unread messages: " +:+ "Evaluation failed"])
       (emitted calls new_WhatsApp))
  /\ added new_WhatsApp (snd (getUnreadChats env new_WhatsApp)) = calls
  /\ only is_set_unreadChats calls = []
  /\ getClientStats (snd (getUnreadChats env new_WhatsApp)) = getClientStats new_WhatsApp.
Proof.
  apply (failed_unread_pass_changes_nothing
           (healthy [chat_with "a@c.us" 2 three_messages; failing_chat "b@c.us" 4;
                     chat_with "c@c.us" 1 three_messages])
           "Evaluation failed"
           [EvGetChats; EvFetchMessages "a@c.us"; EvFetchMessages "b@c.us"] new_WhatsApp).
  right. exists [chat_with "a@c.us" 2 three_messages], (failing_chat "b@c.us" 4),
           [chat_with "c@c.us" 1 three_messages].
  repeat split. by repeat constructor.
Defined.

Lemma second_unread_pass_writes_nothing_witness :
  let env := healthy sample_chats in
  let w1 := snd (getUnreadChats env new_WhatsApp) in
  fst (getUnreadChats env w1) = fst (getUnreadChats env new_WhatsApp)
  /\ unreadChats w1 = sum_unread sample_chats
  /\ snd (getUnreadChats env w1) = emitted (EvGetChats :: fetch_events sample_chats) w1
  /\ only is_set_unreadChats (added w1 (snd (getUnreadChats env w1))) = []
  /\ getClientStats (snd (getUnreadChats env w1)) = getClientStats w1.
Proof.
  apply (second_unread_pass_writes_nothing (healthy sample_chats) sample_chats new_WhatsApp).
  - reflexivity.
  - by repeat constructor.
Defined.

(** ** More of the life cycle *)

Section MoreLifecycle.

Variable env : Env.

(** An event with one listener, registered with [on]: the callback runs once
    and the listener stays. *)
Lemma emit_on ev (callback : M unit) w :
  filter (listens ev) (listeners w) = [{| l_event := ev; l_once := false |}] ->
  emit ev callback w = callback w.
Proof.
  intros Hl. unfold emit, bind at 1, gets. cbn [fst snd].
  unfold listens in Hl. rewrite Hl. simpl.
  unfold bind, when, ret. by destruct (callback w) as [[[]|e] w'].
Qed.

(** An event without a listener. *)
Lemma emit_unheard ev (callback : M unit) w :
  filter (listens ev) (listeners w) = [] ->
  emit ev callback w = (Returns tt, w).
Proof.
  intros Hl. unfold emit, bind at 1, gets. cbn [fst snd].
  unfold listens in Hl. by rewrite Hl.
Qed.

(** The listeners for [disconnected] and [auth_failure] clear the flag
    before anything else that could throw, and touch nothing else of the
    state. *)
Lemma disconnectedCallback_state reason w :
  let w' := snd (disconnectedCallback env reason w) in
  isAuthenticated w' = false /\ listeners w' = listeners w
  /\ unreadChats w' = unreadChats w /\ users w' = users w
  /\ QrCodeMessageId w' = QrCodeMessageId w
  /\ console w' = console w ++ ["Client was disconnected " +:+ reason].
Proof.
  unfold disconnectedCallback, bind, console_log, modify, fire.
  destruct (trackEvent env "system_event") as [e|s]; [by repeat split|].
  by destruct (telegram_sendMessage env _) as [e'|s'].
Qed.

Lemma authFailureCallback_state w :
  let w' := snd (authFailureCallback env w) in
  isAuthenticated w' = false /\ listeners w' = listeners w
  /\ unreadChats w' = unreadChats w /\ users w' = users w
  /\ QrCodeMessageId w' = QrCodeMessageId w
  /\ console w' = console w.
Proof.
  unfold authFailureCallback, bind, modify, fire.
  destruct (trackEvent env "system_event") as [e|s]; [by repeat split|].
  by destruct (telegram_sendMessage env _) as [e'|s'].
Qed.

(** X9: losing the connection suspends the unread pass and nothing else.
    After [disconnected] or [auth_failure], whatever the collaborators do with
    the notices, the flag is off, so the timer's callback does nothing when it
    fires; the listeners, the counter and the users are as before. *)
Theorem connection_loss_suspends_the_timer (signal : M unit) (reason : string) (w : World) :
  (filter (listens disconnected) (listeners w)
     = [{| l_event := disconnected; l_once := false |}]
   /\ signal = emit_disconnected env reason)
  \/ (filter (listens auth_failure) (listeners w)
        = [{| l_event := auth_failure; l_once := false |}]
      /\ signal = emit_auth_failure env) ->
  let w1 := snd (signal w) in
  isAuthenticated w1 = false
  /\ tick env w1 = (Returns tt, w1)
  /\ listeners w1 = listeners w
  /\ unreadChats w1 = unreadChats w
  /\ users w1 = users w.
Proof.
  intros Hsignal w1.
  assert (Hstate : isAuthenticated w1 = false /\ listeners w1 = listeners w
                   /\ unreadChats w1 = unreadChats w /\ users w1 = users w).
  { unfold w1. destruct Hsignal as [[Hl ->]|[Hl ->]].
    - unfold emit_disconnected. rewrite emit_on by done.
      by destruct (disconnectedCallback_state reason w) as (? & ? & ? & ? & _).
    - unfold emit_auth_failure. rewrite emit_on by done.
      by destruct (authFailureCallback_state w) as (? & ? & ? & ? & _). }
  destruct Hstate as (Hflag & Hls & Hcount & Husers).
  repeat split; try done.
  unfold tick, runTask, bind, gets. cbn [fst snd]. by rewrite Hflag.
Qed.

(** One [authenticated] signal when the notices go through. *)
Lemma authenticatedCallback_run w :
  trackEvent env "system_event" = fulfilled ->
  telegram_sendMessage env "WhatsApp is authenticated and ready to go!" = fulfilled ->
  authenticatedCallback env w
  = (Returns tt,
     emitted [EvTrackEvent "system_event" "system" "whatsapp_authenticated";
              EvTelegramSend "WhatsApp is authenticated and ready to go!"]
       (set_isAuthenticated true w)).
Proof.
  intros Htrack Hsend.
  unfold authenticatedCallback, bind at 1, modify. cbn [fst snd].
  unfold bind at 1. rewrite Htrack, fire_fulfilled, Hsend, fire_fulfilled, emitted_app.
  done.
Qed.

Lemma repeatedly_authenticated n : forall w,
  filter (listens authenticated) (listeners w)
    = [{| l_event := authenticated; l_once := false |}] ->
  trackEvent env "system_event" = fulfilled ->
  telegram_sendMessage env "WhatsApp is authenticated and ready to go!" = fulfilled ->
  repeatedly n (emit_authenticated env) w
  = (Returns tt,
     emitted (concat (replicate n
                [EvTrackEvent "system_event" "system" "whatsapp_authenticated";
                 EvTelegramSend "WhatsApp is authenticated and ready to go!"]))
       (match n with O => w | S _ => set_isAuthenticated true w end)).
Proof.
  induction n as [|n IH]; intros w Hl Htrack Hsend.
  - simpl. unfold ret. by rewrite emitted_nil.
  - simpl repeatedly. unfold bind at 1, emit_authenticated.
    rewrite emit_on, authenticatedCallback_run by done.
    rewrite IH by done. f_equal.
    destruct n; [simpl; by rewrite emitted_nil|].
    apply World_eq; try done.
    cbn [trace emitted set_trace set_isAuthenticated]. by rewrite <- app_assoc.
Qed.

(** X10: unlike [ready], [authenticated] is handled every time it is
    signalled.  When the notices go through, [n] signals send [n] notices to
    Telegram, the listener stays registered, and after the first of them the
    flag is on, so that the timer's callback runs the unread pass. *)
Theorem authenticated_is_announced_every_time (n : nat) (w : World) :
  filter (listens authenticated) (listeners w)
    = [{| l_event := authenticated; l_once := false |}] ->
  trackEvent env "system_event" = fulfilled ->
  telegram_sendMessage env "WhatsApp is authenticated and ready to go!" = fulfilled ->
  let w' := snd (repeatedly n (emit_authenticated env) w) in
  fst (repeatedly n (emit_authenticated env) w) = Returns tt
  /\ only is_telegram_send (added w w')
     = replicate n (EvTelegramSend "WhatsApp is authenticated and ready to go!")
  /\ listeners w' = listeners w
  /\ (n <> O -> isAuthenticated w' = true
                /\ tick env w' = not_awaited (getUnreadChats env) w').
Proof.
  intros Hl Htrack Hsend w'. unfold w'.
  rewrite repeatedly_authenticated by done. cbn [fst snd].
  split; [done|]. split; [|split].
  - assert (Hadded : forall evs,
              added w (emitted evs (match n with O => w | S _ => set_isAuthenticated true w end))
              = evs).
    { intros evs. unfold added, emitted. destruct n; simpl; by rewrite drop_app_length. }
    rewrite Hadded. clear. induction n as [|n IH]; [done|]. simpl. by rewrite IH.
  - by destruct n.
  - intros Hn. destruct n; [done|]. split; [done|].
    unfold tick, runTask, bind, gets. done.
Qed.

(** X11: inbound messages are handled only once the client is ready.  After
    [setupWhatsAppEventHandlers] and before [ready], a message reaches no
    listener: nothing is called and nothing changes.  After the first [ready],
    each message runs the handler exactly once. *)
Theorem messages_wait_for_ready (ms : list Message) (m : Message) (w0 : World) :
  listeners w0 = [] ->
  telegram_sendMessage env "WhatsApp client is ready!" = fulfilled ->
  trackEvent env "system_event" = fulfilled ->
  (forall ref, telegram_deleteMessage env ref = fulfilled) ->
  removeFile env (qrCodePath env) = Returns tt ->
  let w1 := snd (setupWhatsAppEventHandlers w0) in
  let w2 := snd (emit_ready env w1) in
  emit_messages env ms w1 = (Returns tt, w1)
  /\ emit_message env m w2 = (Returns tt, snd (messageHandler env m w2))
  /\ only is_get_chat (added w2 (snd (emit_message env m w2)))
     = [EvGetChat (id_serialized m)].
Proof.
  intros Hl Hsend Htrack Hdelete Hremove w1 w2.
  assert (Hw1 : listeners w1
                = [{| l_event := authenticated; l_once := false |};
                   {| l_event := auth_failure; l_once := false |};
                   {| l_event := disconnected; l_once := false |};
                   {| l_event := ready; l_once := true |};
                   {| l_event := qr; l_once := false |}]).
  { unfold w1. by rewrite setup_listeners. }
  split; [|].
  - clear w2. induction ms as [|x rest IH]; [done|].
    simpl emit_messages. unfold bind at 1, emit_message.
    rewrite emit_unheard; [exact IH|]. by rewrite Hw1.
  - assert (Hready : filter on_ready (listeners w1) = [{| l_event := ready; l_once := true |}])
      by by rewrite Hw1.
    destruct (emit_ready_first env w1 Hready Hsend Htrack Hdelete Hremove) as (evs & Hw2 & _).
    fold w2 in Hw2.
    assert (Hlisten : filter (fun l => Is_true (event_eqb (l_event l) message)) (listeners w2)
                      = [{| l_event := message; l_once := false |}]).
    { rewrite Hw2.
      cbn [listeners emitted set_trace set_listeners set_started set_intervals
           set_isAuthenticated set_QrCodeMessageId].
      by rewrite Hw1. }
    rewrite emit_message_run by done. split; [done|]. cbn [snd].
    destruct (messageHandler_shape env m w2) as (more & Ht & Hmore & _).
    unfold added. rewrite Ht, drop_app_length. simpl. by rewrite Hmore.
Qed.

End MoreLifecycle.

Lemma connection_loss_suspends_the_timer_witness :
  let w := snd (setupWhatsAppEventHandlers (set_isAuthenticated true new_WhatsApp)) in
  let w1 := snd (emit_disconnected (healthy []) "LOGOUT" w) in
  isAuthenticated w1 = false
  /\ tick (healthy []) w1 = (Returns tt, w1)
  /\ listeners w1 = listeners w
  /\ unreadChats w1 = unreadChats w
  /\ users w1 = users w.
Proof.
  apply (connection_loss_suspends_the_timer (healthy []) (emit_disconnected (healthy []) "LOGOUT")
           "LOGOUT"
           (snd (setupWhatsAppEventHandlers (set_isAuthenticated true new_WhatsApp)))).
  left. split; reflexivity.
Defined.

Lemma authenticated_is_announced_every_time_witness :
  let w := snd (setupWhatsAppEventHandlers new_WhatsApp) in
  let w' := snd (repeatedly 3 (emit_authenticated (healthy [])) w) in
  fst (repeatedly 3 (emit_authenticated (healthy [])) w) = Returns tt
  /\ only is_telegram_send (added w w')
     = replicate 3 (EvTelegramSend "WhatsApp is authenticated and ready to go!")
  /\ listeners w' = listeners w
  /\ (3%nat <> O -> isAuthenticated w' = true
                    /\ tick (healthy []) w' = not_awaited (getUnreadChats (healthy [])) w').
Proof.
  apply (authenticated_is_announced_every_time (healthy []) 3
           (snd (setupWhatsAppEventHandlers new_WhatsApp))).
  - reflexivity.
  - reflexivity.
  - reflexivity.
Defined.

Lemma messages_wait_for_ready_witness :
  let w1 := snd (setupWhatsAppEventHandlers new_WhatsApp) in
  let w2 := snd (emit_ready (healthy []) w1) in
  let m := text_message "m9" 9 [] in
  emit_messages (healthy []) three_messages w1 = (Returns tt, w1)
  /\ emit_message (healthy []) m w2 = (Returns tt, snd (messageHandler (healthy []) m w2))
  /\ only is_get_chat (added w2 (snd (emit_message (healthy []) m w2))) = [EvGetChat "m9"].
Proof.
  apply (messages_wait_for_ready (healthy []) three_messages (text_message "m9" 9 [])
           new_WhatsApp).
  - reflexivity.
  - reflexivity.
  - reflexivity.
  - reflexivity.
  - reflexivity.
Defined.

(** ** More of the queue's events *)

Section MoreQueue.

Variable env : Env.

(** The loop of the listener for [completed], whatever the collaborators do:
    it never touches the status of the record, and when it gets to its end
    every file was read, answered with and removed. *)
Lemma deliver_cases message artifacts : forall w,
  exists evs r,
    deliver env message artifacts w = (r, emitted evs w)
    /\ only is_update_status evs = []
    /\ (r = Returns tt ->
        only is_remove_file evs = (fun a => EvRemoveFile (path a)) <$> artifacts
        /\ length (only is_reply evs) = length artifacts
        /\ length (only is_get_message evs) = length artifacts).
Proof.
  induction artifacts as [|a rest IH]; intros w.
  - exists [], (Returns tt). by rewrite emitted_nil.
  - simpl deliver. unfold bind at 1. rewrite invoke_emitted.
    destruct (fromFilePath env (path a)) as [media|e];
      [|by exists [EvFromFilePath (path a)], (Throws e)].
    unfold bind at 1. rewrite invoke_emitted, emitted_app.
    destruct (getMessageById env (id_serialized message)) as [h|e];
      [|by eexists _, (Throws e)].
    unfold bind at 1. rewrite fire_emitted, emitted_app.
    assert (Hreply : only is_update_status (fire_events (EvReply h (Media media))
                                              (reply h (Media media))) = []
                     /\ only is_remove_file (fire_events (EvReply h (Media media))
                                               (reply h (Media media))) = []
                     /\ length (only is_reply (fire_events (EvReply h (Media media))
                                                 (reply h (Media media)))) = 1%nat
                     /\ only is_get_message (fire_events (EvReply h (Media media))
                                               (reply h (Media media))) = [])
      by by destruct (reply h (Media media)) as [e|[[]|e]].
    destruct Hreply as (Hr1 & Hr2 & Hr3 & Hr4).
    destruct (reply h (Media media)) as [e|settles] eqn:Hrep.
    { eexists _, (Throws e). split; [done|]. rewrite only_app, Hr1. by split. }
    rewrite <- Hrep in *. clear Hrep.
    unfold bind at 1. rewrite invoke_emitted, emitted_app.
    destruct (removeFile env (path a)) as [[]|e].
    2:{ eexists _, (Throws e). split; [done|]. rewrite !only_app, Hr1. by split. }
    unfold bind at 1. rewrite fire_emitted, emitted_app.
    assert (Htrack : only is_update_status
                       (fire_events (EvTrackEvent "download_response" (from message) "")
                          (trackEvent env "download_response")) = []
                     /\ only is_remove_file
                          (fire_events (EvTrackEvent "download_response" (from message) "")
                             (trackEvent env "download_response")) = []
                     /\ only is_reply
                          (fire_events (EvTrackEvent "download_response" (from message) "")
                             (trackEvent env "download_response")) = []
                     /\ only is_get_message
                          (fire_events (EvTrackEvent "download_response" (from message) "")
                             (trackEvent env "download_response")) = [])
      by by destruct (trackEvent env "download_response") as [e|[[]|e]].
    destruct Htrack as (Ht1 & Ht2 & Ht3 & Ht4).
    destruct (trackEvent env "download_response") as [e|tracked] eqn:Htr.
    { eexists _, (Throws e). split; [done|]. rewrite !only_app, Hr1, Ht1. by split. }
    rewrite <- Htr in *. clear Htr.
    set (evs := ((([EvFromFilePath (path a)] ++ [EvGetMessageById (id_serialized message)])
                  ++ _) ++ _) ++ _).
    destruct (IH (emitted evs w)) as (more & r & Hw & Hmore & Hdone).
    exists (evs ++ more), r. rewrite Hw, emitted_app. split; [done|].
    assert (Hevs : only is_update_status evs = []
                   /\ only is_remove_file evs = [EvRemoveFile (path a)]
                   /\ length (only is_reply evs) = 1%nat
                   /\ length (only is_get_message evs) = 1%nat).
    { unfold evs. rewrite !only_app, Hr1, Hr2, Hr4, Ht1, Ht2, Ht3, Ht4, !length_app, Hr3.
      done. }
    destruct Hevs as (He1 & He2 & He3 & He4).
    rewrite !only_app, He1, He2, Hmore, !length_app, He3, He4.
    split; [done|]. intros Hret. destruct (Hdone Hret) as (Hd1 & Hd2 & Hd3).
    rewrite Hd1, Hd2, Hd3. done.
Qed.

(** X12: the record of a job is marked SENT only after the whole delivery.
    Whatever the collaborators do, if a run of the listener for [completed]
    touches the status of the record at all, it does so once, with SENT, and
    by then every file of the job was removed, once and in order, with one
    reply and one lookup of the message for each. *)
Theorem sent_only_after_every_file (job : DownloadJob) (w : World) :
  let artifacts := download (returnvalue job) in
  let calls := added w (snd (onDownloadCompleted env job w)) in
  only is_update_status calls <> [] ->
  only is_update_status calls = [EvUpdateStatus (downloadId (returnvalue job)) SENT]
  /\ only is_remove_file calls = (fun a => EvRemoveFile (path a)) <$> artifacts
  /\ length (only is_reply calls) = length artifacts
  /\ length (only is_get_message calls) = length artifacts.
Proof.
  intros artifacts calls.
  assert (Herr : only is_update_status
                   (fire_events (EvTrackEvent "error_onQueueMessage" "" "")
                      (trackEvent env "error_onQueueMessage")) = []
                 /\ only is_remove_file
                      (fire_events (EvTrackEvent "error_onQueueMessage" "" "")
                         (trackEvent env "error_onQueueMessage")) = []
                 /\ only is_reply
                      (fire_events (EvTrackEvent "error_onQueueMessage" "" "")
                         (trackEvent env "error_onQueueMessage")) = []
                 /\ only is_get_message
                      (fire_events (EvTrackEvent "error_onQueueMessage" "" "")
                         (trackEvent env "error_onQueueMessage")) = [])
    by by destruct (trackEvent env "error_onQueueMessage") as [e|[[]|e]].
  destruct Herr as (Hx1 & Hx2 & Hx3 & Hx4).
  assert (Hlog : forall line evs,
            added w (snd ((console_log line ;;;
                           fire (EvTrackEvent "error_onQueueMessage" "" "")
                                (trackEvent env "error_onQueueMessage"))
                            (emitted evs w)))
            = evs ++ fire_events (EvTrackEvent "error_onQueueMessage" "" "")
                       (trackEvent env "error_onQueueMessage")).
  { intros line evs. unfold bind, console_log, fire, added, emitted. simpl.
    by rewrite <- app_assoc, drop_app_length. }
  destruct (deliver_cases (job_message (job_data job)) artifacts w)
    as (evs & r & Hw & Hnone & Hdone).
  assert (Hcalls :
            calls
            = match r with
              | Returns _ =>
                  (evs ++ [EvUpdateStatus (downloadId (returnvalue job)) SENT])
                  ++ match downloads_updateStatusById env with
                     | Returns _ => []
                     | Throws _ => fire_events (EvTrackEvent "error_onQueueMessage" "" "")
                                     (trackEvent env "error_onQueueMessage")
                     end
              | Throws _ => evs ++ fire_events (EvTrackEvent "error_onQueueMessage" "" "")
                                     (trackEvent env "error_onQueueMessage")
              end).
  { unfold calls, onDownloadCompleted, try_catch, bind at 1. fold artifacts.
    rewrite Hw. destruct r as [[]|e]; [|apply Hlog].
    rewrite invoke_emitted, emitted_app.
    destruct (downloads_updateStatusById env) as [[]|e]; [|apply Hlog].
    cbn [snd]. by rewrite added_emitted, app_nil_r. }
  rewrite Hcalls. destruct r as [[]|e].
  - destruct (Hdone eq_refl) as (Hd1 & Hd2 & Hd3). intros _.
    destruct (downloads_updateStatusById env) as [[]|e];
      rewrite !only_app, Hnone, Hd1, !length_app, Hd2, Hd3, ?Hx1, ?Hx2, ?Hx3, ?Hx4;
      simpl; by rewrite ?app_nil_r, !Nat.add_0_r.
  - rewrite only_app, Hnone, Hx1. by intros [].
Qed.

(** The deliveries that go through, before the rest of the loop. *)
Lemma deliver_app message h sent more : forall w,
  getMessageById env (id_serialized message) = Returns h ->
  trackEvent env "download_response" = fulfilled ->
  Forall (fun a => artifact_delivers env h a = true) sent ->
  deliver env message (sent ++ more) w
  = deliver env message more (emitted (flat_map (delivery_events env message h) sent) w).
Proof.
  intros w Hget Htrack Hall. revert w.
  induction Hall as [|a rest Ha _ IH]; intros w.
  - simpl. by rewrite emitted_nil.
  - unfold artifact_delivers, loaded in Ha.
    simpl app. simpl deliver. unfold bind at 1. rewrite invoke_emitted.
    simpl flat_map. unfold delivery_events at 1, loaded.
    destruct (fromFilePath env (path a)) as [media|e]; [|done].
    apply andb_prop in Ha as [Ha Hremove]. simpl in Ha.
    apply fulfils_fulfilled in Ha.
    unfold bind at 1. rewrite invoke_emitted, Hget.
    unfold bind at 1. rewrite Ha, fire_fulfilled.
    unfold bind at 1. rewrite invoke_emitted.
    destruct (removeFile env (path a)) as [[]|e]; [|done].
    unfold bind at 1. rewrite Htrack, fire_fulfilled.
    rewrite IH, !emitted_app. reflexivity.
Qed.

(** X13: a delivery stops at the first file that cannot be read.  The files
    before it were sent and removed; for the unreadable file and those after
    it nothing is replied and nothing is removed, the record is not marked
    SENT, the failure is written on the console and reported once to the
    analytics; the listener itself throws only if that report does. *)
Theorem delivery_stops_at_an_unreadable_file
    (job : DownloadJob) (h : Message) (sent : list Artifact) (a : Artifact)
    (rest : list Artifact) (e : string) (w : World) :
  let message := job_message (job_data job) in
  download (returnvalue job) = sent ++ a :: rest ->
  getMessageById env (id_serialized message) = Returns h ->
  trackEvent env "download_response" = fulfilled ->
  Forall (fun a => artifact_delivers env h a = true) sent ->
  fromFilePath env (path a) = Throws e ->
  let calls := added w (snd (onDownloadCompleted env job w)) in
  calls = flat_map (delivery_events env message h) sent
          ++ [EvFromFilePath (path a)]
          ++ fire_events (EvTrackEvent "error_onQueueMessage" "" "")
               (trackEvent env "error_onQueueMessage")
  /\ only is_reply calls = (fun a => EvReply h (Media (loaded env a))) <$> sent
  /\ only is_remove_file calls = (fun a => EvRemoveFile (path a)) <$> sent
  /\ only is_update_status calls = []
  /\ console (snd (onDownloadCompleted env job w))
     = console w ++ ["Error in onQueueMessage: " +:+ e]
  /\ fst (onDownloadCompleted env job w)
     = match trackEvent env "error_onQueueMessage" with
       | Threw e' => Throws e'
       | Dropped _ => Returns tt
       end.
Proof.
  intros message Hjob Hget Htrack Hall Hfile calls.
  assert (Hrun : onDownloadCompleted env job w
                 = (fire (EvTrackEvent "error_onQueueMessage" "" "")
                         (trackEvent env "error_onQueueMessage"))
                     (set_console (fun c => c ++ ["Error in onQueueMessage: " +:+ e])
                        (emitted (flat_map (delivery_events env message h) sent
                                  ++ [EvFromFilePath (path a)]) w))).
  { unfold onDownloadCompleted, try_catch, bind at 1. fold message. rewrite Hjob.
    rewrite (deliver_app message h sent (a :: rest) w) by done.
    simpl deliver. unfold bind at 1. rewrite invoke_emitted, Hfile, emitted_app.
    reflexivity. }
  assert (Herr : only is_update_status
                   (fire_events (EvTrackEvent "error_onQueueMessage" "" "")
                      (trackEvent env "error_onQueueMessage")) = []
                 /\ only is_remove_file
                      (fire_events (EvTrackEvent "error_onQueueMessage" "" "")
                         (trackEvent env "error_onQueueMessage")) = []
                 /\ only is_reply
                      (fire_events (EvTrackEvent "error_onQueueMessage" "" "")
                         (trackEvent env "error_onQueueMessage")) = [])
    by by destruct (trackEvent env "error_onQueueMessage") as [e'|[[]|e']].
  destruct Herr as (Hx1 & Hx2 & Hx3).
  assert (Hcalls : calls = flat_map (delivery_events env message h) sent
                           ++ [EvFromFilePath (path a)]
                           ++ fire_events (EvTrackEvent "error_onQueueMessage" "" "")
                                (trackEvent env "error_onQueueMessage")).
  { unfold calls. rewrite Hrun. unfold fire, added, emitted. simpl.
    by rewrite <- !app_assoc, drop_app_length. }
  destruct (only_delivery_events env message h sent) as (H1 & H2 & _ & H4).
  split; [done|]. rewrite Hcalls, !only_app, H1, H2, H4, Hx1, Hx2, Hx3.
  simpl. rewrite !app_nil_r. repeat split; try done.
  - by rewrite Hrun.
  - by rewrite Hrun.
Qed.

End MoreQueue.

Lemma sent_only_after_every_file_witness :
  let calls := added new_WhatsApp (snd (onDownloadCompleted (healthy []) sample_job new_WhatsApp)) in
  only is_update_status calls = [EvUpdateStatus "download-1" SENT]
  /\ only is_remove_file calls = [EvRemoveFile "/tmp/a.mp4"; EvRemoveFile "/tmp/b.mp4"]
  /\ length (only is_reply calls) = 2%nat
  /\ length (only is_get_message calls) = 2%nat.
Proof.
  apply (sent_only_after_every_file (healthy []) sample_job new_WhatsApp).
  discriminate.
Defined.

Lemma delivery_stops_at_an_unreadable_file_witness :
  let env := missing_file "/tmp/b.mp4" in
  let h := text_message "m1" 7 [] in
  let first := {| path := "/tmp/a.mp4" |} in
  let calls := added new_WhatsApp (snd (onDownloadCompleted env sample_job new_WhatsApp)) in
  calls = flat_map (delivery_events env (text_message "m1" 7 one_link) h) [first]
          ++ [EvFromFilePath "/tmp/b.mp4"]
          ++ fire_events (EvTrackEvent "error_onQueueMessage" "" "")
               (trackEvent env "error_onQueueMessage")
  /\ only is_reply calls = (fun a => EvReply h (Media (loaded env a))) <$> [first]
  /\ only is_remove_file calls = (fun a => EvRemoveFile (path a)) <$> [first]
  /\ only is_update_status calls = []
  /\ console (snd (onDownloadCompleted env sample_job new_WhatsApp))
     = console new_WhatsApp ++ ["Error in onQueueMessage: " +:+ "ENOENT"]
  /\ fst (onDownloadCompleted env sample_job new_WhatsApp)
     = match trackEvent env "error_onQueueMessage" with
       | Threw e' => Throws e'
       | Dropped _ => Returns tt
       end.
Proof.
  apply (delivery_stops_at_an_unreadable_file (missing_file "/tmp/b.mp4") sample_job
           (text_message "m1" 7 []) [{| path := "/tmp/a.mp4" |}] {| path := "/tmp/b.mp4" |}
           [] "ENOENT" new_WhatsApp).
  - reflexivity.
  - reflexivity.
  - reflexivity.
  - by repeat constructor.
  - reflexivity.
Defined.

(** ** What the handlers leave alone *)

Section Keeps.

Context {X : Type} (f : World -> X).

Hypothesis f_trace : forall g w, f (set_trace g w) = f w.
Hypothesis f_console : forall g w, f (set_console g w) = f w.

Lemma keeps_ret {A} (a : A) : keeps f (ret a).
Proof. done. Qed.

Lemma keeps_eval {A} (o : outcome A) : keeps f (eval o).
Proof. done. Qed.

Lemma keeps_gets {A} (g : World -> A) : keeps f (gets g).
Proof. done. Qed.

Lemma keeps_invoke {A} ev (o : outcome A) : keeps f (invoke ev o).
Proof. intros w. apply f_trace. Qed.

Lemma keeps_fire {A} ev (s : unawaited A) : keeps f (fire ev s).
Proof. intros w. apply f_trace. Qed.

Lemma keeps_console_log line : keeps f (console_log line).
Proof. intros w. apply f_console. Qed.

Lemma keeps_modify g : (forall w, f (g w) = f w) -> keeps f (modify g).
Proof. intros Hg w. apply Hg. Qed.

Lemma keeps_bind {A B} (m : M A) (k : A -> M B) :
  keeps f m -> (forall a, keeps f (k a)) -> keeps f (bind m k).
Proof.
  intros Hm Hk w. unfold bind. specialize (Hm w).
  destruct (m w) as [[a|e] w1]; simpl in Hm; [|done].
  by rewrite Hk.
Qed.

Lemma keeps_try_catch {A} (m : M A) (h : string -> M A) :
  keeps f m -> (forall e, keeps f (h e)) -> keeps f (try_catch m h).
Proof.
  intros Hm Hh w. unfold try_catch. specialize (Hm w).
  destruct (m w) as [[a|e] w1]; simpl in Hm; [done|].
  by rewrite Hh.
Qed.

Lemma keeps_when b (m : M unit) : keeps f m -> keeps f (when b m).
Proof. by destruct b. Qed.

Lemma keeps_not_awaited {A} (m : M A) : keeps f m -> keeps f (not_awaited m).
Proof.
  intros Hm w. unfold not_awaited. specialize (Hm w).
  destruct (m w) as [[a|e] w1]; simpl in *; [done|].
  by rewrite f_trace.
Qed.

End Keeps.

Ltac keeps_steps :=
  repeat first
    [ apply keeps_ret
    | apply keeps_eval
    | apply keeps_gets
    | apply keeps_invoke; [done]
    | apply keeps_fire; [done]
    | apply keeps_console_log; [done]
    | apply keeps_when
    | apply keeps_not_awaited; [done|]
    | apply keeps_try_catch; [| intros ?]
    | apply keeps_bind; [| intros ?]
    | match goal with
      | |- keeps _ (if ?b then _ else _) => destruct b
      | |- keeps _ (match ?o with Some _ => _ | None => _ end) => destruct o
      end ].

Section HandlersKeep.

Variable env : Env.

Lemma deliver_keeps {X} (f : World -> X) message artifacts :
  (forall g w, f (set_trace g w) = f w) ->
  keeps f (deliver env message artifacts).
Proof.
  intros Hf. induction artifacts as [|a rest IH]; simpl deliver; keeps_steps.
  exact IH.
Qed.

(** X14: the listeners for messages and for the queue's events keep their
    hands off the rest of the instance.  Whatever the collaborators do, a run
    of any of them leaves what [getClientStats] reports, the QR prompt, the
    listeners and the timers as they were; the two listeners of the queue
    leave the users as they were too. *)
Theorem handlers_keep_the_settings
    (m : Message) (job : DownloadJob) (error : QueueError) (w : World) :
  settings (snd (messageHandler env m w)) = settings w
  /\ getClientStats (snd (messageHandler env m w)) = getClientStats w
  /\ settings (snd (onDownloadCompleted env job w)) = settings w
  /\ users (snd (onDownloadCompleted env job w)) = users w
  /\ settings (snd (onDownloadFailed env job error w)) = settings w
  /\ users (snd (onDownloadFailed env job error w)) = users w.
Proof.
  assert (Hm : keeps settings (messageHandler env m)).
  { unfold messageHandler, messageBody, createOrUpdateUser, makeSticker, requestDownload.
    keeps_steps. by apply keeps_modify. }
  assert (Hc : forall X (f : World -> X),
            (forall g w, f (set_trace g w) = f w) ->
            (forall g w, f (set_console g w) = f w) ->
            keeps f (onDownloadCompleted env job)).
  { intros X f Ht Hcon. unfold onDownloadCompleted. keeps_steps.
    by apply deliver_keeps. }
  assert (Hf : forall X (f : World -> X),
            (forall g w, f (set_trace g w) = f w) ->
            (forall g w, f (set_console g w) = f w) ->
            keeps f (onDownloadFailed env job error)).
  { intros X f Ht Hcon. unfold onDownloadFailed. keeps_steps. }
  split; [apply Hm|]. split; [exact (f_equal (fun s => fst (fst (fst (fst s)))) (Hm w))|].
  split; [by apply Hc|]. split; [by apply (Hc _ users)|].
  split; [by apply Hf|]. by apply (Hf _ users).
Qed.

End HandlersKeep.

(** * The other listeners *)

(** ** The journal *)

Lemma Site_eq (a b : Site) :
  instance a = instance b -> journal a = journal b -> a = b.
Proof. destruct a, b; simpl; by intros -> ->. Qed.

Lemma log_calls_nil s : log_calls [] s = s.
Proof. apply Site_eq; [done|]. simpl. by rewrite app_nil_r. Qed.

Lemma log_calls_app a b s : log_calls b (log_calls a s) = log_calls (a ++ b) s.
Proof. apply Site_eq; [done|]. simpl. by rewrite app_assoc. Qed.

Lemma noted_log_calls cs s : noted s (log_calls cs s) = cs.
Proof. unfold noted, log_calls; simpl. by rewrite drop_app_length. Qed.

Lemma noted_app s s' cs : journal s' = journal s ++ cs -> noted s s' = cs.
Proof. intros H. unfold noted. by rewrite H, drop_app_length. Qed.

Lemma pick_app p a b : pick p (a ++ b) = pick p a ++ pick p b.
Proof. apply List.filter_app. Qed.

Lemma added_same w : added w w = [].
Proof. unfold added. apply drop_all. Qed.

Lemma lift_gets {A} (g : World -> A) s : lift (gets g) s = (Returns (g (instance s)), s).
Proof.
  unfold lift, gets. cbn [fst snd]. f_equal.
  apply Site_eq; [done|]. simpl. by rewrite added_same, app_nil_r.
Qed.

Lemma lift_modify g s :
  trace (g (instance s)) = trace (instance s) ->
  lift (modify g) s = (Returns tt, {| instance := g (instance s); journal := journal s |}).
Proof.
  intros Ht. unfold lift, modify. cbn [fst snd]. f_equal.
  apply Site_eq; [done|]. simpl. unfold added. by rewrite Ht, drop_all, app_nil_r.
Qed.

Lemma lift_console_log line s :
  lift (console_log line) s
  = (Returns tt,
     {| instance := set_console (fun c => c ++ [line]) (instance s); journal := journal s |}).
Proof.
  unfold lift, console_log. cbn [fst snd]. f_equal.
  apply Site_eq; [done|]. simpl. unfold added. simpl. by rewrite drop_all, app_nil_r.
Qed.

Lemma lift_fire {A} ev (r : unawaited A) s :
  lift (fire ev r) s
  = (match r with Threw e => Throws e | Dropped _ => Returns tt end,
     {| instance := emitted (fire_events ev r) (instance s);
        journal := journal s ++ (Earlier <$> fire_events ev r) |}).
Proof.
  unfold lift. rewrite fire_emitted. cbn [fst snd]. by rewrite added_emitted.
Qed.

Lemma lift_invoke {A} ev (o : outcome A) s :
  lift (invoke ev o) s
  = (o, {| instance := emitted [ev] (instance s); journal := journal s ++ [Earlier ev] |}).
Proof.
  unfold lift. rewrite invoke_emitted. cbn [fst snd]. by rewrite added_emitted.
Qed.

(** ** Computations that issue no call of some kind *)

Section Quiet.

Context (p : Call -> bool).

Lemma quiet_xret {A} (a : A) : quiet p (xret a).
Proof. intros s. exists []. by rewrite app_nil_r. Qed.

Lemma quiet_request {A} c (o : outcome A) : p c = false -> quiet p (request c o).
Proof. intros Hp s. exists [c]. split; [done|]. simpl. by rewrite Hp. Qed.

Lemma quiet_launch {A} c (r : unawaited A) :
  p c = false -> (forall e, p (Earlier (EvUnhandledRejection e)) = false) ->
  quiet p (launch c r).
Proof.
  intros Hp Hu s. exists (launch_calls c r). split; [done|].
  destruct r as [e|[a|e]]; simpl; by rewrite Hp, ?Hu.
Qed.

Lemma quiet_lift {A} (m : M A) : (forall ev, p (Earlier ev) = false) -> quiet p (lift m).
Proof.
  intros Hp s. eexists. split; [done|].
  induction (added _ _) as [|ev evs IH]; [done|]. simpl. by rewrite Hp.
Qed.

Lemma quiet_xbind {A B} (m : MX A) (k : A -> MX B) :
  quiet p m -> (forall a, quiet p (k a)) -> quiet p (xbind m k).
Proof.
  intros Hm Hk s. unfold xbind.
  destruct (Hm s) as (cs & Hs & Hcs).
  destruct (m s) as [[a|e] s1]; simpl in Hs.
  - destruct (Hk a s1) as (cs' & Hs' & Hcs').
    exists (cs ++ cs'). rewrite Hs', Hs, pick_app, Hcs, Hcs', app_assoc. done.
  - by exists cs.
Qed.

Lemma quiet_xtry {A} (m : MX A) (h : string -> MX A) :
  quiet p m -> (forall e, quiet p (h e)) -> quiet p (xtry m h).
Proof.
  intros Hm Hh s. unfold xtry.
  destruct (Hm s) as (cs & Hs & Hcs).
  destruct (m s) as [[a|e] s1]; simpl in Hs.
  - by exists cs.
  - destruct (Hh e s1) as (cs' & Hs' & Hcs').
    exists (cs ++ cs'). rewrite Hs', Hs, pick_app, Hcs, Hcs', app_assoc. done.
Qed.

Lemma quiet_dropped {A} (m : MX A) :
  (forall e, p (Earlier (EvUnhandledRejection e)) = false) ->
  quiet p m -> quiet p (dropped m).
Proof.
  intros Hu Hm s. unfold dropped.
  destruct (Hm s) as (cs & Hs & Hcs).
  destruct (m s) as [[a|e] s1]; simpl in Hs.
  - by exists cs.
  - exists (cs ++ [Earlier (EvUnhandledRejection e)]).
    simpl. rewrite Hs, pick_app, Hcs, app_assoc. simpl. by rewrite Hu.
Qed.

End Quiet.

Lemma quiet_noted {A} p (m : MX A) s : quiet p m -> pick p (noted s (snd (m s))) = [].
Proof. intros H. destruct (H s) as (cs & Hs & Hcs). by rewrite (noted_app _ _ cs). Qed.

(** ** The QR prompt *)

Section QrPrompt.

Variable env : Env.
Variable px : Ports.

Local Open Scope site_scope.

(** One [qr] signal while a prompt is on display. *)
Lemma qrCallback_update qr ref s :
  QrCodeMessageId (instance s) = Some ref ->
  truthy (Some ref) = true ->
  returns (imageSync px qr) = true ->
  saveFile px (qrCodePath env) (rendered px qr) = Returns tt ->
  qrCallback env px qr s
  = (updateQRCode px (qrCodePath env) ref,
     log_calls (qr_calls env px qr (CallUpdateQRCode (qrCodePath env) ref)) s).
Proof.
  intros Hprompt Htruthy Himage Hsave. unfold rendered in *.
  unfold qrCallback, xbind at 1, request at 1.
  destruct (imageSync px qr) as [png|e] eqn:Hpng; [|done].
  unfold xbind at 1, request at 1. rewrite Hsave.
  unfold xbind at 1. rewrite lift_gets. cbn [instance log_calls].
  rewrite Hprompt, Htruthy. unfold request, qr_calls, rendered.
  rewrite Hpng, !log_calls_app. done.
Qed.

(** One [qr] signal while there is none. *)
Lemma qrCallback_send qr s :
  truthy (QrCodeMessageId (instance s)) = false ->
  returns (imageSync px qr) = true ->
  saveFile px (qrCodePath env) (rendered px qr) = Returns tt ->
  qrCallback env px qr s
  = match sendQRcode px (qrCodePath env) with
    | Returns sent =>
        (Returns tt,
         {| instance := set_QrCodeMessageId sent (instance s);
            journal := journal s
                       ++ qr_calls env px qr (CallSendQRcode (qrCodePath env)) |})
    | Throws e =>
        (Throws e, log_calls (qr_calls env px qr (CallSendQRcode (qrCodePath env))) s)
    end.
Proof.
  intros Hfalsy Himage Hsave. unfold rendered in *.
  unfold qrCallback, xbind at 1, request at 1.
  destruct (imageSync px qr) as [png|e] eqn:Hpng; [|done].
  unfold xbind at 1, request at 1. rewrite Hsave.
  unfold xbind at 1. rewrite lift_gets. cbn [instance log_calls].
  assert (Hsend : sendPrompt env px
                    (log_calls [CallSaveFile (qrCodePath env) png]
                       (log_calls [CallImageSync qr] s))
                  = match sendQRcode px (qrCodePath env) with
                    | Returns sent =>
                        (Returns tt,
                         {| instance := set_QrCodeMessageId sent (instance s);
                            journal := journal s
                                       ++ qr_calls env px qr
                                            (CallSendQRcode (qrCodePath env)) |})
                    | Throws e =>
                        (Throws e,
                         log_calls (qr_calls env px qr (CallSendQRcode (qrCodePath env))) s)
                    end).
  { unfold sendPrompt, xbind, request, qr_calls, rendered. rewrite Hpng, !log_calls_app.
    destruct (sendQRcode px (qrCodePath env)) as [sent|e]; [|done].
    rewrite lift_modify by done. done. }
  destruct (QrCodeMessageId (instance s)) as [ref|]; [|exact Hsend].
  rewrite Hfalsy. exact Hsend.
Qed.

(** Any number of [qr] signals while a prompt is on display. *)
Lemma for_each_qr_update ref codes : forall s,
  QrCodeMessageId (instance s) = Some ref ->
  truthy (Some ref) = true ->
  (forall qr, returns (imageSync px qr) = true
              /\ saveFile px (qrCodePath env) (rendered px qr) = Returns tt) ->
  updateQRCode px (qrCodePath env) ref = Returns tt ->
  for_each codes (qrCallback env px) s
  = (Returns tt,
     log_calls (flat_map (fun qr => qr_calls env px qr (CallUpdateQRCode (qrCodePath env) ref))
                  codes) s).
Proof.
  intros s Hprompt Htruthy Hfiles Hupdate. revert s Hprompt.
  induction codes as [|qr rest IH]; intros s Hprompt.
  - simpl. unfold xret. by rewrite log_calls_nil.
  - simpl for_each. unfold xbind at 1.
    destruct (Hfiles qr) as [Himage Hsave].
    rewrite (qrCallback_update qr ref) by done. rewrite Hupdate.
    rewrite IH by done. by rewrite log_calls_app.
Qed.

Lemma pick_qr_updates ref codes :
  pick is_send_prompt
    (flat_map (fun qr => qr_calls env px qr (CallUpdateQRCode (qrCodePath env) ref)) codes) = []
  /\ pick is_update_prompt
       (flat_map (fun qr => qr_calls env px qr (CallUpdateQRCode (qrCodePath env) ref)) codes)
     = replicate (length codes) (CallUpdateQRCode (qrCodePath env) ref).
Proof.
  induction codes as [|qr rest [IH1 IH2]]; [done|].
  simpl. by rewrite IH1, IH2.
Qed.

(** X15: a QR prompt is sent once and then updated in place.  Starting
    without a prompt, when the images are written and Telegram answers, the
    first [qr] signal sends the prompt and keeps the id Telegram hands back;
    every later signal updates the message with that id and sends nothing
    new. *)
Theorem qr_prompt_is_sent_once_then_updated
    (qr : string) (more : list string) (ref : Z) (s : Site) :
  truthy (QrCodeMessageId (instance s)) = false ->
  (forall qr, returns (imageSync px qr) = true
              /\ saveFile px (qrCodePath env) (rendered px qr) = Returns tt) ->
  sendQRcode px (qrCodePath env) = Returns (Some ref) ->
  ref <> 0 ->
  updateQRCode px (qrCodePath env) ref = Returns tt ->
  let s' := snd (for_each (qr :: more) (qrCallback env px) s) in
  fst (for_each (qr :: more) (qrCallback env px) s) = Returns tt
  /\ pick is_send_prompt (noted s s') = [CallSendQRcode (qrCodePath env)]
  /\ pick is_update_prompt (noted s s')
     = replicate (length more) (CallUpdateQRCode (qrCodePath env) ref)
  /\ QrCodeMessageId (instance s') = Some ref
  /\ noted s s'
     = qr_calls env px qr (CallSendQRcode (qrCodePath env))
       ++ flat_map (fun qr => qr_calls env px qr (CallUpdateQRCode (qrCodePath env) ref)) more.
Proof.
  intros Hfalsy Hfiles Hsend Href Hupdate s'.
  assert (Htruthy : truthy (Some ref) = true).
  { simpl. by apply negb_true_iff, Z.eqb_neq. }
  assert (Hrun : for_each (qr :: more) (qrCallback env px) s
                 = (Returns tt,
                    {| instance := set_QrCodeMessageId (Some ref) (instance s);
                       journal := journal s
                                  ++ (qr_calls env px qr (CallSendQRcode (qrCodePath env))
                                      ++ flat_map
                                           (fun qr => qr_calls env px qr
                                                        (CallUpdateQRCode (qrCodePath env) ref))
                                           more) |})).
  { simpl for_each. unfold xbind at 1. destruct (Hfiles qr) as [Himage Hsave].
    rewrite qrCallback_send, Hsend by done.
    rewrite (for_each_qr_update ref) by done.
    f_equal. apply Site_eq; [done|]. cbn [journal log_calls]. by rewrite <- app_assoc. }
  unfold s'. rewrite Hrun. cbn [fst snd].
  unfold noted. cbn [journal]. rewrite drop_app_length.
  destruct (pick_qr_updates ref more) as [Hp1 Hp2].
  rewrite !pick_app, Hp1, Hp2. done.
Qed.

(** X16: a prompt without an id is sent again.  When Telegram hands back no
    id for the prompt (or the id 0), every [qr] signal sends a new prompt and
    none updates one. *)
Theorem qr_prompt_without_id_is_sent_again
    (codes : list string) (sent : option Z) (s : Site) :
  truthy (QrCodeMessageId (instance s)) = false ->
  (forall qr, returns (imageSync px qr) = true
              /\ saveFile px (qrCodePath env) (rendered px qr) = Returns tt) ->
  sendQRcode px (qrCodePath env) = Returns sent ->
  truthy sent = false ->
  let s' := snd (for_each codes (qrCallback env px) s) in
  fst (for_each codes (qrCallback env px) s) = Returns tt
  /\ pick is_send_prompt (noted s s')
     = replicate (length codes) (CallSendQRcode (qrCodePath env))
  /\ pick is_update_prompt (noted s s') = []
  /\ truthy (QrCodeMessageId (instance s')) = false.
Proof.
  intros Hfalsy Hfiles Hsend Hsent. revert s Hfalsy.
  assert (Hgen : forall s, truthy (QrCodeMessageId (instance s)) = false ->
            exists cs,
              for_each codes (qrCallback env px) s
              = (Returns tt,
                 {| instance := match codes with
                                | [] => instance s
                                | _ :: _ => set_QrCodeMessageId sent (instance s)
                                end;
                    journal := journal s ++ cs |})
              /\ pick is_send_prompt cs
                 = replicate (length codes) (CallSendQRcode (qrCodePath env))
              /\ pick is_update_prompt cs = []).
  { induction codes as [|qr rest IH]; intros s Hfalsy.
    - exists []. split; [|done]. simpl. unfold xret. f_equal.
      apply Site_eq; [done|]. simpl. by rewrite app_nil_r.
    - simpl for_each. unfold xbind at 1. destruct (Hfiles qr) as [Himage Hsave].
      rewrite qrCallback_send, Hsend by done.
      destruct (IH {| instance := set_QrCodeMessageId sent (instance s);
                      journal := journal s
                                 ++ qr_calls env px qr (CallSendQRcode (qrCodePath env)) |})
        as (cs & Hrun & Hcs1 & Hcs2); [done|].
      exists (qr_calls env px qr (CallSendQRcode (qrCodePath env)) ++ cs).
      rewrite Hrun. split; [|by rewrite !pick_app, Hcs1, Hcs2].
      f_equal. apply Site_eq; [by destruct rest|]. cbn [journal]. by rewrite <- app_assoc. }
  intros s Hfalsy s'. destruct (Hgen s Hfalsy) as (cs & Hrun & Hcs1 & Hcs2).
  unfold s'. rewrite Hrun. cbn [fst snd]. unfold noted. cbn [journal]. rewrite drop_app_length.
  repeat split; try done. by destruct codes.
Qed.

(** X17: a QR code that cannot be rendered or written is not shown.  When
    [imageSync] or [saveFile] throws, Telegram is not contacted, the instance
    is left as it was, and the exception leaves the listener: the emitter,
    which drops the listener's promise, is left with a rejection nobody
    handles. *)
Theorem unwritten_qr_code_is_not_shown (qr e : string) (s : Site) :
  imageSync px qr = Throws e
  \/ (returns (imageSync px qr) = true
      /\ saveFile px (qrCodePath env) (rendered px qr) = Throws e) ->
  let s' := snd (qrCallback env px qr s) in
  fst (qrCallback env px qr s) = Throws e
  /\ instance s' = instance s
  /\ pick is_send_prompt (noted s s') = []
  /\ pick is_update_prompt (noted s s') = []
  /\ dropped (qrCallback env px qr) s
     = (Returns tt, log_calls [Earlier (EvUnhandledRejection e)] s').
Proof.
  intros Hfail s'.
  assert (Hrun : exists cs,
            qrCallback env px qr s = (Throws e, log_calls cs s)
            /\ pick is_send_prompt cs = [] /\ pick is_update_prompt cs = []).
  { unfold rendered in Hfail. unfold qrCallback, xbind at 1, request at 1.
    destruct Hfail as [Himage | [Himage Hsave]].
    - rewrite Himage. by exists [CallImageSync qr].
    - destruct (imageSync px qr) as [png|e']; [|done].
      unfold xbind at 1, request at 1. rewrite Hsave, log_calls_app.
      by eexists. }
  destruct Hrun as (cs & Hrun & Hcs1 & Hcs2).
  unfold s', dropped. rewrite Hrun. cbn [fst snd]. by rewrite noted_log_calls.
Qed.

End QrPrompt.

(** The registrations at the end of the listener for [ready] call
    [getChats], for the unread pass they start, and leave the prompt alone. *)
Lemma registrations_run w :
  exists w',
    (setupMessageHandler ;;; RegisterMessageCheck ;;; registerBlockOnCalls) w
    = (Returns tt, w')
    /\ trace w' = trace w ++ [EvGetChats]
    /\ QrCodeMessageId w' = QrCodeMessageId w.
Proof. by eexists. Qed.

(** The listener for [ready] and the prompt, whatever the collaborators do:
    when the listener gets to its end, a prompt that was on display has been
    retracted, once, and forgotten. *)
Lemma readyCallback_prompt env w :
  exists r w' evs,
    readyCallback env w = (r, w')
    /\ trace w' = trace w ++ evs
    /\ (r = Returns tt ->
        QrCodeMessageId w'
        = (if truthy (QrCodeMessageId w) then None else QrCodeMessageId w)
        /\ only is_telegram_delete evs
           = match QrCodeMessageId w with
             | Some ref => if truthy (Some ref) then [EvTelegramDelete ref] else []
             | None => []
             end).
Proof.
  assert (Hrest : forall w2 evs,
            trace w2 = trace w ++ evs ->
            exists r w',
              (setupMessageHandler ;;; RegisterMessageCheck ;;; registerBlockOnCalls) w2
              = (r, w')
              /\ r = Returns tt
              /\ trace w' = trace w ++ (evs ++ [EvGetChats])
              /\ QrCodeMessageId w' = QrCodeMessageId w2).
  { intros w2 evs Hw2. destruct (registrations_run w2) as (w' & -> & Ht & Hq).
    exists (Returns tt), w'. by rewrite Ht, Hw2, <- app_assoc. }
  unfold readyCallback, bind at 1, modify. cbn [fst snd].
  unfold bind at 1. rewrite fire_emitted.
  destruct (telegram_sendMessage env _) as [e|sent]; [by eexists (Throws e), _, _|].
  unfold bind at 1. rewrite fire_emitted, emitted_app.
  destruct (trackEvent env "system_event") as [e|tracked] eqn:Htrack.
  { eexists (Throws e), _, _. split; [done|]. by split. }
  unfold bind at 1, gets. cbn [fst snd].
  set (evs1 := fire_events _ (Dropped sent) ++ fire_events _ (Dropped tracked)).
  assert (He1 : only is_telegram_delete evs1 = []).
  { unfold evs1. rewrite only_app. by destruct sent as [[]|?], tracked as [[]|?]. }
  change (QrCodeMessageId (emitted evs1 (set_isAuthenticated true w)))
    with (QrCodeMessageId w).
  unfold bind at 1.
  destruct (QrCodeMessageId w) as [ref|] eqn:Eq; cycle 1.
  { unfold ret. cbn beta iota.
    destruct (Hrest (emitted evs1 (set_isAuthenticated true w)) evs1 eq_refl)
      as (r & w' & -> & -> & Ht & Hq).
    exists (Returns tt), w', (evs1 ++ [EvGetChats]).
    rewrite only_app, He1. repeat split; try done. by rewrite Hq. }
  unfold when. destruct (truthy (Some ref)) eqn:Et; cycle 1.
  { unfold ret. cbn beta iota.
    destruct (Hrest (emitted evs1 (set_isAuthenticated true w)) evs1 eq_refl)
      as (r & w' & -> & -> & Ht & Hq).
    exists (Returns tt), w', (evs1 ++ [EvGetChats]).
    rewrite only_app, He1. repeat split; try done. by rewrite Hq. }
  unfold bind at 1. rewrite fire_emitted, emitted_app.
  destruct (telegram_deleteMessage env ref) as [e|deleted] eqn:Hdel.
  { eexists (Throws e), _, _. split; [done|]. by split. }
  unfold bind at 1, modify. cbn [fst snd].
  unfold bind at 1, not_awaited, clearQRCodes. rewrite invoke_emitted.
  set (w3 := match removeFile env (qrCodePath env) with
             | Returns _ => _
             | Throws e => _
             end).
  set (cleared := match removeFile env (qrCodePath env) with
                  | Returns _ => [EvRemoveFile (qrCodePath env)]
                  | Throws e => [EvRemoveFile (qrCodePath env); EvUnhandledRejection e]
                  end).
  assert (Hw3 : w3 = (Returns tt,
                      emitted cleared
                        (set_QrCodeMessageId None
                           (emitted (evs1 ++ fire_events (EvTelegramDelete ref)
                                               (Dropped deleted))
                              (set_isAuthenticated true w))))).
  { unfold w3, cleared. destruct (removeFile env (qrCodePath env)) as [[]|e]; [done|].
    f_equal. apply World_eq; try done. cbn [trace emitted set_trace set_QrCodeMessageId].
    by rewrite <- !app_assoc. }
  rewrite Hw3. clear w3 Hw3. cbn beta iota. rewrite fire_emitted.
  set (evs := ((evs1 ++ fire_events (EvTelegramDelete ref) (Dropped deleted)) ++ cleared)
              ++ fire_events (EvTrackEvent "system_event" "system"
                                "qrcode_authentication_completed") (Dropped tracked)).
  assert (He : only is_telegram_delete evs = [EvTelegramDelete ref]).
  { unfold evs, cleared. rewrite !only_app, He1.
    by destruct deleted as [[]|?], (removeFile env (qrCodePath env)) as [[]|?],
         tracked as [[]|?]. }
  destruct (Hrest (emitted (fire_events (EvTrackEvent "system_event" "system"
                                           "qrcode_authentication_completed")
                              (Dropped tracked))
                     (emitted cleared
                        (set_QrCodeMessageId None
                           (emitted (evs1 ++ fire_events (EvTelegramDelete ref)
                                               (Dropped deleted))
                              (set_isAuthenticated true w))))) evs)
    as (r & w' & -> & -> & Ht & Hq).
  { unfold evs, emitted. simpl. by rewrite <- !app_assoc. }
  exists (Returns tt), w', (evs ++ [EvGetChats]).
  rewrite only_app, He. repeat split; try done.
Qed.

Lemma pick_retract_earlier evs :
  pick is_retract (Earlier <$> evs) = Earlier <$> only is_telegram_delete evs.
Proof.
  induction evs as [|ev rest IH]; [done|].
  unfold pick, only in *. rewrite fmap_cons. cbn [List.filter].
  destruct ev; cbn [is_retract is_telegram_delete]; by rewrite IH.
Qed.

(** X18: [ready] retracts the prompt that [qr] put up, and a later [qr]
    starts over.  After a [qr] signal that sent a prompt with the id [ref],
    a [ready] whose listener gets to its end has deleted the message [ref],
    once, and forgotten the id, whatever the collaborators do; the next [qr]
    signal then sends a new prompt instead of updating the deleted one. *)
Theorem ready_retracts_the_prompt
    (env : Env) (px : Ports) (qr1 qr2 : string) (ref : Z) (s0 : Site) :
  truthy (QrCodeMessageId (instance s0)) = false ->
  (forall qr, returns (imageSync px qr) = true
              /\ saveFile px (qrCodePath env) (rendered px qr) = Returns tt) ->
  sendQRcode px (qrCodePath env) = Returns (Some ref) ->
  ref <> 0 ->
  let s1 := snd (qrCallback env px qr1 s0) in
  let s2 := snd (lift (readyCallback env) s1) in
  let s3 := snd (qrCallback env px qr2 s2) in
  fst (readyCallback env (instance s1)) = Returns tt ->
  QrCodeMessageId (instance s1) = Some ref
  /\ pick is_retract (noted s1 s2) = [Earlier (EvTelegramDelete ref)]
  /\ QrCodeMessageId (instance s2) = None
  /\ pick is_send_prompt (noted s2 s3) = [CallSendQRcode (qrCodePath env)]
  /\ pick is_update_prompt (noted s2 s3) = [].
Proof.
  intros Hfalsy Hfiles Hsend Href s1 s2 s3 Hready.
  assert (Htruthy : truthy (Some ref) = true).
  { simpl. by apply negb_true_iff, Z.eqb_neq. }
  assert (Hs1 : QrCodeMessageId (instance s1) = Some ref).
  { unfold s1. destruct (Hfiles qr1) as [Himage Hsave].
    by rewrite qrCallback_send, Hsend by done. }
  split; [done|].
  destruct (readyCallback_prompt env (instance s1)) as (r & w' & evs & Hrun & Ht & Hdone).
  rewrite Hrun in Hready. cbn [fst] in Hready. subst r.
  destruct (Hdone eq_refl) as [Hq Hdel]. rewrite Hs1, Htruthy in Hq, Hdel.
  assert (Hs2 : instance s2 = w' /\ noted s1 s2 = Earlier <$> evs).
  { unfold s2, lift. rewrite Hrun. cbn [fst snd instance]. split; [done|].
    unfold noted. cbn [journal]. rewrite drop_app_length.
    unfold added. by rewrite Ht, drop_app_length. }
  destruct Hs2 as [Hi2 Hn2].
  rewrite Hn2, pick_retract_earlier, Hdel, Hi2, Hq.
  split; [done|]. split; [done|].
  unfold s3. destruct (Hfiles qr2) as [Himage Hsave].
  rewrite qrCallback_send, Hsend; [| by rewrite Hi2, Hq | done | done].
  cbn [snd]. unfold noted. cbn [journal]. by rewrite drop_app_length.
Qed.

(** ** Incoming calls *)

Section IncomingCalls.

Variable env : Env.
Variable px : Ports.

Local Open Scope site_scope.

Lemma xbind_assoc {A B C} (m : MX A) (k : A -> MX B) (h : B -> MX C) s :
  xbind (xbind m k) h s = xbind m (fun a => xbind (k a) h) s.
Proof. unfold xbind. by destruct (m s) as [[a|e] s1]. Qed.

Lemma xbind_xret (m : MX unit) s : xbind m (fun _ => xret tt) s = m s.
Proof. unfold xbind, xret. by destruct (m s) as [[[]|e] s1]. Qed.

Lemma rejectAndReport_quiet p call :
  p CallReject = false -> (forall ev, p (Earlier ev) = false) ->
  quiet p (rejectAndReport env call).
Proof.
  intros Hp He. unfold rejectAndReport.
  apply quiet_xbind; [by apply quiet_launch|]. intros _.
  apply quiet_xbind; [by apply quiet_lift|]. intros _.
  apply quiet_xbind; [by apply quiet_lift|]. intros _.
  by apply quiet_lift.
Qed.

Lemma blockCaller_quiet p userId :
  (forall c, is_about_caller c = true -> p c = false) ->
  quiet p (blockCaller px userId).
Proof.
  intros Hp. unfold blockCaller.
  apply quiet_xbind; [by apply quiet_request, Hp|]. intros user.
  apply quiet_xbind; [by apply quiet_request, Hp|]. intros chat.
  apply quiet_xbind; [by apply quiet_request, Hp|]. intros _.
  by apply quiet_request, Hp.
Qed.

(** X19: every call is rejected, and that comes first.  Whatever the call
    and the collaborators, the first thing the listener does is to reject the
    call, and it does so once. *)
Theorem every_call_is_rejected_first (call : IncomingCall) (s : Site) :
  exists rest,
    noted s (snd (callCallback env px call s)) = CallReject :: rest
    /\ pick is_reject rest = [].
Proof.
  assert (Hafter : quiet is_reject
            (xbind (lift (console_log "Call rejected:") ;;;
                    lift (fire (EvTrackEvent "system_event" "system" "call_rejected")
                               (trackEvent env "system_event")) ;;;
                    lift (fire (EvTelegramSend
                                  ("Call from " +:+ shown (call_from call) +:+ " rejected."))
                               (telegram_sendMessage env
                                  ("Call from " +:+ shown (call_from call) +:+ " rejected."))))
                   (fun _ => match call_from call with
                             | None => xret tt
                             | Some userId =>
                                 if String.eqb userId "" then xret tt
                                 else blockCaller px userId
                             end))).
  { apply quiet_xbind.
    - apply quiet_xbind; [by apply quiet_lift|]. intros _.
      apply quiet_xbind; [by apply quiet_lift|]. intros _.
      by apply quiet_lift.
    - intros _. destruct (call_from call) as [userId|]; [|apply quiet_xret].
      destruct (String.eqb userId ""); [apply quiet_xret|].
      apply blockCaller_quiet. by intros []. }
  unfold callCallback, rejectAndReport. rewrite xbind_assoc.
  unfold xbind at 1, launch.
  destruct (call_reject call) as [e|settles].
  - exists []. cbn [snd]. by rewrite noted_log_calls.
  - destruct (Hafter (log_calls (launch_calls CallReject (Dropped settles)) s))
      as (cs & Hj & Hcs).
    exists (match settles with
            | Returns _ => []
            | Throws e => [Earlier (EvUnhandledRejection e)]
            end ++ cs).
    split.
    + apply noted_app. rewrite Hj. cbn [journal log_calls].
      rewrite <- app_assoc. by destruct settles.
    + rewrite pick_app, Hcs. by destruct settles.
Qed.

(** X20: a call without a caller id is rejected and reported, and that is
    all: nobody is looked up, written to or blocked, whatever the
    collaborators do. *)
Theorem anonymous_call_is_only_rejected (call : IncomingCall) (s : Site) :
  anonymous call = true ->
  callCallback env px call s = rejectAndReport env call s
  /\ pick is_about_caller (noted s (snd (callCallback env px call s))) = [].
Proof.
  intros Hanon.
  assert (Hrun : callCallback env px call s = rejectAndReport env call s).
  { unfold callCallback, anonymous in *.
    destruct (call_from call) as [userId|]; [rewrite Hanon|]; apply xbind_xret. }
  split; [done|]. rewrite Hrun. by apply quiet_noted, rejectAndReport_quiet.
Qed.

Lemma pick_block_about_caller cs : pick is_about_caller cs = [] -> pick is_block cs = [].
Proof.
  induction cs as [|c rest IH]; [done|].
  destruct c; simpl; try done; auto.
Qed.

Lemma blockCaller_cases userId s :
  blockCaller px userId s
  = match getContactById px userId with
    | Throws e => (Throws e, log_calls [CallGetContactById userId] s)
    | Returns user =>
        match contact_getChat px user with
        | Throws e =>
            (Throws e, log_calls [CallGetContactById userId; CallContactGetChat userId] s)
        | Returns chat =>
            match chat_sendMessage px chat blocked_notice with
            | Throws e =>
                (Throws e,
                 log_calls [CallGetContactById userId; CallContactGetChat userId;
                            CallSendMessage (chat_id chat) blocked_notice] s)
            | Returns _ =>
                (contact_block px user,
                 log_calls [CallGetContactById userId; CallContactGetChat userId;
                            CallSendMessage (chat_id chat) blocked_notice;
                            CallBlock userId] s)
            end
        end
    end.
Proof.
  unfold blockCaller, xbind, request.
  destruct (getContactById px userId) as [user|e]; [|done].
  destruct (contact_getChat px user) as [room|e]; [|by rewrite !log_calls_app].
  destruct (chat_sendMessage px room blocked_notice) as [[]|e]; by rewrite !log_calls_app.
Qed.

Lemma callCallback_cases call s :
  exists (r : outcome unit) s1 before,
    journal s1 = journal s ++ before
    /\ pick is_about_caller before = []
    /\ callCallback env px call s
       = match r with
         | Throws e => (Throws e, s1)
         | Returns _ =>
             match call_from call with
             | None => (Returns tt, s1)
             | Some userId =>
                 if String.eqb userId "" then (Returns tt, s1) else blockCaller px userId s1
             end
         end.
Proof.
  destruct (rejectAndReport_quiet is_about_caller call eq_refl (fun _ => eq_refl) s)
    as (before & Hj & Hbefore).
  unfold callCallback, xbind at 1.
  destruct (rejectAndReport env call s) as [r s1]. cbn [snd] in Hj.
  exists r, s1, before. split; [done|]. split; [done|].
  destruct r as [[]|e]; [|done].
  destruct (call_from call) as [userId|]; [|done]. by destruct (String.eqb userId "").
Qed.

(** X21: nobody is blocked without having been told.  Whatever the
    collaborators do, if a run of the listener calls [block], then the caller
    was looked up, their chat was obtained and the notice was sent to that
    chat and went through, in this order and just before the call to
    [block]. *)
Theorem caller_is_blocked_only_after_the_notice (call : IncomingCall) (s : Site) :
  pick is_block (noted s (snd (callCallback env px call s))) <> [] ->
  exists userId user chat before,
    call_from call = Some userId
    /\ userId <> ""
    /\ getContactById px userId = Returns user
    /\ contact_getChat px user = Returns chat
    /\ chat_sendMessage px chat blocked_notice = Returns tt
    /\ noted s (snd (callCallback env px call s))
       = before ++ [CallGetContactById userId; CallContactGetChat userId;
                    CallSendMessage (chat_id chat) blocked_notice; CallBlock userId]
    /\ pick is_about_caller before = [].
Proof.
  destruct (callCallback_cases call s) as (r & s1 & before & Hj & Hbefore & ->).
  pose proof (pick_block_about_caller before Hbefore) as Hnone.
  assert (Hnoted : forall cs, noted s (log_calls cs s1) = before ++ cs).
  { intros cs. apply noted_app. cbn [journal log_calls]. by rewrite Hj, <- app_assoc. }
  assert (Hs1 : noted s s1 = before) by by apply noted_app.
  destruct r as [[]|e]; [|cbn [snd]; rewrite Hs1; by intros []].
  destruct (call_from call) as [userId|] eqn:Hfrom;
    [|cbn [snd]; rewrite Hs1; by intros []].
  destruct (String.eqb userId "") eqn:Hid; [cbn [snd]; rewrite Hs1; by intros []|].
  apply String.eqb_neq in Hid. rewrite blockCaller_cases.
  destruct (getContactById px userId) as [user|e] eqn:Hlookup;
    [|cbn [snd]; rewrite Hnoted, pick_app, Hnone; by intros []].
  destruct (contact_getChat px user) as [chat|e] eqn:Hchat;
    [|cbn [snd]; rewrite Hnoted, pick_app, Hnone; by intros []].
  destruct (chat_sendMessage px chat blocked_notice) as [[]|e] eqn:Hsend;
    [|cbn [snd]; rewrite Hnoted, pick_app, Hnone; by intros []].
  intros _. exists userId, user, chat, before. cbn [snd]. by rewrite Hnoted.
Qed.

Lemma rejectAndReport_run call s :
  call_reject call = fulfilled ->
  trackEvent env "system_event" = fulfilled ->
  telegram_sendMessage env ("Call from " +:+ shown (call_from call) +:+ " rejected.")
    = fulfilled ->
  rejectAndReport env call s
  = (Returns tt,
     {| instance :=
          emitted [EvTrackEvent "system_event" "system" "call_rejected";
                   EvTelegramSend ("Call from " +:+ shown (call_from call) +:+ " rejected.")]
            (set_console (fun c => c ++ ["Call rejected:"]) (instance s));
        journal :=
          journal s
          ++ [CallReject;
              Earlier (EvTrackEvent "system_event" "system" "call_rejected");
              Earlier (EvTelegramSend
                         ("Call from " +:+ shown (call_from call) +:+ " rejected."))] |}).
Proof.
  intros Hreject Htrack Hnotice.
  unfold rejectAndReport. rewrite Hreject, Htrack, Hnotice. unfold fulfilled.
  unfold xbind at 1, launch. cbn [launch_calls].
  unfold xbind at 1. rewrite lift_console_log.
  unfold xbind at 1. rewrite lift_fire, lift_fire.
  f_equal. apply Site_eq; cbn [journal log_calls instance fire_events].
  - by rewrite emitted_app.
  - by rewrite <- !app_assoc.
Qed.

(** X22: what a call leads to when everything goes through: the call is
    rejected, the rejection is reported to the analytics and to Telegram with
    the caller's id, the caller is looked up, told that they are blocked, and
    then blocked. *)
Theorem caller_is_told_then_blocked
    (call : IncomingCall) (userId : string) (user : Contact) (chat : Chat) (s : Site) :
  call_from call = Some userId ->
  userId <> "" ->
  call_reject call = fulfilled ->
  trackEvent env "system_event" = fulfilled ->
  telegram_sendMessage env ("Call from " +:+ userId +:+ " rejected.") = fulfilled ->
  getContactById px userId = Returns user ->
  contact_getChat px user = Returns chat ->
  chat_sendMessage px chat blocked_notice = Returns tt ->
  contact_block px user = Returns tt ->
  fst (callCallback env px call s) = Returns tt
  /\ noted s (snd (callCallback env px call s))
     = [CallReject;
        Earlier (EvTrackEvent "system_event" "system" "call_rejected");
        Earlier (EvTelegramSend ("Call from " +:+ userId +:+ " rejected."));
        CallGetContactById userId; CallContactGetChat userId;
        CallSendMessage (chat_id chat) blocked_notice; CallBlock userId]
  /\ console (instance (snd (callCallback env px call s)))
     = console (instance s) ++ ["Call rejected:"].
Proof.
  intros Hfrom Hid Hreject Htrack Hnotice Hlookup Hchat Hsend Hblock.
  apply String.eqb_neq in Hid.
  assert (Hrun : callCallback env px call s
                 = (Returns tt,
                    log_calls [CallGetContactById userId; CallContactGetChat userId;
                               CallSendMessage (chat_id chat) blocked_notice;
                               CallBlock userId]
                      {| instance :=
                           emitted [EvTrackEvent "system_event" "system" "call_rejected";
                                    EvTelegramSend
                                      ("Call from " +:+ userId +:+ " rejected.")]
                             (set_console (fun c => c ++ ["Call rejected:"]) (instance s));
                         journal :=
                           journal s
                           ++ [CallReject;
                               Earlier (EvTrackEvent "system_event" "system" "call_rejected");
                               Earlier (EvTelegramSend
                                          ("Call from " +:+ userId +:+ " rejected."))] |})).
  { unfold callCallback, xbind at 1.
    rewrite rejectAndReport_run by (by rewrite ?Hfrom).
    rewrite Hfrom, Hid. cbn [shown].
    by rewrite blockCaller_cases, Hlookup, Hchat, Hsend, Hblock. }
  rewrite Hrun. cbn [fst snd]. split; [done|]. split; [|done].
  unfold noted. cbn [journal log_calls]. by rewrite <- app_assoc, drop_app_length.
Qed.

End IncomingCalls.

(** ** Broadcasts *)

Section Broadcasts.

Variable env : Env.
Variable px : Ports.

Local Open Scope site_scope.

Lemma recipients_cons c rest :
  recipients px (c :: rest)
  = if chat_isGroup px c then recipients px rest else c :: recipients px rest.
Proof.
  unfold recipients. rewrite filter_cons.
  destruct (chat_isGroup px c); simpl.
  - destruct (decide (Is_true false)) as [y|_]; [by destruct y|done].
  - destruct (decide (Is_true true)) as [_|n]; [done|by destruct n].
Qed.

(** The loop when every message goes through: it counts every chat. *)
Lemma sendToEach_run message chats : forall count s,
  Forall (fun c => chat_isGroup px c = false ->
                   chat_sendMessage px c message = Returns tt) chats ->
  sendToEach px message chats count s
  = (Returns (count + Z.of_nat (length chats)),
     log_calls ((fun c => CallSendMessage (chat_id c) message) <$> recipients px chats) s).
Proof.
  intros count s Hall. revert count s.
  induction Hall as [|c rest Hc _ IH]; intros count s.
  - simpl. unfold xret. by rewrite Z.add_0_r, log_calls_nil.
  - simpl sendToEach. rewrite recipients_cons. unfold xbind at 1.
    destruct (chat_isGroup px c).
    + unfold xret. rewrite IH. do 2 f_equal. cbn [length]. lia.
    + unfold request. rewrite (Hc eq_refl), IH, log_calls_app. do 2 f_equal.
      cbn [length]. lia.
Qed.

(** The loop stops at the first chat that cannot be written to. *)
Lemma sendToEach_stops message before c after e : forall count s,
  Forall (fun c => chat_isGroup px c = false ->
                   chat_sendMessage px c message = Returns tt) before ->
  chat_isGroup px c = false ->
  chat_sendMessage px c message = Throws e ->
  sendToEach px message (before ++ c :: after) count s
  = (Throws e,
     log_calls (((fun c => CallSendMessage (chat_id c) message) <$> recipients px before)
                ++ [CallSendMessage (chat_id c) message]) s).
Proof.
  intros count s Hall Hc He. revert count s.
  induction Hall as [|x rest Hx _ IH]; intros count s.
  - simpl. unfold xbind, request. by rewrite Hc, He.
  - simpl app. simpl sendToEach. rewrite recipients_cons. unfold xbind at 1.
    destruct (chat_isGroup px x).
    + unfold xret. by rewrite IH.
    + unfold request. by rewrite (Hx eq_refl), IH, log_calls_app.
Qed.

Lemma pick_send_messages message (chats : list Chat) :
  pick is_send_message ((fun c => CallSendMessage (chat_id c) message) <$> chats)
  = (fun c => CallSendMessage (chat_id c) message) <$> chats
  /\ pick is_notice ((fun c => CallSendMessage (chat_id c) message) <$> chats) = [].
Proof.
  induction chats as [|c rest [IH1 IH2]]; [done|].
  unfold pick in *. rewrite fmap_cons. simpl. by rewrite IH1, IH2.
Qed.

(** X23: a broadcast goes to the private chats, and reports all chats.
    When the messages go through, the broadcast is sent to every chat that is
    not a group, once and in the order of the chats, and to no group; the
    summary that is logged and sent to Telegram gives the number of all the
    chats, groups included. *)
Theorem broadcast_reaches_the_private_chats
    (message : string) (chats : list Chat) (s : Site) :
  let summary :=
    "Broadcast message sent to " +:+ pretty (Z.of_nat (length chats)) +:+ " chats." in
  getChats env = Returns chats ->
  Forall (fun c => chat_isGroup px c = false ->
                   chat_sendMessage px c message = Returns tt) chats ->
  telegram_sendMessage env summary = fulfilled ->
  let s' := snd (broadcastCallback env px message s) in
  fst (broadcastCallback env px message s) = Returns tt
  /\ pick is_send_message (noted s s')
     = (fun c => CallSendMessage (chat_id c) message) <$> recipients px chats
  /\ pick is_notice (noted s s') = [Earlier (EvTelegramSend summary)]
  /\ console (instance s')
     = console (instance s) ++ ["Broadcast message received: " +:+ message; summary].
Proof.
  intros summary Hchats Hall Hnotice s'.
  assert (Hrun : broadcastCallback env px message s
                 = (Returns tt,
                    {| instance :=
                         emitted [EvTelegramSend summary]
                           (set_console (fun c => c ++ [summary])
                              (emitted [EvGetChats]
                                 (set_console
                                    (fun c => c ++ ["Broadcast message received: "
                                                    +:+ message])
                                    (instance s))));
                       journal :=
                         journal s
                         ++ (Earlier EvGetChats
                             :: ((fun c => CallSendMessage (chat_id c) message)
                                   <$> recipients px chats)
                             ++ [Earlier (EvTelegramSend summary)]) |})).
  { unfold broadcastCallback, xtry, xbind at 1. rewrite lift_console_log.
    unfold xbind at 1. rewrite lift_invoke, Hchats.
    unfold xbind at 1. rewrite sendToEach_run by done. rewrite Z.add_0_l.
    fold summary. unfold xbind at 1. rewrite lift_console_log, lift_fire, Hnotice.
    f_equal. apply Site_eq; [done|]. cbn [journal log_calls instance fire_events].
    unfold fulfilled. cbn [fire_events]. rewrite <- !app_assoc. done. }
  unfold s'. rewrite Hrun. cbn [fst snd]. split; [done|].
  unfold noted. cbn [journal]. rewrite drop_app_length.
  destruct (pick_send_messages message (recipients px chats)) as [Hp1 Hp2].
  change (Earlier EvGetChats :: ?l) with ([Earlier EvGetChats] ++ l).
  rewrite !pick_app, Hp1, Hp2. repeat split; try done.
  - simpl. by rewrite app_nil_r.
  - simpl. by rewrite <- app_assoc.
Qed.

(** X24: a broadcast stops at the first chat it cannot write to.  The
    private chats before it have got the message, the chats after it get
    nothing, no summary is logged or sent to Telegram, the failure is written
    on the console and the listener returns. *)
Theorem broadcast_stops_at_the_first_failure
    (message e : string) (before : list Chat) (c : Chat) (after : list Chat) (s : Site) :
  getChats env = Returns (before ++ c :: after) ->
  Forall (fun c => chat_isGroup px c = false ->
                   chat_sendMessage px c message = Returns tt) before ->
  chat_isGroup px c = false ->
  chat_sendMessage px c message = Throws e ->
  let s' := snd (broadcastCallback env px message s) in
  fst (broadcastCallback env px message s) = Returns tt
  /\ pick is_send_message (noted s s')
     = ((fun c => CallSendMessage (chat_id c) message) <$> recipients px before)
       ++ [CallSendMessage (chat_id c) message]
  /\ pick is_notice (noted s s') = []
  /\ console (instance s')
     = console (instance s) ++ ["Broadcast message received: " +:+ message;
                                "Error sending broadcast message: " +:+ e].
Proof.
  intros Hchats Hall Hc He s'.
  assert (Hrun : broadcastCallback env px message s
                 = (Returns tt,
                    {| instance :=
                         set_console (fun c => c ++ ["Error sending broadcast message: "
                                                     +:+ e])
                           (emitted [EvGetChats]
                              (set_console
                                 (fun c => c ++ ["Broadcast message received: "
                                                 +:+ message])
                                 (instance s)));
                       journal :=
                         journal s
                         ++ ([Earlier EvGetChats]
                             ++ ((fun c => CallSendMessage (chat_id c) message)
                                   <$> recipients px before)
                             ++ [CallSendMessage (chat_id c) message]) |})).
  { unfold broadcastCallback, xtry, xbind at 1. rewrite lift_console_log.
    unfold xbind at 1. rewrite lift_invoke, Hchats.
    unfold xbind at 1. rewrite (sendToEach_stops message before c after e) by done.
    rewrite lift_console_log. f_equal. apply Site_eq; [done|].
    cbn [journal log_calls instance]. by rewrite <- !app_assoc. }
  unfold s'. rewrite Hrun. cbn [fst snd]. split; [done|].
  unfold noted. cbn [journal]. rewrite drop_app_length.
  destruct (pick_send_messages message (recipients px before)) as [Hp1 Hp2].
  rewrite !pick_app, Hp1, Hp2. repeat split; try done.
  simpl. by rewrite <- app_assoc.
Qed.

(** ** Starting the client *)

(** X25: the listeners are registered only after the client has started.
    When [client.initialize] fails, the failure leaves [initialize], nothing
    is registered and the instance is as it was; on a new instance, a later
    [ready] or inbound message then reaches no listener. *)
Theorem failed_start_registers_nothing (e : string) (m : Message) (s : Site) :
  client_initialize px = Throws e ->
  listeners (instance s) = [] ->
  let s' := snd (initialize px s) in
  fst (initialize px s) = Throws e
  /\ instance s' = instance s
  /\ noted s s' = [CallClientInitialize]
  /\ emit_ready env (instance s') = (Returns tt, instance s')
  /\ emit_message env m (instance s') = (Returns tt, instance s').
Proof.
  intros Hstart Hnone s'.
  assert (Hrun : initialize px s = (Throws e, log_calls [CallClientInitialize] s)).
  { unfold initialize, xbind, request. by rewrite Hstart. }
  unfold s'. rewrite Hrun. cbn [fst snd instance log_calls].
  rewrite noted_log_calls. repeat split; try done.
  - unfold emit_ready. apply emit_unheard. by rewrite Hnone.
  - unfold emit_message. apply emit_unheard. by rewrite Hnone.
Qed.

End Broadcasts.

Lemma qr_prompt_is_sent_once_then_updated_witness :
  let env := healthy [] in
  let px := ports (Some 42) in
  let s := a_site new_WhatsApp in
  let s' := snd (for_each ["code-1"; "code-2"; "code-3"] (qrCallback env px) s) in
  fst (for_each ["code-1"; "code-2"; "code-3"] (qrCallback env px) s) = Returns tt
  /\ pick is_send_prompt (noted s s') = [CallSendQRcode (qrCodePath env)]
  /\ pick is_update_prompt (noted s s')
     = replicate (length ["code-2"; "code-3"]) (CallUpdateQRCode (qrCodePath env) 42)
  /\ QrCodeMessageId (instance s') = Some 42
  /\ noted s s'
     = qr_calls env px "code-1" (CallSendQRcode (qrCodePath env))
       ++ flat_map (fun qr => qr_calls env px qr (CallUpdateQRCode (qrCodePath env) 42))
            ["code-2"; "code-3"].
Proof.
  apply (qr_prompt_is_sent_once_then_updated (healthy []) (ports (Some 42)) "code-1"
           ["code-2"; "code-3"] 42 (a_site new_WhatsApp)).
  - reflexivity.
  - intros qr. split; reflexivity.
  - reflexivity.
  - lia.
  - reflexivity.
Defined.

Lemma qr_prompt_without_id_is_sent_again_witness :
  let env := healthy [] in
  let px := ports None in
  let s := a_site new_WhatsApp in
  let s' := snd (for_each ["code-1"; "code-2"] (qrCallback env px) s) in
  fst (for_each ["code-1"; "code-2"] (qrCallback env px) s) = Returns tt
  /\ pick is_send_prompt (noted s s')
     = replicate (length ["code-1"; "code-2"]) (CallSendQRcode (qrCodePath env))
  /\ pick is_update_prompt (noted s s') = []
  /\ truthy (QrCodeMessageId (instance s')) = false.
Proof.
  apply (qr_prompt_without_id_is_sent_again (healthy []) (ports None) ["code-1"; "code-2"]
           None (a_site new_WhatsApp)).
  - reflexivity.
  - intros qr. split; reflexivity.
  - reflexivity.
  - reflexivity.
Defined.

Lemma unwritten_qr_code_is_not_shown_witness :
  let env := healthy [] in
  let px := faulty_ports "b@c.us" in
  let s := a_site awaiting_scan in
  let s' := snd (qrCallback env px "code-1" s) in
  fst (qrCallback env px "code-1" s) = Throws "EACCES"
  /\ instance s' = instance s
  /\ pick is_send_prompt (noted s s') = []
  /\ pick is_update_prompt (noted s s') = []
  /\ dropped (qrCallback env px "code-1") s
     = (Returns tt, log_calls [Earlier (EvUnhandledRejection "EACCES")] s').
Proof.
  apply (unwritten_qr_code_is_not_shown (healthy []) (faulty_ports "b@c.us") "code-1"
           "EACCES" (a_site awaiting_scan)).
  right. split; reflexivity.
Defined.

Lemma ready_retracts_the_prompt_witness :
  let env := healthy [] in
  let px := ports (Some 42) in
  let s0 := a_site (snd (setupWhatsAppEventHandlers new_WhatsApp)) in
  let s1 := snd (qrCallback env px "code-1" s0) in
  let s2 := snd (lift (readyCallback env) s1) in
  let s3 := snd (qrCallback env px "code-2" s2) in
  QrCodeMessageId (instance s1) = Some 42
  /\ pick is_retract (noted s1 s2) = [Earlier (EvTelegramDelete 42)]
  /\ QrCodeMessageId (instance s2) = None
  /\ pick is_send_prompt (noted s2 s3) = [CallSendQRcode (qrCodePath env)]
  /\ pick is_update_prompt (noted s2 s3) = [].
Proof.
  apply (ready_retracts_the_prompt (healthy []) (ports (Some 42)) "code-1" "code-2" 42
           (a_site (snd (setupWhatsAppEventHandlers new_WhatsApp)))).
  - reflexivity.
  - intros qr. split; reflexivity.
  - reflexivity.
  - lia.
  - reflexivity.
Defined.

Lemma anonymous_call_is_only_rejected_witness :
  let env := healthy [] in
  let px := ports None in
  let s := a_site new_WhatsApp in
  callCallback env px (a_call None) s = rejectAndReport env (a_call None) s
  /\ pick is_about_caller (noted s (snd (callCallback env px (a_call None) s))) = [].
Proof.
  apply (anonymous_call_is_only_rejected (healthy []) (ports None) (a_call None)
           (a_site new_WhatsApp)).
  reflexivity.
Defined.

Lemma caller_is_blocked_only_after_the_notice_witness :
  let env := healthy [] in
  let px := ports None in
  let s := a_site new_WhatsApp in
  let call := a_call (Some "201000000000@c.us") in
  exists userId user chat before,
    call_from call = Some userId
    /\ userId <> ""
    /\ getContactById px userId = Returns user
    /\ contact_getChat px user = Returns chat
    /\ chat_sendMessage px chat blocked_notice = Returns tt
    /\ noted s (snd (callCallback env px call s))
       = before ++ [CallGetContactById userId; CallContactGetChat userId;
                    CallSendMessage (chat_id chat) blocked_notice; CallBlock userId]
    /\ pick is_about_caller before = [].
Proof.
  apply (caller_is_blocked_only_after_the_notice (healthy []) (ports None)
           (a_call (Some "201000000000@c.us")) (a_site new_WhatsApp)).
  vm_compute. discriminate.
Defined.

Lemma caller_is_told_then_blocked_witness :
  let env := healthy [] in
  let px := ports None in
  let s := a_site new_WhatsApp in
  let call := a_call (Some "201000000000@c.us") in
  fst (callCallback env px call s) = Returns tt
  /\ noted s (snd (callCallback env px call s))
     = [CallReject;
        Earlier (EvTrackEvent "system_event" "system" "call_rejected");
        Earlier (EvTelegramSend ("Call from " +:+ "201000000000@c.us" +:+ " rejected."));
        CallGetContactById "201000000000@c.us"; CallContactGetChat "201000000000@c.us";
        CallSendMessage "201000000000@c.us" blocked_notice;
        CallBlock "201000000000@c.us"]
  /\ console (instance (snd (callCallback env px call s)))
     = console (instance s) ++ ["Call rejected:"].
Proof.
  apply (caller_is_told_then_blocked (healthy []) (ports None)
           (a_call (Some "201000000000@c.us")) "201000000000@c.us" ada
           {| chat_id := "201000000000@c.us"; unreadCount := 0; fetchMessages := Returns [] |}
           (a_site new_WhatsApp)).
  - reflexivity.
  - discriminate.
  - reflexivity.
  - reflexivity.
  - reflexivity.
  - reflexivity.
  - reflexivity.
  - reflexivity.
  - reflexivity.
Defined.

Lemma broadcast_reaches_the_private_chats_witness :
  let env := healthy mixed_chats in
  let px := ports None in
  let s := a_site new_WhatsApp in
  let summary := "Broadcast message sent to " +:+ pretty (Z.of_nat (length mixed_chats))
                 +:+ " chats." in
  let s' := snd (broadcastCallback env px "maintenance tonight" s) in
  fst (broadcastCallback env px "maintenance tonight" s) = Returns tt
  /\ pick is_send_message (noted s s')
     = (fun c => CallSendMessage (chat_id c) "maintenance tonight")
         <$> recipients px mixed_chats
  /\ pick is_notice (noted s s') = [Earlier (EvTelegramSend summary)]
  /\ console (instance s')
     = console (instance s) ++ ["Broadcast message received: " +:+ "maintenance tonight";
                                summary].
Proof.
  apply (broadcast_reaches_the_private_chats (healthy mixed_chats) (ports None)
           "maintenance tonight" mixed_chats (a_site new_WhatsApp)).
  - reflexivity.
  - by repeat constructor.
  - reflexivity.
Defined.

Lemma broadcast_stops_at_the_first_failure_witness :
  let chats := mixed_chats ++ [chat_with "c@c.us" 0 []] in
  let env := healthy chats in
  let px := faulty_ports "b@c.us" in
  let s := a_site new_WhatsApp in
  let s' := snd (broadcastCallback env px "maintenance tonight" s) in
  fst (broadcastCallback env px "maintenance tonight" s) = Returns tt
  /\ pick is_send_message (noted s s')
     = ((fun c => CallSendMessage (chat_id c) "maintenance tonight")
          <$> recipients px [chat_with "a@c.us" 0 []; chat_with "family@g.us" 0 []])
       ++ [CallSendMessage (chat_id (chat_with "b@c.us" 0 [])) "maintenance tonight"]
  /\ pick is_notice (noted s s') = []
  /\ console (instance s')
     = console (instance s)
       ++ ["Broadcast message received: " +:+ "maintenance tonight";
           "Error sending broadcast message: " +:+ "Evaluation failed"].
Proof.
  apply (broadcast_stops_at_the_first_failure
           (healthy (mixed_chats ++ [chat_with "c@c.us" 0 []])) (faulty_ports "b@c.us")
           "maintenance tonight" "Evaluation failed"
           [chat_with "a@c.us" 0 []; chat_with "family@g.us" 0 []]
           (chat_with "b@c.us" 0 []) [chat_with "c@c.us" 0 []] (a_site new_WhatsApp)).
  - reflexivity.
  - by repeat constructor.
  - reflexivity.
  - reflexivity.
Defined.

Lemma failed_start_registers_nothing_witness :
  let env := healthy [] in
  let px := faulty_ports "b@c.us" in
  let s := a_site new_WhatsApp in
  let m := text_message "m1" 7 [] in
  let s' := snd (initialize px s) in
  fst (initialize px s) = Throws "Failed to launch the browser"
  /\ instance s' = instance s
  /\ noted s s' = [CallClientInitialize]
  /\ emit_ready env (instance s') = (Returns tt, instance s')
  /\ emit_message env m (instance s') = (Returns tt, instance s').
Proof.
  apply (failed_start_registers_nothing (healthy []) (faulty_ports "b@c.us")
           "Failed to launch the browser" (text_message "m1" 7 []) (a_site new_WhatsApp)).
  - reflexivity.
  - reflexivity.
Defined.
